(** * The DNS core of the interaction server: a shallow embedding

    This development embeds [pkg/server/dns_server.go] and states the
    properties of its natural-language specification as theorems.

    Conventions.
    - Go strings are [string]s of the Standard Library (sequences of
      8-bit characters).  Domain names handed to the handler by the DNS
      library are in presentation format, hence ASCII; [range] loops
      over a string and [strings.ToLower] are modelled on that fragment.
    - Go integers are [Z]; conversions to a fixed width write the
      wrap-around out ([uint16], [uint32], [uint64]).
    - Go maps are [gmap]s, slices are lists, a nil slice is [[]].
    - Functions of third-party packages (strings, net, miekg/dns,
      projectdiscovery/utils) are modelled by their documented
      behaviour; package [net] sits behind the interface [NetPkg]. *)

From Stdlib Require Import ZArith Ascii String List Lia Bool.
From stdpp Require Import base strings list gmap.

Local Open Scope Z_scope.


(** ** Package [strings] and friends *)

Module Strings.

Definition is_upper (c : ascii) : bool :=
  let n := nat_of_ascii c in (Nat.leb 65 n && Nat.leb n 90)%bool.

Definition lower_char (c : ascii) : ascii :=
  if is_upper c then ascii_of_nat (nat_of_ascii c + 32) else c.

(** [strings.ToLower] on ASCII text. *)
Fixpoint ToLower (s : string) : string :=
  match s with
  | EmptyString => EmptyString
  | String c s' => String (lower_char c) (ToLower s')
  end.

(** [strings.HasPrefix]. *)
Definition HasPrefix (s pre : string) : bool := String.prefix pre s.

(** [strings.HasSuffix]:
    [len(s) >= len(suffix) && s[len(s)-len(suffix):] == suffix]. *)
Definition HasSuffix (s suffix : string) : bool :=
  (Nat.leb (String.length suffix) (String.length s)
   && String.eqb
        (String.substring (String.length s - String.length suffix)
                          (String.length suffix) s)
        suffix)%bool.

(** Does the character occur in the string ([strings.ContainsRune],
    and [strings.Contains] for a one-character needle). *)
Fixpoint ContainsChar (s : string) (c : ascii) : bool :=
  match s with
  | EmptyString => false
  | String d s' => (Ascii.eqb d c || ContainsChar s' c)%bool
  end.

(** Cut a string at every character satisfying [sep], keeping empty
    pieces. *)
Fixpoint cut (sep : ascii -> bool) (s : string) : list string :=
  match s with
  | EmptyString => [EmptyString]
  | String c s' =>
      if sep c then EmptyString :: cut sep s'
      else match cut sep s' with
           | h :: t => String c h :: t
           | [] => [String c EmptyString]
           end
  end.

(** [strings.Split(s, sep)] for a one-character separator. *)
Definition Split (s : string) (sep : ascii) : list string :=
  cut (Ascii.eqb sep) s.

(** [strings.SplitN(s, sep, 2)] for a one-character separator: cut
    at the first separator only. *)
Fixpoint SplitN2 (s : string) (sep : ascii) : list string :=
  match s with
  | EmptyString => [EmptyString]
  | String c s' =>
      if Ascii.eqb sep c then [EmptyString; s']
      else match SplitN2 s' sep with
           | h :: t => String c h :: t
           | [] => [String c EmptyString]
           end
  end.

(** [strings.FieldsFunc]: maximal runs of non-separator characters;
    empty runs are dropped.  [cur] is the run being read. *)
Fixpoint FieldsFunc_from (sep : ascii -> bool) (s cur : string)
  : list string :=
  match s with
  | EmptyString => if String.eqb cur "" then [] else [cur]
  | String c s' =>
      if sep c then
        (if String.eqb cur "" then [] else [cur])
          ++ FieldsFunc_from sep s' ""
      else FieldsFunc_from sep s' (cur +:+ String c "")
  end.

Definition FieldsFunc (sep : ascii -> bool) (s : string) : list string :=
  FieldsFunc_from sep s "".

(** [strings.Join(parts, sep)]. *)
Fixpoint Join (parts : list string) (sep : string) : string :=
  match parts with
  | [] => ""
  | [p] => p
  | p :: rest => p +:+ sep +:+ Join rest sep
  end.

End Strings.

(** ** Package [projectdiscovery/utils/strings] *)

Module stringsutil.
Import Strings.

(** [HasSuffixI]: suffix test after lower-casing both sides. *)
Definition HasSuffixI (s suffix : string) : bool :=
  HasSuffix (ToLower s) (ToLower suffix).

(** [SplitAny(s, seps)]: fields of [s] between characters of [seps]. *)
Definition SplitAny (s seps : string) : list string :=
  FieldsFunc (ContainsChar seps) s.

(** The windows [s[i:i+l]] for [i] from [i0] while [i+l <= len(s)];
    [n] bounds the number of iterations by [len(s)]. *)
Fixpoint windows (s : string) (l : nat) (i n : nat) : list string :=
  match n with
  | O => []
  | S n' =>
      if Nat.leb (i + l) (String.length s)
      then String.substring i l s :: windows s l (S i) n'
      else []
  end.

(** [SlideWithLength(s, l)]: the values sent on the channel, in
    order.  A chunk shorter than [l] is sent whole. *)
Definition SlideWithLength (s : string) (l : Z) : list string :=
  if Z.of_nat (String.length s) <? l then [s]
  else windows s (Z.to_nat l) 0 (String.length s).

End stringsutil.

(** ** Package [miekg/dns]: names *)

Module dnsname.

(** Number of backslashes that end the string. *)
Fixpoint trailing_backslashes (s : string) : nat :=
  match s with
  | EmptyString => 0
  | String c s' =>
      let k := trailing_backslashes s' in
      if Nat.eqb k (String.length s')
      then (if Ascii.eqb c "\" then S k else k)
      else k
  end.

(** [dns.IsFqdn]: the name ends in a dot that is not escaped. *)
Definition IsFqdn (s : string) : bool :=
  match String.length s with
  | O => false
  | S n =>
      match String.get n s with
      | Some "."%char =>
          Nat.even (trailing_backslashes (String.substring 0 n s))
      | _ => false
      end
  end.

(** [dns.Fqdn]. *)
Definition Fqdn (s : string) : string :=
  if IsFqdn s then s else s +:+ ".".

End dnsname.

(** ** The subdomain label splitter *)

Definition is_label_sep (c : ascii) : bool :=
  (Ascii.eqb c "-" || Ascii.eqb c "_")%bool.

(** The loop of [splitSubdomainParts]: [r] is the slice built so far,
    [p] the token being read. *)
Fixpoint splitSubdomainParts_loop (s : string) (r : list string) (p : string)
  : list string :=
  match s with
  | EmptyString => r ++ [p]
  | String c s' =>
      if is_label_sep c
      then splitSubdomainParts_loop s' (r ++ [p]) ""
      else splitSubdomainParts_loop s' r (p +:+ String c "")
  end.

Definition splitSubdomainParts (s : string) : list string :=
  splitSubdomainParts_loop s [] "".

(** ** Package [encoding/hex] and byte printing *)

Module hex.

Definition fromHexChar (c : ascii) : option Z :=
  let n := Z.of_nat (nat_of_ascii c) in
  if (48 <=? n) && (n <=? 57) then Some (n - 48)
  else if (97 <=? n) && (n <=? 102) then Some (n - 97 + 10)
  else if (65 <=? n) && (n <=? 70) then Some (n - 65 + 10)
  else None.

(** [hex.DecodeString]: [None] stands for the error result (odd
    length or a character that is no hexadecimal digit). *)
Fixpoint DecodeString (s : string) : option (list Z) :=
  match s with
  | EmptyString => Some []
  | String a (String b s') =>
      match fromHexChar a, fromHexChar b, DecodeString s' with
      | Some x, Some y, Some rest => Some ((x * 16 + y) :: rest)
      | _, _, _ => None
      end
  | String _ EmptyString => None
  end.

Definition hexdigit (n : Z) : ascii :=
  if n <? 10 then ascii_of_nat (Z.to_nat (48 + n))
  else ascii_of_nat (Z.to_nat (97 + n - 10)).

(** Lower-case hexadecimal dump of a byte slice. *)
Fixpoint hexString (b : list Z) : string :=
  match b with
  | [] => ""
  | x :: rest =>
      String (hexdigit (x / 16)) (String (hexdigit (x mod 16)) (hexString rest))
  end.

End hex.

(** The regular expression [^[a-f0-9]{8}$] of [HEX_IP_REGEX]. *)
Definition is_lower_hex (c : ascii) : bool :=
  let n := nat_of_ascii c in
  ((Nat.leb 97 n && Nat.leb n 102) || (Nat.leb 48 n && Nat.leb n 57))%bool.

Fixpoint all_chars (p : ascii -> bool) (s : string) : bool :=
  match s with
  | EmptyString => true
  | String c s' => (p c && all_chars p s')%bool
  end.

Definition HEX_IP_REGEX_MatchString (s : string) : bool :=
  (Nat.eqb (String.length s) 8 && all_chars is_lower_hex s)%bool.

(** ** Package [net] *)

Module net.

(** [net.IP] is a byte slice; the nil address is the empty list. *)
Definition IP : Type := list Z.

Record IPNet : Type := mkIPNet { IPNet_IP : IP; IPNet_Mask : list Z }.

Definition IPv4len : nat := 4.
Definition IPv6len : nat := 16.

Definition v4InV6Prefix : list Z := [0; 0; 0; 0; 0; 0; 0; 0; 0; 0; 255; 255].

Definition bytes_eqb (a b : list Z) : bool :=
  bool_decide (a = b).

(** [IP.To4]. *)
Definition To4 (ip : IP) : IP :=
  if Nat.eqb (length ip) IPv4len then ip
  else if (Nat.eqb (length ip) IPv6len
           && bytes_eqb (take 12 ip) v4InV6Prefix)%bool
       then drop 12 ip
       else [].

(** [IP.Equal]. *)
Definition Equal (ip x : IP) : bool :=
  if Nat.eqb (length ip) (length x) then bytes_eqb ip x
  else if (Nat.eqb (length ip) IPv4len && Nat.eqb (length x) IPv6len)%bool
       then (bytes_eqb (take 12 x) v4InV6Prefix && bytes_eqb ip (drop 12 x))%bool
  else if (Nat.eqb (length ip) IPv6len && Nat.eqb (length x) IPv4len)%bool
       then (bytes_eqb (take 12 ip) v4InV6Prefix && bytes_eqb (drop 12 ip) x)%bool
  else false.

(** [networkNumberAndMask]; the pair of nil slices is [None]. *)
Definition networkNumberAndMask (n : IPNet) : option (IP * list Z) :=
  let ip4 := To4 (IPNet_IP n) in
  let ip := if Nat.eqb (length ip4) 0 then IPNet_IP n else ip4 in
  if (Nat.eqb (length ip4) 0 && negb (Nat.eqb (length ip) IPv6len))%bool
  then None
  else
    let m := IPNet_Mask n in
    if Nat.eqb (length m) IPv4len then
      (if Nat.eqb (length ip) IPv4len then Some (ip, m) else None)
    else if Nat.eqb (length m) IPv6len then
      (if Nat.eqb (length ip) IPv4len then Some (ip, drop 12 m) else Some (ip, m))
    else None.

Fixpoint masked_eqb (nn m ip : list Z) : bool :=
  match nn, m, ip with
  | a :: nn', k :: m', b :: ip' =>
      (Z.eqb (Z.land a k) (Z.land b k) && masked_eqb nn' m' ip')%bool
  | _, _, _ => true
  end.

(** [IPNet.Contains] on a receiver that is not the nil pointer. *)
Definition Contains (n : IPNet) (ip : IP) : bool :=
  let '(nn, m) := match networkNumberAndMask n with
                  | Some p => p
                  | None => ([], [])
                  end in
  let ip4 := To4 ip in
  let ip := if Nat.eqb (length ip4) 0 then ip else ip4 in
  if negb (Nat.eqb (length ip) (length nn)) then false
  else masked_eqb nn m ip.

(** [ubtoa]: a byte in decimal. *)
Definition digit (n : Z) : ascii := ascii_of_nat (Z.to_nat (48 + n)).

Definition ubtoa (v : Z) : string :=
  if v <? 10 then String (digit v) ""
  else if v <? 100 then String (digit (v / 10)) (String (digit (v mod 10)) "")
  else String (digit (v / 100))
         (String (digit ((v / 10) mod 10)) (String (digit (v mod 10)) "")).

Definition dotted_quad (a b c d : Z) : string :=
  ubtoa a +:+ "." +:+ ubtoa b +:+ "." +:+ ubtoa c +:+ "." +:+ ubtoa d.

End net.

(** The part of package [net] that reads and writes text.  Parsing of
    addresses and the IPv6 text form stay behind this interface; the
    development is generic in it. *)
Class NetPkg : Type := {
  (** [net.ParseIP]; the nil address on failure. *)
  ParseIP : string -> net.IP;
  (** [net.ParseCIDR]: the network, or [None] for [(nil, nil, err)]. *)
  ParseCIDR : string -> option net.IPNet;
  (** The host part given by [net.SplitHostPort], empty on error. *)
  SplitHostPort_host : string -> string;
  (** The text of a 16-byte address that is no IPv4-mapped one. *)
  IPv6_String : net.IP -> string;
}.

Module netfmt.
Import net.

(** [IP.String]. *)
Definition IP_String `{NetPkg} (ip : IP) : string :=
  if Nat.eqb (length ip) 0 then "<nil>"
  else match To4 ip with
       | [a; b; c; d] => dotted_quad a b c d
       | _ =>
           if negb (Nat.eqb (length ip) IPv6len)
           then "?" +:+ hex.hexString ip
           else IPv6_String ip
       end.

End netfmt.

(** ** Package [miekg/dns]: messages *)

Module dns.

Definition TypeA : Z := 1.
Definition TypeNS : Z := 2.
Definition TypeCNAME : Z := 5.
Definition TypeSOA : Z := 6.
Definition TypePTR : Z := 12.
Definition TypeMX : Z := 15.
Definition TypeTXT : Z := 16.
Definition TypeAAAA : Z := 28.
Definition TypeOPT : Z := 41.
Definition TypeANY : Z := 255.
Definition ClassINET : Z := 1.
Definition OpcodeQuery : Z := 0.
Definition RcodeSuccess : Z := 0.

Record RR_Header : Type := mkHdr {
  Name : string;
  Rrtype : Z;
  Class : Z;
  Ttl : Z;
}.

(** EDNS0 options: the local option and every other kind. *)
Inductive EDNS0 : Type :=
| EDNS0_LOCAL (Code : Z) (Data : list Z)
| EDNS0_other (Code : Z).

(** The resource records the server builds or inspects. *)
Inductive RR : Type :=
| A (Hdr : RR_Header) (ip : net.IP)
| AAAA (Hdr : RR_Header) (ip : net.IP)
| NS (Hdr : RR_Header) (Ns : string)
| MX (Hdr : RR_Header) (Preference : Z) (Mx : string)
| SOA (Hdr : RR_Header) (Ns Mbox : string)
      (Serial Refresh Retry Expire Minttl : Z)
| TXT (Hdr : RR_Header) (Txt : list string)
| OPT (Hdr : RR_Header) (Option : list EDNS0)
| RR_other (Hdr : RR_Header).

Record Question : Type := mkQuestion {
  QName : string;
  Qtype : Z;
  Qclass : Z;
}.

Record Msg : Type := mkMsg {
  Id : Z;
  Response : bool;
  Opcode : Z;
  Authoritative : bool;
  RecursionDesired : bool;
  CheckingDisabled : bool;
  Rcode : Z;
  Questions : list Question;
  Answer : list RR;
  Ns : list RR;
  Extra : list RR;
}.

(** [new(dns.Msg)]. *)
Definition new_Msg : Msg :=
  mkMsg 0 false 0 false false false 0 [] [] [] [].

(** [Msg.SetReply]. *)
Definition SetReply (m request : Msg) : Msg :=
  let opq := Z.eqb (Opcode request) OpcodeQuery in
  mkMsg (Id request) true (Opcode request) (Authoritative m)
        (if opq then RecursionDesired request else RecursionDesired m)
        (if opq then CheckingDisabled request else CheckingDisabled m)
        RcodeSuccess
        (match Questions request with
         | q :: _ => [q]
         | [] => Questions m
         end)
        (Answer m) (Ns m) (Extra m).

Definition set_Authoritative (b : bool) (m : Msg) : Msg :=
  mkMsg (Id m) (Response m) (Opcode m) b (RecursionDesired m)
        (CheckingDisabled m) (Rcode m) (Questions m) (Answer m) (Ns m)
        (Extra m).

(** [m.Answer = append(m.Answer, rrs...)], and the same for the
    authority and additional sections. *)
Definition append_Answer (rrs : list RR) (m : Msg) : Msg :=
  mkMsg (Id m) (Response m) (Opcode m) (Authoritative m)
        (RecursionDesired m) (CheckingDisabled m) (Rcode m) (Questions m)
        (Answer m ++ rrs) (Ns m) (Extra m).

Definition append_Ns (rrs : list RR) (m : Msg) : Msg :=
  mkMsg (Id m) (Response m) (Opcode m) (Authoritative m)
        (RecursionDesired m) (CheckingDisabled m) (Rcode m) (Questions m)
        (Answer m) (Ns m ++ rrs) (Extra m).

Definition append_Extra (rrs : list RR) (m : Msg) : Msg :=
  mkMsg (Id m) (Response m) (Opcode m) (Authoritative m)
        (RecursionDesired m) (CheckingDisabled m) (Rcode m) (Questions m)
        (Answer m) (Ns m) (Extra m ++ rrs).

End dns.

(** ** Package [acme] *)

Module acme.

(** Modelled from the spec: the constant [acme.DNSChallengeString] is
    declared outside the given sources; the ACME provider is
    triggered by the literal prefix [_acme-challenge.]. *)
Definition DNSChallengeString : string := "_acme-challenge.".

(** A record of the ACME store: a value and a TTL. *)
Record Record_ : Type := mkRecord { Value : string; TTL : Z }.

End acme.

(** ** Options, collaborators and the server state *)

Definition uint16 (z : Z) : Z := z mod 2 ^ 16.
Definition uint32 (z : Z) : Z := z mod 2 ^ 32.
Definition uint64 (z : Z) : Z := z mod 2 ^ 64.

(** [Interaction], as [handleInteraction] fills it. *)
Record Interaction : Type := mkInteraction {
  Protocol : string;
  UniqueID : string;
  FullId : string;
  QType : string;
  RawRequest : string;
  RawResponse : string;
  RemoteAddress : string;
  Timestamp : Z;
}.

(** The fields of [server.Options] the DNS server reads.  The methods
    [GetIdLength], [isCorrelationID] and [getCorrelationID] are declared
    outside the given sources and are taken as they come; [OnResult]
    records whether a callback is installed. *)
Record Options : Type := mkOptions {
  Domains : list string;
  DnsTTL : Z;
  DnsSubdomainRecords : list string;
  IPAddress : string;
  IPv6Address : string;
  RootTLD : bool;
  ScanEverywhere : bool;
  CustomRecords : string;
  RealIPFrom : list string;
  OriginIPEDNSopt : Z;
  GetIdLength : Z;
  isCorrelationID : string -> bool;
  getCorrelationID : string -> string;
  OnResult : bool;
}.

(** [customRecordConfig]: the two maps of the custom-records file, in
    the order the decoder's maps are walked. *)
Record customRecordConfig : Type := mkRecordConfig {
  cfg_IPv4 : list (string * string);
  cfg_IPv6 : list (string * string);
}.

(** What the collaborators answer: the ACME record store, the storage
    sink, the encoder, the transport, the clock, the random source and
    the file system.  [None] and [true] stand for an error result. *)
Record Env : Type := mkEnv {
  ACMEStore_GetRecords : string -> option (list acme.Record_);
  Storage_AddInteraction_fails : string -> string -> bool;
  Storage_AddInteractionWithId_fails : string -> string -> bool;
  jsonEncode : Interaction -> option string;
  Msg_String : dns.Msg -> string;
  WriteMsg_fails : dns.Msg -> bool;
  rand_source : nat -> Z;
  time_Now : nat -> Z;
  decodeRecordsFile : string -> option customRecordConfig;
  CertificateAuthority : string;
}.

(** [dns.ResponseWriter]: the text of the peer address. *)
Record ResponseWriter : Type := mkWriter { RemoteAddr_String : string }.

Inductive LogLevel : Type := Warning | Error.

(** What the handler does to the outside, in order.  Debug output is
    left out. *)
Inductive Event : Type :=
| EvLog (level : LogLevel) (what : string)
| EvPrintf (what : string)
| EvOnResult (i : Interaction)
| EvAddInteraction (key data : string)
| EvAddInteractionWithId (key data : string)
| EvWriteMsg (m : dns.Msg).

(** The state the handler changes: the statistics counter, the number
    of random draws taken and the events so far. *)
Record World : Type := mkWorld {
  Stats_Dns : Z;
  draws : nat;
  events : list Event;
}.

(** A computation ends with a value or panics. *)
Inductive Result (T : Type) : Type :=
| Done (x : T) (w : World)
| Panicked (why : string) (w : World).
Arguments Done {T} x w.
Arguments Panicked {T} why w.

(** The world a computation ends in. *)
Definition final {T} (r : Result T) : World :=
  match r with
  | Done _ w => w
  | Panicked _ w => w
  end.

Definition M (T : Type) : Type := World -> Result T.

Definition ret {T} (x : T) : M T := fun w => Done x w.

Definition bind {T U} (c : M T) (k : T -> M U) : M U :=
  fun w => match c w with
           | Done x w' => k x w'
           | Panicked why w' => Panicked why w'
           end.

Notation "x <- c ;; k" := (bind c (fun x => k))
  (at level 100, c at next level, right associativity).
Notation "c ;;; k" := (bind c (fun _ => k))
  (at level 100, right associativity).

Definition panic {T} (why : string) : M T := fun w => Panicked why w.

Definition emit (e : Event) : M unit :=
  fun w => Done tt (mkWorld (Stats_Dns w) (draws w) (events w ++ [e])).

(** [atomic.AddUint64(&h.options.Stats.Dns, 1)]. *)
Definition atomic_AddUint64_Dns : M unit :=
  fun w => Done tt (mkWorld (uint64 (Stats_Dns w + 1)) (draws w) (events w)).

(** [rand.Intn(n)]: panics unless [n > 0]; any value below [n] can
    come out. *)
Definition rand_Intn (env : Env) (n : Z) : M Z :=
  fun w =>
    if n <=? 0 then Panicked "invalid argument to Intn" w
    else Done (rand_source env (draws w) mod n)
              (mkWorld (Stats_Dns w) (S (draws w)) (events w)).

(** [time.Now()]. *)
Definition time_Now_ (env : Env) : M Z :=
  fun w => Done (time_Now env (length (events w))) w.

(** [customDNSRecords]. *)
Record customDNSRecords : Type := mkCustom {
  records : gmap string string;
  v6Records : gmap string string;
  subdomainRecords : gmap string string;
  subdomainV6Records : gmap string string;
}.

(** [DNSServer], without the listener. *)
Record DNSServer : Type := mkServer {
  options : Options;
  mxDomains : gmap string string;
  nsDomains : gmap string (list string);
  ipAddress : net.IP;
  ipv6Address : net.IP;
  timeToLive : Z;
  customRecords : customDNSRecords;
  TxtRecord : string;
}.

(** ** The server *)

Section Server.
Context `{NetPkg} (env : Env).
Import Strings.

Definition is_nil {T} (l : list T) : bool := Nat.eqb (length l) 0.

(** *** Construction *)

(** [defaultCustomRecords] and [defaultCustomV6Records]. *)
Definition defaultCustomRecords : list (string * string) :=
  [("aws", "169.254.169.254"); ("alibaba", "100.100.100.200");
   ("localhost", "127.0.0.1"); ("oracle", "192.0.0.192")].

Definition defaultCustomV6Records : list (string * string) :=
  [("localhost", "::1")].

(** [for k, v := range src { dst[f(k)] = v }]. *)
Definition copy_into (f : string -> string) (src : list (string * string))
    (dst : gmap string string) : gmap string string :=
  foldl (fun acc kv => insert (f (fst kv)) (snd kv) acc) dst src.

(** [readRecordsFromFile]: [None] is the error result. *)
Definition readRecordsFromFile (c : customDNSRecords) (input : string)
  : option customDNSRecords :=
  match decodeRecordsFile env input with
  | None => None
  | Some data =>
      Some (mkCustom (copy_into ToLower (cfg_IPv4 data) (records c))
                     (copy_into ToLower (cfg_IPv6 data) (v6Records c))
                     (subdomainRecords c) (subdomainV6Records c))
  end.

(** The first loop of [newCustomDNSRecordsServer], over the
    [name=ip] strings. *)
Fixpoint subdomain_overlays (l : list string)
    (v4 v6 : gmap string string)
  : M (gmap string string * gmap string string) :=
  match l with
  | [] => ret (v4, v6)
  | m :: rest =>
      match SplitN2 m "=" with
      | [name; addr] =>
          let ip := ParseIP addr in
          if is_nil ip then
            emit (EvLog Warning "Invalid DnsSubdomainRecord") ;;;
            subdomain_overlays rest v4 v6
          else if negb (is_nil (net.To4 ip)) then
            subdomain_overlays rest (insert (ToLower name) addr v4) v6
          else
            subdomain_overlays rest v4 (insert (ToLower name) addr v6)
      | _ => subdomain_overlays rest v4 v6
      end
  end.

Definition newCustomDNSRecordsServer (o : Options) : M customDNSRecords :=
  sub <- subdomain_overlays (DnsSubdomainRecords o) empty empty ;;
  let server :=
    mkCustom (copy_into id defaultCustomRecords empty)
             (copy_into id defaultCustomV6Records empty)
             (fst sub) (snd sub) in
  let input := CustomRecords o in
  if negb (String.eqb input "") then
    match readRecordsFromFile server input with
    | None =>
        emit (EvLog Error "Could not read custom DNS records") ;;;
        ret server
    | Some server' => ret server'
    end
  else ret server.

(** The loop of [NewDNSServer] that derives the MX and NS names. *)
Definition derive_names (domains : list string)
  : gmap string string * gmap string (list string) :=
  foldl (fun acc domain =>
           let dotdomain := dnsname.Fqdn domain in
           (insert dotdomain ("mail." +:+ dotdomain) (fst acc),
            insert dotdomain ["ns1." +:+ dotdomain; "ns2." +:+ dotdomain]
                   (snd acc)))
        (empty, empty) domains.

Definition NewDNSServer (o : Options) : M DNSServer :=
  let names := derive_names (Domains o) in
  custom <- newCustomDNSRecordsServer o ;;
  ret (mkServer o (fst names) (snd names)
                (ParseIP (IPAddress o)) (ParseIP (IPv6Address o))
                (uint32 (DnsTTL o)) custom "").

(** *** The custom records engine *)

(** The loop of [checkCustomResponse] that collects the candidate
    addresses into [ips]. *)
Fixpoint collect_v4 (c : customDNSRecords) (subParts : list string)
    (ips : list string) : list string :=
  match subParts with
  | [] => ips
  | part :: rest =>
      if String.eqb part "" then collect_v4 c rest (ips ++ [""])
      else if HEX_IP_REGEX_MatchString part then
        match hex.DecodeString part with
        | None => collect_v4 c rest ips
        | Some ip => collect_v4 c rest (ips ++ [netfmt.IP_String ip])
        end
      else match subdomainRecords c !! ToLower part with
           | Some ans => collect_v4 c rest (ips ++ [ans])
           | None => collect_v4 c rest ips
           end
  end.

(** [ips[rand.Intn(len(ips))]]. *)
Definition random_choice (ips : list string) : M string :=
  i <- rand_Intn env (Z.of_nat (length ips)) ;;
  match ips !! Z.to_nat i with
  | Some ip => ret ip
  | None => panic "index out of range"
  end.

Definition checkCustomResponse (c : customDNSRecords) (zone : string)
  : M string :=
  match SplitN2 zone "." with
  | [label; _] =>
      match records c !! ToLower label with
      | Some value => ret value
      | None =>
          let subParts := splitSubdomainParts label in
          if Nat.eqb (length subParts) 1 then ret ""
          else
            let ips := collect_v4 c subParts [] in
            if Nat.eqb (length ips) 0 then ret ""
            else random_choice ips
      end
  | _ => ret ""
  end.

Fixpoint collect_v6 (c : customDNSRecords) (subParts : list string)
    (ips : list string) : list string :=
  match subParts with
  | [] => ips
  | part :: rest =>
      if String.eqb part "" then collect_v6 c rest (ips ++ [""])
      else match subdomainV6Records c !! ToLower part with
           | Some ans => collect_v6 c rest (ips ++ [ans])
           | None => collect_v6 c rest ips
           end
  end.

Definition checkCustomAAAAResponse (c : customDNSRecords) (zone : string)
  : M string :=
  match SplitN2 zone "." with
  | [label; _] =>
      match v6Records c !! ToLower label with
      | Some value => ret value
      | None =>
          let subParts := splitSubdomainParts label in
          if Nat.eqb (length subParts) 1 then ret ""
          else
            let ips := collect_v6 c subParts [] in
            if Nat.eqb (length ips) 0 then ret ""
            else random_choice ips
      end
  | _ => ret ""
  end.

(** *** The authoritative responder *)

(** The loop over [nsDomains] of [resultFunction] and
    [resultFunctionAAAA]: an NS record in the authority section and a
    glue A record in the additional section for each name. *)
Definition attach_ns (h : DNSServer) (nsHeader : dns.RR_Header)
    (names : list string) (m : dns.Msg) : dns.Msg :=
  foldl (fun m nsDomain =>
           dns.append_Extra
             [dns.A (dns.mkHdr nsDomain dns.TypeA dns.ClassINET (timeToLive h))
                    (ipAddress h)]
             (dns.append_Ns [dns.NS nsHeader nsDomain] m))
        m names.

(** The loop over [dotDomains] they share: the first name found in
    the NS table decides. *)
Fixpoint ns_block (h : DNSServer) (nsHeader : dns.RR_Header)
    (dotDomains : list string) (m : dns.Msg) : dns.Msg :=
  match dotDomains with
  | [] => m
  | dotDomain :: rest =>
      match nsDomains h !! dotDomain with
      | Some names => attach_ns h nsHeader names m
      | None => ns_block h nsHeader rest m
      end
  end.

(** [[]string{zone, dns.Fqdn(h.options.Domains[0])}]; indexing an
    empty apex list panics. *)
Definition dotDomains_of (h : DNSServer) (zone : string) : M (list string) :=
  match Domains (options h) with
  | [] => panic "index out of range"
  | d0 :: _ => ret [zone; dnsname.Fqdn d0]
  end.

Definition resultFunction (h : DNSServer) (nsHeader : dns.RR_Header)
    (zone : string) (ip : net.IP) (m : dns.Msg) : M dns.Msg :=
  let m := dns.append_Answer
             [dns.A (dns.mkHdr zone dns.TypeA dns.ClassINET (timeToLive h)) ip]
             m in
  dotDomains <- dotDomains_of h zone ;;
  ret (ns_block h nsHeader dotDomains m).

Definition resultFunctionAAAA (h : DNSServer) (nsHeader : dns.RR_Header)
    (zone : string) (ip : net.IP) (m : dns.Msg) : M dns.Msg :=
  let m := dns.append_Answer
             [dns.AAAA (dns.mkHdr zone dns.TypeAAAA dns.ClassINET (timeToLive h))
                       ip]
             m in
  dotDomains <- dotDomains_of h zone ;;
  ret (ns_block h nsHeader dotDomains m).

Definition handleACNAMEANY (h : DNSServer) (zone : string) (m : dns.Msg)
  : M dns.Msg :=
  let nsHeader := dns.mkHdr zone dns.TypeNS dns.ClassINET (timeToLive h) in
  record <- checkCustomResponse (customRecords h) zone ;;
  if negb (String.eqb record "")
  then resultFunction h nsHeader zone (ParseIP record) m
  else resultFunction h nsHeader zone (ipAddress h) m.

Definition handleAAAACNAMEANY (h : DNSServer) (zone : string) (m : dns.Msg)
  : M dns.Msg :=
  let nsHeader := dns.mkHdr zone dns.TypeNS dns.ClassINET (timeToLive h) in
  record <- checkCustomAAAAResponse (customRecords h) zone ;;
  if negb (String.eqb record "")
  then resultFunctionAAAA h nsHeader zone (ParseIP record) m
  else resultFunctionAAAA h nsHeader zone (ipv6Address h) m.

Fixpoint mx_block (h : DNSServer) (nsHdr : dns.RR_Header)
    (dotDomains : list string) (m : dns.Msg) : dns.Msg :=
  match dotDomains with
  | [] => m
  | dotDomain :: rest =>
      match mxDomains h !! dotDomain with
      | Some mxdomain => dns.append_Answer [dns.MX nsHdr 1 mxdomain] m
      | None => mx_block h nsHdr rest m
      end
  end.

Definition handleMX (h : DNSServer) (zone : string) (m : dns.Msg)
  : M dns.Msg :=
  let nsHdr := dns.mkHdr zone dns.TypeMX dns.ClassINET (timeToLive h) in
  dotDomains <- dotDomains_of h zone ;;
  ret (mx_block h nsHdr dotDomains m).

Fixpoint ns_answer (h : DNSServer) (nsHeader : dns.RR_Header)
    (dotDomains : list string) (m : dns.Msg) : dns.Msg :=
  match dotDomains with
  | [] => m
  | dotDomain :: rest =>
      match nsDomains h !! dotDomain with
      | Some names =>
          foldl (fun m nsDomain =>
                   dns.append_Answer [dns.NS nsHeader nsDomain] m) m names
      | None => ns_answer h nsHeader rest m
      end
  end.

Definition handleNS (h : DNSServer) (zone : string) (m : dns.Msg)
  : M dns.Msg :=
  let nsHeader := dns.mkHdr zone dns.TypeNS dns.ClassINET (timeToLive h) in
  dotDomains <- dotDomains_of h zone ;;
  ret (ns_answer h nsHeader dotDomains m).

(** The loop of [handleSOA] returns from inside the inner loop, at
    the first name; an empty entry lets the outer loop go on. *)
Fixpoint soa_answer (h : DNSServer) (nsHdr : dns.RR_Header)
    (dotDomains : list string) (m : dns.Msg) : dns.Msg :=
  match dotDomains with
  | [] => m
  | dotDomain :: rest =>
      match nsDomains h !! dotDomain with
      | Some (nsDomain :: _) =>
          dns.append_Answer
            [dns.SOA nsHdr nsDomain (CertificateAuthority env) 1 0 0 60 60] m
      | _ => soa_answer h nsHdr rest m
      end
  end.

Definition handleSOA (h : DNSServer) (zone : string) (m : dns.Msg)
  : M dns.Msg :=
  let nsHdr := dns.mkHdr zone dns.TypeSOA dns.ClassINET 0 in
  dotDomains <- dotDomains_of h zone ;;
  ret (soa_answer h nsHdr dotDomains m).

Definition handleTXT (h : DNSServer) (zone : string) (m : dns.Msg)
  : dns.Msg :=
  dns.append_Answer
    [dns.TXT (dns.mkHdr zone dns.TypeTXT dns.ClassINET 0) [TxtRecord h]] m.

(** [handleACMETXTChallenge]: [None] is the error of the store. *)
Definition handleACMETXTChallenge (h : DNSServer) (zone : string)
    (m : dns.Msg) : option dns.Msg :=
  match ACMEStore_GetRecords env (ToLower zone) with
  | None => None
  | Some recs =>
      let rrs :=
        map (fun record =>
               dns.TXT (dns.mkHdr zone dns.TypeTXT dns.ClassINET
                                  (uint32 (acme.TTL record)))
                       [acme.Value record])
            recs in
      Some (dns.append_Answer rrs m)
  end.

Definition toQType (ttype : Z) : string :=
  if ttype =? dns.TypeA then "A"
  else if ttype =? dns.TypeNS then "NS"
  else if ttype =? dns.TypeCNAME then "CNAME"
  else if ttype =? dns.TypeSOA then "SOA"
  else if ttype =? dns.TypePTR then "PTR"
  else if ttype =? dns.TypeMX then "MX"
  else if ttype =? dns.TypeTXT then "TXT"
  else if ttype =? dns.TypeAAAA then "AAAA"
  else "".

(** *** The origin IP resolver *)

(** The loop of [getMsgHost] over [RealIPFrom]; the result is
    [isTrusted].  A CIDR text that does not parse leaves [cidr] nil,
    and [cidr.Contains] then dereferences the nil pointer. *)
Fixpoint trusted_loop (tests : list string) (checkIP : net.IP) : M bool :=
  match tests with
  | [] => ret false
  | test :: rest =>
      if ContainsChar test "/" then
        match ParseCIDR test with
        | None =>
            emit (EvLog Error "Invalid CIDR format") ;;;
            panic "invalid memory address or nil pointer dereference"
        | Some cidr =>
            if net.Contains cidr checkIP then ret true
            else trusted_loop rest checkIP
        end
      else
        let ip := ParseIP test in
        (if is_nil ip then emit (EvLog Error "Invalid IP address")
         else ret tt) ;;;
        if net.Equal ip checkIP then ret true
        else trusted_loop rest checkIP
  end.

(** The loop over the options of one OPT record; [Some v] means the
    function returned [v] from inside the loop. *)
Fixpoint scan_options (h : DNSServer) (host : string)
    (opts : list dns.EDNS0) : M (option string) :=
  match opts with
  | [] => ret None
  | dns.EDNS0_LOCAL code data :: rest =>
      if code =? uint16 (OriginIPEDNSopt (options h)) then
        let testHost := netfmt.IP_String data in
        if is_nil (ParseIP testHost) then
          emit (EvLog Warning "Invalid origin IP address") ;;;
          ret (Some host)
        else ret (Some testHost)
      else scan_options h host rest
  | _ :: rest => scan_options h host rest
  end.

(** The loop over the additional section. *)
Fixpoint scan_extra (h : DNSServer) (host : string)
    (extra : list dns.RR) : M (option string) :=
  match extra with
  | [] => ret None
  | dns.OPT _ opts :: rest =>
      found <- scan_options h host opts ;;
      match found with
      | Some v => ret (Some v)
      | None => scan_extra h host rest
      end
  | _ :: rest => scan_extra h host rest
  end.

Definition getMsgHost (h : DNSServer) (w : ResponseWriter) (r : dns.Msg)
  : M string :=
  let host := SplitHostPort_host (RemoteAddr_String w) in
  if OriginIPEDNSopt (options h) <? 0 then ret host
  else
    let checkIP := ParseIP host in
    isTrusted <- trusted_loop (RealIPFrom (options h)) checkIP ;;
    if negb isTrusted then ret host
    else
      found <- scan_extra h host (dns.Extra r) ;;
      match found with
      | Some v => ret v
      | None => ret host
      end.

(** *** The correlation extractor and the dispatcher *)

(** The first configured apex whose FQDN ends the name, or the empty
    string. *)
Fixpoint find_domain (domains : list string) (domain : string) : string :=
  match domains with
  | [] => ""
  | configuredDomain :: rest =>
      if stringsutil.HasSuffixI domain (dnsname.Fqdn configuredDomain)
      then configuredDomain
      else find_domain rest domain
  end.

(** The delimiters of scan-everywhere mode: dot, line feed, tab,
    double quote, single quote. *)
Definition scan_delimiters : string :=
  String "." (String "010" (String "009" (String "034" (String "'" "")))).

(** The two loops of scan-everywhere mode; [ids] is the pair
    [(uniqueID, fullID)]. *)
Definition scan_windows (o : Options) (windows : list string)
    (ids : string * string) : string * string :=
  foldl (fun ids part =>
           let normalizedPart := ToLower part in
           if isCorrelationID o normalizedPart
           then (normalizedPart, part)
           else ids)
        ids windows.

Definition scan_chunks (o : Options) (chunks : list string)
    (ids : string * string) : string * string :=
  foldl (fun ids chunk =>
           scan_windows o (stringsutil.SlideWithLength chunk (GetIdLength o))
                        ids)
        ids chunks.

(** The two loops of strict label mode. *)
Definition scan_subParts (o : Options) (parts : list string) (i : nat)
    (part : string) (subParts : list string) (ids : string * string)
  : string * string :=
  foldl (fun ids sub =>
           if isCorrelationID o sub then
             let fullID := part in
             let fullID :=
               if Nat.leb (i + 1) (length parts)
               then Join (take (i + 1) parts) "."
               else fullID in
             (sub, fullID)
           else ids)
        ids subParts.

Fixpoint scan_labels (o : Options) (parts : list string) (i : nat)
    (todo : list string) (ids : string * string) : string * string :=
  match todo with
  | [] => ids
  | part :: rest =>
      scan_labels o parts (S i) rest
        (scan_subParts o parts i part (splitSubdomainParts part) ids)
  end.

(** The extraction step of [handleInteraction]: the values of
    [uniqueID] and [fullID] once the scan is over. *)
Definition extract_correlation (o : Options) (foundDomain domain : string)
    (requestMsg : string) : string * string :=
  if negb (String.eqb foundDomain "") then
    if ScanEverywhere o then
      scan_chunks o (stringsutil.SplitAny requestMsg scan_delimiters) ("", "")
    else
      let parts := Split domain "." in
      scan_labels o parts 0 parts ("", "")
  else ("", "").

(** [r.Question[0].Qtype]. *)
Definition first_Qtype (r : dns.Msg) : M Z :=
  match dns.Questions r with
  | [] => panic "index out of range"
  | q :: _ => ret (dns.Qtype q)
  end.

Definition handleInteraction (h : DNSServer) (domain : string)
    (w : ResponseWriter) (r m : dns.Msg) : M unit :=
  let o := options h in
  let requestMsg := Msg_String env r in
  let responseMsg := Msg_String env m in
  let foundDomain := find_domain (Domains o) domain in
  (if (RootTLD o && negb (String.eqb foundDomain ""))%bool then
     let correlationID := foundDomain in
     host <- getMsgHost h w r ;;
     qt <- first_Qtype r ;;
     now <- time_Now_ env ;;
     let interaction :=
       mkInteraction "dns" domain domain (toQType qt) requestMsg
                     responseMsg host now in
     (if OnResult o then emit (EvOnResult interaction) else ret tt) ;;;
     match jsonEncode env interaction with
     | None =>
         emit (EvLog Warning "Could not encode root tld dns interaction")
     | Some buffer =>
         emit (EvAddInteractionWithId correlationID buffer) ;;;
         if Storage_AddInteractionWithId_fails env correlationID buffer
         then emit (EvLog Warning "Could not store dns interaction")
         else ret tt
     end
   else ret tt) ;;;
  let ids := extract_correlation o foundDomain domain requestMsg in
  let uniqueID := fst ids in
  let fullID := snd ids in
  if negb (String.eqb uniqueID "") then
    let correlationID := getCorrelationID o uniqueID in
    host <- getMsgHost h w r ;;
    qt <- first_Qtype r ;;
    now <- time_Now_ env ;;
    let interaction :=
      mkInteraction "dns" uniqueID fullID (toQType qt) requestMsg
                    responseMsg host now in
    match jsonEncode env interaction with
    | None => emit (EvLog Warning "Could not encode dns interaction")
    | Some buffer =>
        emit (EvAddInteraction correlationID buffer) ;;;
        if Storage_AddInteraction_fails env correlationID buffer
        then emit (EvLog Warning "Could not store dns interaction")
        else ret tt
    end
  else ret tt.

(** *** The handler *)

(** The body of the loop of [ServeDNS] for one question.  The result
    is the reply and the flag [isDNSChallenge], or [None] when the
    handler returns from inside the loop. *)
Definition serve_question (h : DNSServer) (question : dns.Question)
    (m : dns.Msg) (isDNSChallenge : bool) : M (option (dns.Msg * bool)) :=
  let domain := dns.QName question in
  let qtype := dns.Qtype question in
  if HasPrefix (ToLower domain) acme.DNSChallengeString then
    let isDNSChallenge := true in
    if qtype =? dns.TypeSOA then
      m' <- handleSOA h domain m ;; ret (Some (m', isDNSChallenge))
    else if qtype =? dns.TypeTXT then
      match handleACMETXTChallenge h domain m with
      | None => emit (EvPrintf "handleACMETXTChallenge err") ;;; ret None
      | Some m' => ret (Some (m', isDNSChallenge))
      end
    else if qtype =? dns.TypeNS then
      m' <- handleNS h domain m ;; ret (Some (m', isDNSChallenge))
    else if qtype =? dns.TypeA then
      m' <- handleACNAMEANY h domain m ;; ret (Some (m', isDNSChallenge))
    else if qtype =? dns.TypeAAAA then
      m' <- handleAAAACNAMEANY h domain m ;; ret (Some (m', isDNSChallenge))
    else ret (Some (m, isDNSChallenge))
  else
    if (qtype =? dns.TypeA) || (qtype =? dns.TypeCNAME)
       || (qtype =? dns.TypeANY) then
      m' <- handleACNAMEANY h domain m ;; ret (Some (m', isDNSChallenge))
    else if qtype =? dns.TypeAAAA then
      m' <- handleAAAACNAMEANY h domain m ;; ret (Some (m', isDNSChallenge))
    else if qtype =? dns.TypeMX then
      m' <- handleMX h domain m ;; ret (Some (m', isDNSChallenge))
    else if qtype =? dns.TypeNS then
      m' <- handleNS h domain m ;; ret (Some (m', isDNSChallenge))
    else if qtype =? dns.TypeSOA then
      m' <- handleSOA h domain m ;; ret (Some (m', isDNSChallenge))
    else if qtype =? dns.TypeTXT then
      ret (Some (handleTXT h domain m, isDNSChallenge))
    else ret (Some (m, isDNSChallenge)).

Fixpoint serve_questions (h : DNSServer) (questions : list dns.Question)
    (m : dns.Msg) (isDNSChallenge : bool) : M (option (dns.Msg * bool)) :=
  match questions with
  | [] => ret (Some (m, isDNSChallenge))
  | question :: rest =>
      step <- serve_question h question m isDNSChallenge ;;
      match step with
      | None => ret None
      | Some (m', flag) => serve_questions h rest m' flag
      end
  end.

Definition ServeDNS (h : DNSServer) (w : ResponseWriter) (r : dns.Msg)
  : M unit :=
  atomic_AddUint64_Dns ;;;
  let m := dns.SetReply dns.new_Msg r in
  let m := dns.set_Authoritative true m in
  match dns.Questions r with
  | [] => ret tt
  | q0 :: _ =>
      served <- serve_questions h (dns.Questions r) m false ;;
      match served with
      | None => ret tt
      | Some (m, isDNSChallenge) =>
          (if negb isDNSChallenge
           then handleInteraction h (dns.QName q0) w r m
           else ret tt) ;;;
          emit (EvWriteMsg m) ;;;
          if WriteMsg_fails env m
          then emit (EvLog Warning "Could not write DNS response")
          else ret tt
      end
  end.
End Server.

(** ** An instance of the text functions of package [net]

    The IPv4 fragment: dotted-quad addresses, [a.b.c.d/n] networks and
    [host:port] peers.  It agrees with package [net] on these texts and
    rejects every other one, so it is used on IPv4 inputs only. *)

Module net_v4.
Import Strings.

Definition digit_val (c : ascii) : option Z :=
  let n := Z.of_nat (nat_of_ascii c) in
  if (48 <=? n) && (n <=? 57) then Some (n - 48) else None.

Fixpoint digits_val (s : string) (acc : Z) : option Z :=
  match s with
  | EmptyString => Some acc
  | String c s' =>
      match digit_val c with
      | Some d => digits_val s' (acc * 10 + d)
      | None => None
      end
  end.

(** A decimal number of one to three digits without a leading zero. *)
Definition parse_dec (s : string) : option Z :=
  match s with
  | EmptyString => None
  | String "0" (String _ _) => None
  | _ => if Nat.leb (String.length s) 3 then digits_val s 0 else None
  end.

Definition parse_octet (s : string) : option Z :=
  match parse_dec s with
  | Some v => if v <=? 255 then Some v else None
  | None => None
  end.

Definition parseIPv4 (s : string) : option (list Z) :=
  match Split s "." with
  | [a; b; c; d] =>
      match parse_octet a, parse_octet b, parse_octet c, parse_octet d with
      | Some a, Some b, Some c, Some d => Some [a; b; c; d]
      | _, _, _, _ => None
      end
  | _ => None
  end.

Definition ParseIP (s : string) : net.IP :=
  match parseIPv4 s with
  | Some ip4 => net.v4InV6Prefix ++ ip4
  | None => []
  end.

(** [net.CIDRMask(ones, 32)]. *)
Fixpoint CIDRMask (ones : Z) (bytes : nat) : list Z :=
  match bytes with
  | O => []
  | S k =>
      if 8 <=? ones then 255 :: CIDRMask (ones - 8) k
      else (255 - Z.shiftr 255 ones) :: CIDRMask 0 k
  end.

Definition ParseCIDR (s : string) : option net.IPNet :=
  match SplitN2 s "/" with
  | [addr; bits] =>
      match parseIPv4 addr, parse_dec bits with
      | Some ip4, Some n =>
          if n <=? 32 then
            let m := CIDRMask n 4 in
            Some (net.mkIPNet (zip_with Z.land ip4 m) m)
          else None
      | _, _ => None
      end
  | _ => None
  end.

(** The text before the last colon, when it has no colon itself. *)
Fixpoint before_last_colon (s : string) : option string :=
  match s with
  | EmptyString => None
  | String c s' =>
      match before_last_colon s' with
      | Some h => Some (String c h)
      | None => if Ascii.eqb c ":" then Some EmptyString else None
      end
  end.

Definition SplitHostPort_host (s : string) : string :=
  match before_last_colon s with
  | Some h => if ContainsChar h ":" then "" else h
  | None => ""
  end.

Definition IPv6_String (ip : net.IP) : string := "?" +:+ hex.hexString ip.

End net_v4.

#[local] Instance net_v4_pkg : NetPkg :=
  {| ParseIP := net_v4.ParseIP;
     ParseCIDR := net_v4.ParseCIDR;
     SplitHostPort_host := net_v4.SplitHostPort_host;
     IPv6_String := net_v4.IPv6_String |}.

(** ** Sample configurations *)

Module Sample.

Definition alnum (c : ascii) : bool :=
  let n := nat_of_ascii c in
  ((Nat.leb 48 n && Nat.leb n 57) || (Nat.leb 97 n && Nat.leb n 122)
   || (Nat.leb 65 n && Nat.leb n 90))%bool.

(** Identifiers are the alphanumeric strings of four characters. *)
Definition is_id4 (s : string) : bool :=
  (Nat.eqb (String.length s) 4 && all_chars alnum s)%bool.

Definition opts : Options :=
  mkOptions ["oob.example"] 60 [] "192.0.2.10" "" false false "" [] (-1)
            4 is_id4 id false.

Definition env : Env :=
  mkEnv (fun _ => None) (fun _ _ => false) (fun _ _ => false)
        (fun i => Some (UniqueID i +:+ "|" +:+ FullId i))
        (fun m => match dns.Questions m with
                  | q :: _ => ";" +:+ dns.QName q
                  | [] => ""
                  end)
        (fun _ => false) (fun _ => 0) (fun _ => 0) (fun _ => None)
        "hostmaster.oob.example.".

Definition world0 : World := mkWorld 0 0 [].

Definition writer : ResponseWriter := mkWriter "198.51.100.7:5353".

Definition query (name : string) (qtype : Z) : dns.Msg :=
  dns.mkMsg 7 false 0 false true false 0
            [dns.mkQuestion name qtype dns.ClassINET] [] [] [].

(** The server [NewDNSServer] builds from an option record. *)
Definition server_of (o : Options) : DNSServer :=
  match NewDNSServer env o world0 with
  | Done h _ => h
  | Panicked _ _ =>
      mkServer o empty empty [] [] 0 (mkCustom empty empty empty empty) ""
  end.

Definition server : DNSServer := server_of opts.

(** A recognizer that wants lower-case letters and digits, as one
    working on lower-cased text may. *)
Definition lower_alnum (c : ascii) : bool :=
  let n := nat_of_ascii c in
  ((Nat.leb 48 n && Nat.leb n 57) || (Nat.leb 97 n && Nat.leb n 122))%bool.

Definition is_lower_id4 (s : string) : bool :=
  (Nat.eqb (String.length s) 4 && all_chars lower_alnum s)%bool.

Definition opts_lower : Options :=
  mkOptions ["oob.example"] 60 [] "192.0.2.10" "" false false "" [] (-1)
            4 is_lower_id4 id false.

(** A message with two questions. *)
Definition query2 (name1 : string) (qtype1 : Z) (name2 : string)
    (qtype2 : Z) : dns.Msg :=
  dns.mkMsg 7 false 0 false true false 0
            [dns.mkQuestion name1 qtype1 dns.ClassINET;
             dns.mkQuestion name2 qtype2 dns.ClassINET] [] [] [].

(** The events a run from [world0] leaves. *)
Definition events_of {T} (c : M T) : list Event := events (final (c world0)).

(** A server behind a trusted resolver at the peer address. *)
Definition opts_origin (code : Z) (trusted : list string) : Options :=
  mkOptions ["oob.example"] 60 [] "192.0.2.10" "" false false "" trusted
            code 4 is_id4 id false.

(** A query that carries one EDNS0 LOCAL option. *)
Definition query_with_option (name : string) (code : Z) (data : list Z)
  : dns.Msg :=
  dns.mkMsg 7 false 0 false true false 0
            [dns.mkQuestion name dns.TypeA dns.ClassINET] [] []
            [dns.OPT (dns.mkHdr "." dns.TypeOPT 4096 0)
                     [dns.EDNS0_LOCAL code data]].

(** The v4 side of the configuration of the end-to-end scenarios:
    identifiers are the alphanumeric strings of twenty characters. *)
Definition is_id20 (s : string) : bool :=
  (Nat.eqb (String.length s) 20 && all_chars alnum s)%bool.

Definition opts20 : Options :=
  mkOptions ["oob.example"] 60 [] "192.0.2.10" "" false false ""
            [] (-1) 20 is_id20 id false.

(** Custom records with one entry in the v6 overlay and one static
    v6 record. *)
Definition custom_v6 : customDNSRecords :=
  mkCustom empty (insert "localhost" "::1" empty)
           empty (insert "six" "2001:db8::6" empty).

(** A configuration without an apex. *)
Definition opts_no_apex : Options :=
  mkOptions [] 60 [] "192.0.2.10" "" false false "" [] (-1) 4 is_id4 id false.

(** RootTLD mode with a result callback installed. *)
Definition opts_root : Options :=
  mkOptions ["oob.example"] 60 [] "192.0.2.10" "" true false "" [] (-1)
            4 is_id4 id true.

(** Collaborators whose ACME store has one record for the challenge
    name and whose custom-records file overrides a default. *)
Definition env_acme : Env :=
  mkEnv (fun zone =>
           if String.eqb zone "_acme-challenge.oob.example."
           then Some [acme.mkRecord "token123" 30] else None)
        (fun _ _ => false) (fun _ _ => false)
        (fun i => Some (UniqueID i +:+ "|" +:+ FullId i))
        (fun m => match dns.Questions m with
                  | q :: _ => ";" +:+ dns.QName q
                  | [] => ""
                  end)
        (fun _ => false) (fun _ => 0) (fun _ => 0)
        (fun path =>
           if String.eqb path "records.yaml"
           then Some (mkRecordConfig [("AWS", "10.9.9.9")] [])
           else None)
        "hostmaster.oob.example.".

(** Options with overlay strings and a custom-records file. *)
Definition opts_custom (file : string) : Options :=
  mkOptions ["oob.example"] 60 ["Foo=10.1.2.3"; "bad=nope"; "plain"]
            "192.0.2.10" "" false false file [] (-1) 4 is_id4 id false.

(** A peer whose address text has no port: the host part is empty. *)
Definition writer_no_port : ResponseWriter := mkWriter "garbage".

(** An apex list whose first entry is the empty string. *)
Definition opts_empty_apex : Options :=
  mkOptions [""; "oob.example"] 60 [] "192.0.2.10" "" false false "" [] (-1)
            4 is_id4 id false.

(** Scan-everywhere mode; identifiers are the strings of four
    lower-case hexadecimal digits. *)
Definition is_hex_id4 (s : string) : bool :=
  (Nat.eqb (String.length s) 4 && all_chars is_lower_hex s)%bool.

Definition opts_scan : Options :=
  mkOptions ["oob.example"] 60 [] "192.0.2.10" "" false true "" [] (-1)
            4 is_hex_id4 id false.

End Sample.

(** ** Notions of the specification *)

Section SpecNotions.
Import Strings.

(** A label holds a correlation identifier when one of its
    sub-tokens passes [isCorrelationID]. *)
Definition label_matches (o : Options) (part : string) : bool :=
  existsb (isCorrelationID o) (splitSubdomainParts part).

(** A window matches when its lower-cased text passes. *)
Definition window_matches (o : Options) (part : string) : bool :=
  isCorrelationID o (ToLower part).

(** Every window of every chunk of the request dump, in the order of
    iteration. *)
Definition all_windows (o : Options) (requestMsg : string) : list string :=
  concat (map (fun chunk => stringsutil.SlideWithLength chunk (GetIdLength o))
              (stringsutil.SplitAny requestMsg scan_delimiters)).
End SpecNotions.

(** ** Events added by a computation *)

(** [appends P c]: whatever the starting world and whether [c]
    returns or panics, it only adds events that satisfy [P]. *)
Definition appends {T} (P : Event -> Prop) (c : M T) : Prop :=
  forall w, exists tr,
    events (final (c w)) = events w ++ tr /\ Forall P tr.

Definition is_log (e : Event) : Prop :=
  match e with EvLog _ _ => True | _ => False end.

Definition not_AddInteraction (e : Event) : Prop :=
  match e with EvAddInteraction _ _ => False | _ => True end.

Definition not_WriteMsg (e : Event) : Prop :=
  match e with EvWriteMsg _ => False | _ => True end.

(** The pairs handed to [Storage.AddInteraction], in order. *)
Definition stored (tr : list Event) : list (string * string) :=
  omap (fun e => match e with
                 | EvAddInteraction key data => Some (key, data)
                 | _ => None
                 end) tr.

(** The responses written to the transport, in order. *)
Definition written (tr : list Event) : list dns.Msg :=
  omap (fun e => match e with EvWriteMsg m => Some m | _ => None end) tr.

Definition is_Printf (e : Event) : Prop :=
  match e with EvPrintf _ => True | _ => False end.

(** The sub-tokens of the query name that pass [isCorrelationID], in
    the order strict label mode scans them. *)
Definition strict_matches (o : Options) (domain : string) : list string :=
  List.filter (isCorrelationID o)
              (concat (map splitSubdomainParts (Strings.Split domain "."))).

(** The unique identifier the scan of a query ends with, as the
    specification of the two modes gives it: the last match. *)
Definition last_match (env : Env) (o : Options) (domain : string)
    (r : dns.Msg) : option string :=
  if ScanEverywhere o
  then Strings.ToLower
         <$> last (List.filter (window_matches o)
                               (all_windows o (Msg_String env r)))
  else last (strict_matches o domain).

(** [stores_at_most n c]: whatever the starting world, [c] hands at
    most [n] interactions to [Storage.AddInteraction]. *)
Definition stores_at_most {T} (n : nat) (c : M T) : Prop :=
  forall w, exists tr,
    events (final (c w)) = events w ++ tr /\ (length (stored tr) <= n)%nat.

(** The events of the RootTLD branch of [handleInteraction]. *)
Definition root_event (e : Event) : Prop :=
  match e with
  | EvLog _ _ | EvOnResult _ | EvAddInteractionWithId _ _ => True
  | _ => False
  end.

(** The events of its correlation branch: logs, and the storage of an
    interaction that carries the extracted identifier [uid]. *)
Definition correlation_event (env : Env) (o : Options) (uid : string)
    (e : Event) : Prop :=
  match e with
  | EvLog _ _ => True
  | EvAddInteraction key data =>
      exists i, jsonEncode env i = Some data /\ UniqueID i = uid
                /\ key = getCorrelationID o uid /\ uid <> ""
  | _ => False
  end.

(** The single TXT record [handleTXT] answers with. *)
Definition txt_answer (h : DNSServer) (zone : string) : dns.RR :=
  dns.TXT (dns.mkHdr zone dns.TypeTXT dns.ClassINET 0) [TxtRecord h].

(** A question the ACME branch of [ServeDNS] takes. *)
Definition is_acme_name (domain : string) : bool :=
  Strings.HasPrefix (Strings.ToLower domain) acme.DNSChallengeString.

(** ** The v4 resolver, in the words of the specification *)

(** The address a token of four bytes in lower-case hexadecimal
    stands for, in dotted-quad form. *)
Definition hex8_dotted (t : string) : option string :=
  match hex.DecodeString t with
  | Some [a; b; c; d] => Some (net.dotted_quad a b c d)
  | _ => None
  end.

(** What one sub-token contributes: the empty token the sentinel of
    the default address (the empty string), a token matching
    [^[a-f0-9]{8}$] its dotted quad, a key of the per-sub-token overlay
    (keys are stored lower-cased) the mapped address, any other token
    nothing. *)
Definition resolve (c : customDNSRecords) (t : string) : option string :=
  if String.eqb t "" then Some ""
  else if HEX_IP_REGEX_MatchString t then hex8_dotted t
  else subdomainRecords c !! Strings.ToLower t.

(** A sub-token: no hyphen, no underscore, no dot. *)
Definition is_token_char (c : ascii) : bool :=
  (negb (is_label_sep c) && negb (Ascii.eqb c "."))%bool.

Definition is_token (t : string) : Prop := all_chars is_token_char t = true.

(** ** The NS block, in the words of the specification *)

(** The entry of the NS-domain table for the first of the candidate
    names that has one. *)
Definition first_hit (h : DNSServer) (candidates : list string)
  : option (list string) :=
  head (omap (fun dotDomain => nsDomains h !! dotDomain) candidates).

(** One NS record per name, for the authority section. *)
Definition ns_records (h : DNSServer) (zone : string) (names : list string)
  : list dns.RR :=
  map (dns.NS (dns.mkHdr zone dns.TypeNS dns.ClassINET (timeToLive h))) names.

(** One glue A record per name, with the default v4 address, for the
    additional section. *)
Definition glue_records (h : DNSServer) (names : list string) : list dns.RR :=
  map (fun nsDomain =>
         dns.A (dns.mkHdr nsDomain dns.TypeA dns.ClassINET (timeToLive h))
               (ipAddress h))
      names.

(** ** The origin IP resolver, in the words of the specification *)

Section OriginNotions.
Context `{NetPkg}.

(** The peer matches an entry of the trusted-source list: a CIDR
    block that contains it, or a single address equal to it. *)
Definition entry_matches (test : string) (checkIP : net.IP) : Prop :=
  if Strings.ContainsChar test "/"
  then exists cidr, ParseCIDR test = Some cidr
                    /\ net.Contains cidr checkIP = true
  else net.Equal (ParseIP test) checkIP = true.

Definition trusted_source (tests : list string) (host : string) : Prop :=
  exists test, test ∈ tests /\ entry_matches test (ParseIP host).

(** Every entry written as a CIDR block parses. *)
Definition cidrs_parse (tests : list string) : Prop :=
  Forall (fun test => Strings.ContainsChar test "/" = true ->
                      is_Some (ParseCIDR test)) tests.

(** What the data of the matched option stands for: its text as an
    address, or the transport host when that text is no address. *)
Definition origin_of (host : string) (data : list Z) : string :=
  if is_nil (ParseIP (netfmt.IP_String data)) then host
  else netfmt.IP_String data.
End OriginNotions.

(** The code and data of an EDNS0 LOCAL option. *)
Definition local_of (opt : dns.EDNS0) : option (Z * list Z) :=
  match opt with
  | dns.EDNS0_LOCAL code data => Some (code, data)
  | _ => None
  end.

(** The EDNS0 LOCAL options of the OPT records of a section, in
    order, as pairs of code and data. *)
Definition local_options (extra : list dns.RR) : list (Z * list Z) :=
  concat (map (fun rr =>
                 match rr with
                 | dns.OPT _ opts => omap local_of opts
                 | _ => []
                 end) extra).

(** Some LOCAL option of an OPT record has the code. *)
Definition has_local_option (code : Z) (extra : list dns.RR) : Prop :=
  exists data, (code, data) ∈ local_options extra.

(** The data of the matched option: the first one with the code. *)
Definition matched_option (code : Z) (extra : list dns.RR)
  : option (list Z) :=
  snd <$> head (List.filter (fun cd => fst cd =? code) (local_options extra)).

(** ** Further notions *)

(** The number of hyphens and underscores of a label. *)
Fixpoint count_seps (s : string) : nat :=
  match s with
  | EmptyString => 0
  | String c s' => (if is_label_sep c then 1 else 0) + count_seps s'
  end.

(** What one sub-token contributes to the v6 resolver: the sentinel
    for the empty token, the mapped address for a key of the v6
    overlay, nothing otherwise. *)
Definition resolve6 (c : customDNSRecords) (t : string) : option string :=
  if String.eqb t "" then Some ""
  else subdomainV6Records c !! Strings.ToLower t.

(** The value a loop [for k, v := range src { dst[f(k)] = v }] leaves
    under a key: that of the last pair whose key maps to it. *)
Definition assoc_last (f : string -> string) (src : list (string * string))
    (k : string) : option string :=
  snd <$> last (List.filter (fun kv => String.eqb (f (fst kv)) k) src).

Section ConstructionNotions.
Context `{NetPkg}.

(** What a [name=ip] string gives to the overlay of one family under
    a key: the address, when the string has the form, the address
    parses, is of the family and the lower-cased name is the key. *)
Definition overlay_entry (v4 : bool) (k : string) (m : string)
  : option string :=
  match Strings.SplitN2 m "=" with
  | [name; addr] =>
      if (negb (is_nil (ParseIP addr))
          && Bool.eqb (negb (is_nil (net.To4 (ParseIP addr)))) v4
          && String.eqb (Strings.ToLower name) k)%bool
      then Some addr
      else None
  | _ => None
  end.

(** The last such string decides. *)
Definition overlay_lookup (v4 : bool) (l : list string) (k : string)
  : option string :=
  last (omap (overlay_entry v4 k) l).
End ConstructionNotions.

(** The static v4 record under a key, as the defaults and the decoded
    custom-records file give it. *)
Definition static_v4 (file : option customRecordConfig) (k : string)
  : option string :=
  match file ≫= (fun data => assoc_last Strings.ToLower (cfg_IPv4 data) k) with
  | Some v => Some v
  | None => assoc_last id defaultCustomRecords k
  end.

Definition static_v6 (file : option customRecordConfig) (k : string)
  : option string :=
  match file ≫= (fun data => assoc_last Strings.ToLower (cfg_IPv6 data) k) with
  | Some v => Some v
  | None => assoc_last id defaultCustomV6Records k
  end.

(** The apex a zone name is answered for: itself when it is the FQDN
    of a configured apex, the primary apex otherwise. *)
Definition answering_apex (domains : list string) (zone d0 : string) : string :=
  if bool_decide (zone ∈ map dnsname.Fqdn domains) then zone
  else dnsname.Fqdn d0.

(** ** Notions for the handler *)

(** The reply [ServeDNS] starts from. *)
Definition reply0 (r : dns.Msg) : dns.Msg :=
  dns.set_Authoritative true (dns.SetReply dns.new_Msg r).

(** Two replies with the same header and question section. *)
Definition same_header (m m' : dns.Msg) : Prop :=
  dns.Id m' = dns.Id m /\ dns.Response m' = dns.Response m
  /\ dns.Opcode m' = dns.Opcode m
  /\ dns.Authoritative m' = dns.Authoritative m
  /\ dns.RecursionDesired m' = dns.RecursionDesired m
  /\ dns.CheckingDisabled m' = dns.CheckingDisabled m
  /\ dns.Rcode m' = dns.Rcode m /\ dns.Questions m' = dns.Questions m.

(** [keeps_stats c]: the computation leaves the DNS counter alone. *)
Definition keeps_stats {T} (c : M T) : Prop :=
  forall w, Stats_Dns (final (c w)) = Stats_Dns w.

(** [returns_with c Q]: whenever [c] returns, its value satisfies [Q]. *)
Definition returns_with {T} (c : M T) (Q : T -> Prop) : Prop :=
  forall w x w', c w = Done x w' -> Q x.

(** The events that record an interaction. *)
Definition no_interaction (e : Event) : Prop :=
  match e with
  | EvAddInteraction _ _ | EvAddInteractionWithId _ _ | EvOnResult _ => False
  | _ => True
  end.

Definition not_OnResult (e : Event) : Prop :=
  match e with EvOnResult _ => False | _ => True end.

Definition not_AddInteractionWithId (e : Event) : Prop :=
  match e with EvAddInteractionWithId _ _ => False | _ => True end.

(** The events of the correlation branch alone. *)
Definition log_or_AddInteraction (e : Event) : Prop :=
  match e with
  | EvLog _ _ | EvAddInteraction _ _ => True
  | _ => False
  end.

(** The query types the non-ACME branch of [ServeDNS] answers, and
    those the ACME branch answers. *)
Definition answered_type (qtype : Z) : bool :=
  (qtype =? dns.TypeA) || (qtype =? dns.TypeCNAME) || (qtype =? dns.TypeANY)
  || (qtype =? dns.TypeAAAA) || (qtype =? dns.TypeMX) || (qtype =? dns.TypeNS)
  || (qtype =? dns.TypeSOA) || (qtype =? dns.TypeTXT).

Definition acme_answered_type (qtype : Z) : bool :=
  (qtype =? dns.TypeSOA) || (qtype =? dns.TypeTXT) || (qtype =? dns.TypeNS)
  || (qtype =? dns.TypeA) || (qtype =? dns.TypeAAAA).

(** The ACME record store fails for the question: a TXT question
    under the [_acme-challenge.] prefix whose records the store does
    not give. *)
Definition store_fails_for (env : Env) (q : dns.Question) : Prop :=
  dns.Qtype q = dns.TypeTXT
  /\ is_acme_name (dns.QName q) = true
  /\ ACMEStore_GetRecords env (Strings.ToLower (dns.QName q)) = None.

(** ** The trusted-source list, in the words of the specification *)

Section OriginListed.
Context `{NetPkg}.

(** An entry of the trusted-source list names an address: it is a
    CIDR block that contains the address, or it is a single IP
    address, the same as the address. *)
Definition listed_entry (test : string) (ip : net.IP) : Prop :=
  if Strings.ContainsChar test "/"
  then exists cidr, ParseCIDR test = Some cidr
                    /\ net.Contains cidr ip = true
  else ParseIP test <> [] /\ net.Equal (ParseIP test) ip = true.

(** The transport peer is on the list: its host is an IP address and
    an entry of the list names that address. *)
Definition peer_listed (tests : list string) (host : string) : Prop :=
  ParseIP host <> []
  /\ exists test, test ∈ tests /\ listed_entry test (ParseIP host).
End OriginListed.

(** ** The correlation extractor, in the words of the specification *)

(** [d] is the apex found for a query name: the first configured
    apex whose FQDN ends the name, by the case-insensitive suffix
    test. *)
Definition first_apex (domains : list string) (domain d : string) : Prop :=
  exists pre post,
    domains = pre ++ d :: post
    /\ Forall (fun c => stringsutil.HasSuffixI domain (dnsname.Fqdn c) = false)
              pre
    /\ stringsutil.HasSuffixI domain (dnsname.Fqdn d) = true.

(** The delimiter set of scan-everywhere mode: the dot (46), the line
    feed (10), the tab (9), the double quote (34) and the single
    quote (39). *)
Definition is_scan_delimiter (c : ascii) : bool :=
  let n := nat_of_ascii c in
  (Nat.eqb n 46 || Nat.eqb n 10 || Nat.eqb n 9 || Nat.eqb n 34
   || Nat.eqb n 39)%bool.

(** The chunks of the request dump: the text is cut at every
    delimiter, and the pieces that are not empty are the chunks, in
    order. *)
Definition dump_chunks (requestMsg : string) : list string :=
  List.filter (fun chunk => negb (String.eqb chunk ""))
              (Strings.cut is_scan_delimiter requestMsg).

(** The sliding windows of a chunk: every substring of exactly [l]
    characters, by increasing offset. *)
Definition sliding_windows (l : nat) (chunk : string) : list string :=
  map (fun i => String.substring i l chunk)
      (seq 0 (String.length chunk + 1 - l)).

(** What is tried of one chunk: its windows of [L_id] characters; a
    chunk shorter than [L_id] is tried whole. *)
Definition chunk_candidates (L_id : Z) (chunk : string) : list string :=
  if Z.of_nat (String.length chunk) <? L_id then [chunk]
  else sliding_windows (Z.to_nat L_id) chunk.

(** The order of iteration of scan-everywhere mode: chunk after
    chunk, and within a chunk window after window. *)
Definition scan_candidates (L_id : Z) (requestMsg : string) : list string :=
  concat (map (chunk_candidates L_id) (dump_chunks requestMsg)).

(** The windows of exactly [L_id] characters alone, in the same order. *)
Definition scan_windows_of_length (L_id : Z) (requestMsg : string)
  : list string :=
  concat (map (sliding_windows (Z.to_nat L_id)) (dump_chunks requestMsg)).

(** The result of a scan that keeps the last match among the
    candidates: the lower-cased window and the window as written. *)
Definition last_window (o : Options) (candidates : list string)
  : string * string :=
  match last (List.filter (window_matches o) candidates) with
  | Some part => (Strings.ToLower part, part)
  | None => ("", "")
  end.

(** The recognizer is a test over strings of [L_id] characters: it
    accepts no string of another length. *)
Definition accepts_only_L_id (o : Options) : Prop :=
  forall s, isCorrelationID o s = true ->
            Z.of_nat (String.length s) = GetIdLength o.

(** * Properties *)

(** ** The examples of the specification *)

Example split_empty_run : splitSubdomainParts "a--b" = ["a"; ""; "b"].
Proof. reflexivity. Qed.

Example split_leading_separator : splitSubdomainParts "-x" = [""; "x"].
Proof. reflexivity. Qed.

Example split_single_token : splitSubdomainParts "abc" = ["abc"].
Proof. reflexivity. Qed.

Example split_underscore : splitSubdomainParts "a_b-c" = ["a"; "b"; "c"].
Proof. reflexivity. Qed.

Example fqdn_adds_the_dot : dnsname.Fqdn "oob.example" = "oob.example.".
Proof. reflexivity. Qed.

Example fqdn_escaped_dot : dnsname.Fqdn "oob.example\." = "oob.example\..".
Proof. reflexivity. Qed.

Example slide_short_chunk : stringsutil.SlideWithLength "abc" 5 = ["abc"].
Proof. reflexivity. Qed.

Example slide_windows :
  stringsutil.SlideWithLength "abcd" 2 = ["ab"; "bc"; "cd"].
Proof. reflexivity. Qed.

(** Scenario 1: the identifier of the leftmost label is stored. *)
Example scenario_identifier_label :
  stored (Sample.events_of
            (ServeDNS Sample.env (Sample.server_of Sample.opts20) Sample.writer
               (Sample.query "c4ca4238a0b923820dcc.oob.example." dns.TypeA)))
  = [("c4ca4238a0b923820dcc", "c4ca4238a0b923820dcc|c4ca4238a0b923820dcc")].
Proof. vm_compute. reflexivity. Qed.

(** Scenario 2: a static record, and no interaction. *)
Example scenario_static_record :
  checkCustomResponse Sample.env (customRecords (Sample.server_of Sample.opts20))
    "aws.oob.example." Sample.world0
  = Done "169.254.169.254" Sample.world0
  /\ stored (Sample.events_of
               (ServeDNS Sample.env (Sample.server_of Sample.opts20)
                  Sample.writer (Sample.query "aws.oob.example." dns.TypeA)))
     = [].
Proof. split; vm_compute; reflexivity. Qed.

(** Scenario 3: two hexadecimal tokens, one of them is drawn. *)
Example scenario_hex_tokens :
  map (resolve (customRecords Sample.server)) ["deadbeef"; "cafebabe"]
  = [Some "222.173.190.239"; Some "202.254.186.190"].
Proof. vm_compute. reflexivity. Qed.

(** Scenario 5: the full identifier is the label path down to the
    identifier. *)
Example scenario_full_id :
  extract_correlation Sample.opts20 "oob.example"
    "foo.bar.c4ca4238a0b923820dcc.oob.example." ""
  = ("c4ca4238a0b923820dcc", "foo.bar.c4ca4238a0b923820dcc").
Proof. vm_compute. reflexivity. Qed.

(** Scenario 6: a name outside every apex gets the default address,
    the NS block of the primary apex, and no interaction. *)
Example scenario_alien_name :
  map (fun reply => (dns.Answer reply, dns.Ns reply))
      (written (Sample.events_of
                  (ServeDNS Sample.env (Sample.server_of Sample.opts20)
                     Sample.writer (Sample.query "alien.example." dns.TypeA))))
  = [([dns.A (dns.mkHdr "alien.example." dns.TypeA dns.ClassINET 60)
             (net.v4InV6Prefix ++ [192; 0; 2; 10])],
      ns_records (Sample.server_of Sample.opts20) "alien.example."
                 ["ns1.oob.example."; "ns2.oob.example."])]
  /\ stored (Sample.events_of
               (ServeDNS Sample.env (Sample.server_of Sample.opts20)
                  Sample.writer (Sample.query "alien.example." dns.TypeA)))
     = [].
Proof. split; vm_compute; reflexivity. Qed.

(** ** Loops that overwrite *)

Section Overwrite.
Context {X Y : Type}.

(** A loop that overwrites its accumulator at every element passing
    the test ends with the value of the last such element. *)
Lemma foldl_overwrite (p : X -> bool) (f : X -> Y) (l : list X) (a : Y) :
  foldl (fun acc x => if p x then f x else acc) a l
  = match last (List.filter p l) with
    | Some x => f x
    | None => a
    end.
Proof.
  revert a. induction l as [|x l IH] using rev_ind; intros a; [done|].
  rewrite foldl_snoc, List.filter_app. simpl.
  destruct (p x).
  - by rewrite last_snoc.
  - rewrite app_nil_r. apply IH.
Qed.

Lemma filter_nil_existsb (p : X -> bool) (l : list X) :
  existsb p l = false -> List.filter p l = [].
Proof.
  induction l as [|x l IH]; simpl; [done|].
  destruct (p x); simpl; [done|]. exact IH.
Qed.

Lemma filter_last_existsb (p : X -> bool) (l : list X) :
  existsb p l = true -> exists x, last (List.filter p l) = Some x.
Proof.
  intros He. destruct (last (List.filter p l)) as [x|] eqn:Hl; [by exists x|].
  apply last_None in Hl.
  assert (existsb p l = false) as Hf; [|congruence].
  clear He. induction l as [|y l IH]; simpl in *; [done|].
  destruct (p y); simpl in *; [done|]. by apply IH.
Qed.

Lemma foldl_concat {Z' : Type} (g : Y -> X -> Y) (f : Z' -> list X)
    (cs : list Z') (a : Y) :
  foldl (fun acc c => foldl g acc (f c)) a cs
  = foldl g a (concat (map f cs)).
Proof.
  revert a. induction cs as [|c cs IH]; intros a; simpl; [done|].
  by rewrite foldl_app, IH.
Qed.
End Overwrite.

Section Extractor.
Import Strings.

Lemma scan_subParts_nomatch o parts i part ids :
  label_matches o part = false ->
  scan_subParts o parts i part (splitSubdomainParts part) ids = ids.
Proof.
  intros Hn. unfold scan_subParts.
  rewrite (foldl_overwrite (isCorrelationID o)
             (fun sub => (sub, if Nat.leb (i + 1) (length parts)
                               then Join (take (i + 1) parts) "." else part))).
  by rewrite (filter_nil_existsb _ _ Hn).
Qed.

Lemma scan_subParts_match o parts i part ids :
  label_matches o part = true ->
  (i < length parts)%nat ->
  exists sub,
    last (List.filter (isCorrelationID o) (splitSubdomainParts part)) = Some sub
    /\ scan_subParts o parts i part (splitSubdomainParts part) ids
       = (sub, Join (take (i + 1) parts) ".").
Proof.
  intros Hm Hi. destruct (filter_last_existsb _ _ Hm) as [sub Hs].
  exists sub. split; [done|]. unfold scan_subParts.
  rewrite (foldl_overwrite (isCorrelationID o)
             (fun sub => (sub, if Nat.leb (i + 1) (length parts)
                               then Join (take (i + 1) parts) "." else part))).
  rewrite Hs. destruct (Nat.leb_spec (i + 1) (length parts)); [done|lia].
Qed.

Lemma scan_labels_nomatch o parts todo : forall i ids,
  (forall j part, todo !! j = Some part -> label_matches o part = false) ->
  scan_labels o parts i todo ids = ids.
Proof.
  induction todo as [|p todo IH]; intros i ids Hno; simpl; [done|].
  rewrite (scan_subParts_nomatch _ _ _ _ _ (Hno 0%nat p eq_refl)).
  apply IH. intros j part Hj. exact (Hno (S j) part Hj).
Qed.

(** The scan of the labels [todo], which sit at the indices from [i]
    on, ends with the match of the deepest matching label. *)
Lemma scan_labels_deepest o parts todo : forall i ids k part,
  todo !! k = Some part ->
  label_matches o part = true ->
  (i + k < length parts)%nat ->
  (forall j part', (k < j)%nat -> todo !! j = Some part' ->
                   label_matches o part' = false) ->
  exists sub,
    last (List.filter (isCorrelationID o) (splitSubdomainParts part)) = Some sub
    /\ scan_labels o parts i todo ids = (sub, Join (take (i + k + 1) parts) ".").
Proof.
  induction todo as [|p todo IH]; intros i ids k part Hk Hm Hlen Hdeep;
    [done|].
  destruct k as [|k]; simpl in *.
  - injection Hk as ->.
    destruct (scan_subParts_match o parts i part ids Hm) as [sub [Hs He]];
      [lia|].
    exists sub. split; [done|].
    rewrite scan_labels_nomatch.
    + rewrite He. by replace (i + 0 + 1)%nat with (i + 1)%nat by lia.
    + intros j part' Hj. apply (Hdeep (S j) part'); [lia|done].
  - destruct (IH (S i) (scan_subParts o parts i p (splitSubdomainParts p) ids)
                 k part Hk Hm) as [sub [Hs He]].
    + lia.
    + intros j part' Hj Hl. apply (Hdeep (S j) part'); [lia|done].
    + exists sub. split; [done|]. rewrite He.
      by replace (S i + k + 1)%nat with (i + S k + 1)%nat by lia.
Qed.

Lemma scan_chunks_last o chunks ids :
  scan_chunks o chunks ids
  = match last (List.filter (window_matches o)
                  (concat (map (fun chunk =>
                     stringsutil.SlideWithLength chunk (GetIdLength o)) chunks))) with
    | Some part => (ToLower part, part)
    | None => ids
    end.
Proof.
  unfold scan_chunks, scan_windows.
  rewrite (foldl_concat
             (fun ids part => if isCorrelationID o (ToLower part)
                              then (ToLower part, part) else ids)
             (fun chunk => stringsutil.SlideWithLength chunk (GetIdLength o))).
  apply (foldl_overwrite (window_matches o) (fun part => (ToLower part, part))).
Qed.

End Extractor.

(** ** What a computation adds to the events *)

Section Traces.
Context `{NetPkg} (env : Env).

Lemma appends_ret {T} P (x : T) : appends P (ret x).
Proof. intros w. exists []. by rewrite app_nil_r. Qed.

Lemma appends_panic {T} P why : appends P (@panic T why).
Proof. intros w. exists []. by rewrite app_nil_r. Qed.

Lemma appends_emit (P : Event -> Prop) e : P e -> appends P (emit e).
Proof. intros He w. exists [e]. split; [done|]. by constructor. Qed.

Lemma appends_bind {T U} P (c : M T) (k : T -> M U) :
  appends P c -> (forall x, appends P (k x)) -> appends P (bind c k).
Proof.
  intros Hc Hk w. unfold bind. destruct (Hc w) as [t1 [E1 F1]].
  destruct (c w) as [x w1|why w1]; simpl in E1.
  - destruct (Hk x w1) as [t2 [E2 F2]]. exists (t1 ++ t2).
    rewrite E2, E1, app_assoc. split; [done|]. by apply Forall_app.
  - exists t1. by split.
Qed.

Lemma appends_weaken {T} (P Q : Event -> Prop) (c : M T) :
  (forall e, P e -> Q e) -> appends P c -> appends Q c.
Proof.
  intros HPQ Hc w. destruct (Hc w) as [tr [E F]]. exists tr.
  split; [done|]. eapply Forall_impl; eauto.
Qed.

Lemma appends_rand_Intn P n : appends P (rand_Intn env n).
Proof.
  intros w. exists []. unfold rand_Intn.
  destruct (n <=? 0); simpl; by rewrite app_nil_r.
Qed.

Lemma appends_atomic_Add P : appends P atomic_AddUint64_Dns.
Proof. intros w. exists []. simpl. by rewrite app_nil_r. Qed.

Lemma appends_time_Now P : appends P (time_Now_ env).
Proof. intros w. exists []. simpl. by rewrite app_nil_r. Qed.
End Traces.

Create HintDb appends.

#[local] Hint Resolve appends_ret appends_panic appends_rand_Intn
  appends_atomic_Add appends_time_Now : appends.

(** One step of a proof of [appends]: split a bind, or take a branch
    of the code apart. *)
Ltac appends_step :=
  match goal with
  | |- appends _ (bind _ _) => apply appends_bind; [|intros ?]
  | |- appends _ (if ?b then _ else _) => destruct b eqn:?
  | |- appends _ (match ?x with _ => _ end) => destruct x eqn:?
  | |- appends _ (let _ := _ in _) => cbv zeta
  | |- appends _ (emit _) => apply appends_emit
  | |- appends _ _ => solve [eauto with appends]
  end.

Ltac appends_auto := repeat appends_step.

Section TracesOfServer.
Context `{NetPkg} (env : Env).

Lemma appends_checkCustomResponse P c zone :
  appends P (checkCustomResponse env c zone).
Proof. unfold checkCustomResponse, random_choice. appends_auto. Qed.

Lemma appends_checkCustomAAAAResponse P c zone :
  appends P (checkCustomAAAAResponse env c zone).
Proof. unfold checkCustomAAAAResponse, random_choice. appends_auto. Qed.

Lemma appends_dotDomains_of P h zone : appends P (dotDomains_of h zone).
Proof. unfold dotDomains_of. appends_auto. Qed.
End TracesOfServer.

Section TracesOfHandlers.
Context `{NetPkg} (env : Env).

Lemma appends_handleACNAMEANY P h zone m :
  appends P (handleACNAMEANY env h zone m).
Proof.
  unfold handleACNAMEANY, resultFunction.
  pose proof (appends_checkCustomResponse env P).
  pose proof (appends_dotDomains_of P).
  appends_auto.
Qed.

Lemma appends_handleAAAACNAMEANY P h zone m :
  appends P (handleAAAACNAMEANY env h zone m).
Proof.
  unfold handleAAAACNAMEANY, resultFunctionAAAA.
  pose proof (appends_checkCustomAAAAResponse env P).
  pose proof (appends_dotDomains_of P).
  appends_auto.
Qed.

Lemma appends_handleMX P h zone m : appends P (handleMX h zone m).
Proof. unfold handleMX. pose proof (appends_dotDomains_of P). appends_auto. Qed.

Lemma appends_handleNS P h zone m : appends P (handleNS h zone m).
Proof. unfold handleNS. pose proof (appends_dotDomains_of P). appends_auto. Qed.

Lemma appends_handleSOA P h zone m : appends P (handleSOA env h zone m).
Proof. unfold handleSOA. pose proof (appends_dotDomains_of P). appends_auto. Qed.

Lemma appends_serve_question h question m flag :
  appends is_Printf (serve_question env h question m flag).
Proof.
  unfold serve_question.
  pose proof (appends_handleACNAMEANY is_Printf).
  pose proof (appends_handleAAAACNAMEANY is_Printf).
  pose proof (appends_handleMX is_Printf).
  pose proof (appends_handleNS is_Printf).
  pose proof (appends_handleSOA is_Printf).
  appends_auto. exact I.
Qed.

Lemma appends_serve_questions h questions : forall m flag,
  appends is_Printf (serve_questions env h questions m flag).
Proof.
  induction questions as [|q qs IH]; intros m flag; simpl.
  - apply appends_ret.
  - apply appends_bind; [apply appends_serve_question|].
    intros [[m' flag']|]; [apply IH|apply appends_ret].
Qed.

Lemma appends_trusted_loop tests checkIP :
  appends is_log (trusted_loop tests checkIP).
Proof.
  induction tests as [|test tests IH]; simpl; appends_auto; exact I.
Qed.

Lemma appends_scan_options h host opts :
  appends is_log (scan_options h host opts).
Proof.
  induction opts as [|opt opts IH]; simpl; appends_auto; exact I.
Qed.

Lemma appends_scan_extra h host extra :
  appends is_log (scan_extra h host extra).
Proof.
  pose proof (appends_scan_options h host).
  induction extra as [|rr extra IH]; simpl; appends_auto.
Qed.

Lemma appends_getMsgHost h w r : appends is_log (getMsgHost h w r).
Proof.
  unfold getMsgHost.
  pose proof (appends_trusted_loop).
  pose proof (appends_scan_extra).
  appends_auto.
Qed.

Lemma appends_first_Qtype P r : appends P (first_Qtype r).
Proof. unfold first_Qtype. appends_auto. Qed.
End TracesOfHandlers.

Section Dispatcher.
Context `{NetPkg} (env : Env).
Import Strings.

Lemma stored_app t1 t2 : stored (t1 ++ t2) = stored t1 ++ stored t2.
Proof. apply omap_app. Qed.

Lemma stored_quiet tr : Forall not_AddInteraction tr -> stored tr = [].
Proof.
  induction 1 as [|e tr He _ IH]; [done|].
  destruct e; simpl in *; try done.
Qed.

Lemma stores_quiet {T} (c : M T) n :
  appends not_AddInteraction c -> stores_at_most n c.
Proof.
  intros Hc w. destruct (Hc w) as [tr [E F]]. exists tr. split; [done|].
  rewrite (stored_quiet _ F). simpl. lia.
Qed.

Lemma stores_bind_l {T U} n (c : M T) (k : T -> M U) :
  appends not_AddInteraction c ->
  (forall x, stores_at_most n (k x)) ->
  stores_at_most n (bind c k).
Proof.
  intros Hc Hk w. unfold bind. destruct (Hc w) as [t1 [E1 F1]].
  destruct (c w) as [x w1|why w1]; simpl in E1.
  - destruct (Hk x w1) as [t2 [E2 L2]]. exists (t1 ++ t2).
    rewrite E2, E1, app_assoc. split; [done|].
    by rewrite stored_app, (stored_quiet _ F1).
  - exists t1. split; [done|]. rewrite (stored_quiet _ F1). simpl. lia.
Qed.

Lemma stores_bind_r {T U} n (c : M T) (k : T -> M U) :
  stores_at_most n c ->
  (forall x, appends not_AddInteraction (k x)) ->
  stores_at_most n (bind c k).
Proof.
  intros Hc Hk w. unfold bind. destruct (Hc w) as [t1 [E1 L1]].
  destruct (c w) as [x w1|why w1]; simpl in E1.
  - destruct (Hk x w1) as [t2 [E2 F2]]. exists (t1 ++ t2).
    rewrite E2, E1, app_assoc. split; [done|].
    rewrite stored_app, (stored_quiet _ F2), app_nil_r. done.
  - exists t1. by split.
Qed.

Lemma stores_emit e : stores_at_most 1 (emit e).
Proof.
  intros w. exists [e]. split; [done|]. destruct e; simpl; lia.
Qed.

Lemma log_not_AddInteraction e : is_log e -> not_AddInteraction e.
Proof. by destruct e. Qed.

Lemma root_not_AddInteraction e : root_event e -> not_AddInteraction e.
Proof. by destruct e. Qed.

Lemma Printf_not_AddInteraction e : is_Printf e -> not_AddInteraction e.
Proof. by destruct e. Qed.

(** The RootTLD branch and the correlation branch, event by event. *)
Lemma appends_handleInteraction h domain w r m :
  let o := options h in
  let uid := fst (extract_correlation o (find_domain (Domains o) domain)
                                      domain (Msg_String env r)) in
  appends (fun e => root_event e \/ correlation_event env o uid e)
          (handleInteraction env h domain w r m).
Proof.
  intros o uid. unfold handleInteraction.
  pose proof (fun h w r =>
    appends_weaken (T:=string) is_log
      (fun e => root_event e \/ correlation_event env o uid e)
      (getMsgHost h w r)
      (fun e He => or_introl (match e return is_log e -> root_event e with
                              | EvLog _ _ => fun _ => I
                              | _ => fun F => match F with end
                              end He))
      (appends_getMsgHost h w r)) as Hhost.
  pose proof (appends_first_Qtype
                (fun e => root_event e \/ correlation_event env o uid e)).
  fold o. fold uid.
  appends_auto; try (left; exact I).
  right. simpl. eexists. split; [eassumption|]. simpl.
  repeat split.
  match goal with Hn : negb (String.eqb uid "") = true |- _ =>
    apply negb_true_iff, String.eqb_neq in Hn; exact Hn end.
Qed.
End Dispatcher.

Section AtMostOnce.
Context `{NetPkg} (env : Env).
Import Strings.

Lemma stores_handleInteraction h domain w r m :
  stores_at_most 1 (handleInteraction env h domain w r m).
Proof.
  unfold handleInteraction.
  pose proof (fun h w r =>
    appends_weaken (T:=string) _ _ (getMsgHost h w r)
      log_not_AddInteraction (appends_getMsgHost h w r)) as Hhost.
  pose proof (appends_first_Qtype not_AddInteraction).
  apply stores_bind_l; [appends_auto; exact I|]. intros _.
  cbv zeta.
  destruct (negb _); [|apply stores_quiet, appends_ret].
  apply stores_bind_l; [apply Hhost|]. intros host.
  apply stores_bind_l; [appends_auto|]. intros qt.
  apply stores_bind_l; [appends_auto|]. intros now.
  destruct (jsonEncode env _) as [buffer|];
    [|apply stores_quiet; appends_auto; exact I].
  apply stores_bind_r; [apply stores_emit|].
  intros _. appends_auto. exact I.
Qed.

Lemma stores_ServeDNS h w r : stores_at_most 1 (ServeDNS env h w r).
Proof.
  unfold ServeDNS.
  apply stores_bind_l; [appends_auto|]. intros _. cbv zeta.
  destruct (dns.Questions r) as [|q0 qs] eqn:Hq;
    [apply stores_quiet, appends_ret|].
  apply stores_bind_l.
  { eapply appends_weaken; [apply Printf_not_AddInteraction|].
    apply appends_serve_questions. }
  intros [[m flag]|]; [|apply stores_quiet, appends_ret].
  apply stores_bind_r.
  - destruct (negb flag); [apply stores_handleInteraction|].
    apply stores_quiet, appends_ret.
  - intros _. appends_auto; exact I.
Qed.

(** The events of a whole message. *)
Lemma appends_ServeDNS h w r :
  let o := options h in
  appends (fun e =>
             match e with
             | EvAddInteraction _ _ =>
                 exists q0, head (dns.Questions r) = Some q0 /\
                   correlation_event env o
                     (fst (extract_correlation o
                             (find_domain (Domains o) (dns.QName q0))
                             (dns.QName q0) (Msg_String env r))) e
             | _ => True
             end)
          (ServeDNS env h w r).
Proof.
  intros o. unfold ServeDNS.
  apply appends_bind; [appends_auto|]. intros _. cbv zeta.
  destruct (dns.Questions r) as [|q0 qs] eqn:Hq; [apply appends_ret|].
  apply appends_bind.
  { eapply appends_weaken; [|apply appends_serve_questions].
    by intros []. }
  intros [[m flag]|]; [|apply appends_ret].
  apply appends_bind.
  - destruct (negb flag); [|apply appends_ret].
    eapply appends_weaken; [|apply appends_handleInteraction].
    intros e [He|He]; [by destruct e|].
    destruct e; try done. exists q0. by split.
  - intros _. appends_auto; exact I.
Qed.

Lemma fst_scan_subParts o parts i part subParts ids :
  fst (scan_subParts o parts i part subParts ids)
  = match last (List.filter (isCorrelationID o) subParts) with
    | Some sub => sub
    | None => fst ids
    end.
Proof.
  unfold scan_subParts.
  rewrite (foldl_overwrite (isCorrelationID o)
             (fun sub => (sub, if Nat.leb (i + 1) (length parts)
                               then Join (take (i + 1) parts) "." else part))).
  by destruct (last _).
Qed.

Lemma fst_scan_labels o parts todo : forall i ids,
  fst (scan_labels o parts i todo ids)
  = match last (List.filter (isCorrelationID o)
                  (concat (map splitSubdomainParts todo))) with
    | Some sub => sub
    | None => fst ids
    end.
Proof.
  induction todo as [|part todo IH]; intros i ids; simpl; [done|].
  rewrite IH, fst_scan_subParts, List.filter_app, last_app.
  by destruct (last (List.filter _ (concat _))).
Qed.

(** A non-empty identifier left by the scan is the last match. *)
Lemma extract_is_last_match o found domain r :
  let uid := fst (extract_correlation o found domain (Msg_String env r)) in
  uid <> "" -> last_match env o domain r = Some uid.
Proof.
  unfold extract_correlation, last_match, strict_matches.
  destruct (negb (String.eqb found "")); simpl; [|done].
  destruct (ScanEverywhere o).
  - rewrite scan_chunks_last. fold (all_windows o (Msg_String env r)).
    by destruct (last _).
  - rewrite fst_scan_labels. by destruct (last _).
Qed.
End AtMostOnce.

(** C3 (amended).  Serving one DNS message hands at most one
    interaction to [Storage.AddInteraction], and the identifier it
    carries is the last match in scanning order: the last sub-token of
    the query name that passes [isCorrelationID] in strict label mode,
    the lower-cased last matching window in scan-everywhere mode. *)
Theorem at_most_one_interaction_and_last_match_wins
    `{NetPkg} (env : Env) (h : DNSServer) (w : ResponseWriter)
    (r : dns.Msg) (w0 : World) :
  exists tr,
    events (final (ServeDNS env h w r w0)) = events w0 ++ tr
    /\ (length (stored tr) <= 1)%nat
    /\ forall key data,
         (key, data) ∈ stored tr ->
         exists q0 i,
           head (dns.Questions r) = Some q0
           /\ jsonEncode env i = Some data
           /\ key = getCorrelationID (options h) (UniqueID i)
           /\ last_match env (options h) (dns.QName q0) r = Some (UniqueID i).
Proof.
  destruct (stores_ServeDNS env h w r w0) as [tr [E L]].
  destruct (appends_ServeDNS env h w r w0) as [tr' [E' F]].
  assert (tr' = tr) as ->.
  { apply (app_inv_head (events w0)). by rewrite <- E, <- E'. }
  exists tr. split; [done|]. split; [done|].
  intros key data Hin. unfold stored in Hin.
  apply list_elem_of_omap in Hin as [e [He Hf]].
  destruct e; try done. injection Hf as -> ->.
  rewrite Forall_forall in F. specialize (F _ He).
  destruct F as [q0 [Hq [i [Hi [Hu [Hk Hne]]]]]].
  exists q0, i. split; [done|]. split; [done|]. rewrite Hu.
  split; [done|]. by apply extract_is_last_match.
Qed.

(** C3, as stated, fails: of two matching labels the first one is not
    the one emitted.  The name [aaaa.bbbb.oob.example.] has the matches
    [aaaa] and [bbbb] in scanning order; the stored interaction carries
    [bbbb]. *)
Lemma first_match_is_not_the_one_emitted :
  head (strict_matches Sample.opts "aaaa.bbbb.oob.example.") = Some "aaaa"
  /\ stored (events (final (ServeDNS Sample.env Sample.server Sample.writer
                              (Sample.query "aaaa.bbbb.oob.example." dns.TypeA)
                              Sample.world0)))
     = [("bbbb", "bbbb|aaaa.bbbb")].
Proof. split; vm_compute; reflexivity. Qed.

(** C2 (the code departs from it).  Strict label mode hands the
    sub-token to [isCorrelationID] as it is written in the query and
    records it unchanged.  For the label [AB12], whose lower-cased text
    is an identifier: a recognizer that accepts both cases makes the
    extractor record [AB12], not [ab12]; a recognizer for lower-cased
    text finds nothing. *)
Theorem strict_mode_does_not_lower_case :
  isCorrelationID Sample.opts (Strings.ToLower "AB12") = true
  /\ extract_correlation Sample.opts "oob.example" "AB12.oob.example."
       ";AB12.oob.example." = ("AB12", "AB12")
  /\ Sample.events_of
       (handleInteraction Sample.env (Sample.server_of Sample.opts)
          "AB12.oob.example." Sample.writer
          (Sample.query "AB12.oob.example." dns.TypeA) dns.new_Msg)
     = [EvAddInteraction "AB12" "AB12|AB12"]
  /\ isCorrelationID Sample.opts_lower (Strings.ToLower "AB12") = true
  /\ extract_correlation Sample.opts_lower "oob.example" "AB12.oob.example."
       ";AB12.oob.example." = ("", "")
  /\ Sample.events_of
       (handleInteraction Sample.env (Sample.server_of Sample.opts_lower)
          "AB12.oob.example." Sample.writer
          (Sample.query "AB12.oob.example." dns.TypeA) dns.new_Msg)
     = [].
Proof. repeat split; vm_compute; reflexivity. Qed.

Section Handler.
Context `{NetPkg} (env : Env).

(** C9.  A message without questions: the handler increments the
    DNS counter and returns; it writes no response and dispatches no
    interaction (the events are those of the starting world). *)
Theorem empty_question_section_only_counts
    (h : DNSServer) (w : ResponseWriter) (r : dns.Msg) (w0 : World) :
  dns.Questions r = [] ->
  ServeDNS env h w r w0
  = Done tt (mkWorld (uint64 (Stats_Dns w0 + 1)) (draws w0) (events w0)).
Proof. intros Hq. unfold ServeDNS, bind. simpl. by rewrite Hq. Qed.

(** C10.  A TXT question outside the ACME subtree adds exactly one
    record to the answer section: a TXT record with the text
    [TxtRecord] and TTL 0, whatever the TTL of the server; a message
    made of that single question is answered by that record alone. *)
Theorem txt_answer_is_one_record_with_ttl_zero
    (h : DNSServer) (w : ResponseWriter) (question : dns.Question)
    (m : dns.Msg) (flag : bool) (w0 : World) :
  dns.Qtype question = dns.TypeTXT ->
  is_acme_name (dns.QName question) = false ->
  (exists m',
      serve_question env h question m flag w0 = Done (Some (m', flag)) w0
      /\ dns.Answer m' = dns.Answer m ++ [txt_answer h (dns.QName question)]
      /\ dns.Ns m' = dns.Ns m /\ dns.Extra m' = dns.Extra m)
  /\ (forall r tr reply,
        dns.Questions r = [question] ->
        events (final (ServeDNS env h w r w0)) = events w0 ++ tr ->
        reply ∈ written tr ->
        dns.Answer reply = [txt_answer h (dns.QName question)]).
Proof.
  intros Ht Ha.
  assert (serve_question env h question m flag w0
          = Done (Some (handleTXT h (dns.QName question) m, flag)) w0) as Hs.
  { unfold serve_question. unfold is_acme_name in Ha. rewrite Ha, Ht.
    reflexivity. }
  split.
  { eexists. split; [exact Hs|]. by simpl. }
  intros r tr reply Hq E Hin.
  assert (appends (fun e => match e with
                            | EvWriteMsg m' =>
                                dns.Answer m'
                                = [txt_answer h (dns.QName question)]
                            | _ => True
                            end)
                  (ServeDNS env h w r)) as Hw.
  { unfold ServeDNS. rewrite Hq.
    apply appends_bind; [appends_auto|]. intros _. cbv zeta.
    unfold serve_questions.
    assert (forall m0 w1,
               serve_question env h question m0 false w1
               = Done (Some (handleTXT h (dns.QName question) m0, false)) w1)
      as Hs'.
    { intros m0 w1. unfold serve_question. unfold is_acme_name in Ha.
      rewrite Ha, Ht. reflexivity. }
    intros w1. unfold bind at 1 2. rewrite Hs'. cbv iota beta.
    unfold ret at 1.
    revert w1. fold (appends (T:=unit)).
    apply appends_bind.
    - simpl. eapply appends_weaken; [|apply appends_handleInteraction].
      intros e [He|He]; by destruct e.
    - intros _. appends_auto; try exact I. reflexivity. }
  destruct (Hw w0) as [tr' [E' F]].
  assert (tr' = tr) as ->.
  { apply (app_inv_head (events w0)). by rewrite <- E, <- E'. }
  unfold written in Hin. apply list_elem_of_omap in Hin as [e [He Hf]].
  destruct e; try done. injection Hf as ->.
  rewrite Forall_forall in F. exact (F _ He).
Qed.
End Handler.

Lemma empty_question_section_only_counts_witness :
  ServeDNS Sample.env Sample.server Sample.writer
           (dns.mkMsg 7 false 0 false true false 0 [] [] [] []) Sample.world0
  = Done tt (mkWorld 1 0 []).
Proof.
  exact (empty_question_section_only_counts Sample.env Sample.server
           Sample.writer (dns.mkMsg 7 false 0 false true false 0 [] [] [] [])
           Sample.world0 eq_refl).
Defined.

Lemma txt_answer_is_one_record_with_ttl_zero_witness :
  Forall (fun reply =>
            dns.Answer reply
            = [dns.TXT (dns.mkHdr "x.oob.example." dns.TypeTXT dns.ClassINET 0)
                       [""]])
         (written (Sample.events_of
                     (ServeDNS Sample.env Sample.server Sample.writer
                               (Sample.query "x.oob.example." dns.TypeTXT)))).
Proof.
  apply Forall_forall. intros reply Hin.
  destruct (txt_answer_is_one_record_with_ttl_zero Sample.env Sample.server
              Sample.writer
              (dns.mkQuestion "x.oob.example." dns.TypeTXT dns.ClassINET)
              dns.new_Msg false Sample.world0 eq_refl eq_refl) as [_ Hall].
  apply (Hall (Sample.query "x.oob.example." dns.TypeTXT)
              (Sample.events_of
                 (ServeDNS Sample.env Sample.server Sample.writer
                           (Sample.query "x.oob.example." dns.TypeTXT)))
              reply eq_refl eq_refl Hin).
Defined.

Example txt_reply_is_written :
  length (written (Sample.events_of
                     (ServeDNS Sample.env Sample.server Sample.writer
                               (Sample.query "x.oob.example." dns.TypeTXT))))
  = 1%nat.
Proof. vm_compute. reflexivity. Qed.

Section AcmeStoreError.
Context `{NetPkg} (env : Env).

Lemma written_quiet tr : Forall not_WriteMsg tr -> written tr = [].
Proof.
  induction 1 as [|e tr He _ IH]; [done|].
  destruct e; simpl in *; try done.
Qed.

Lemma Printf_not_WriteMsg e : is_Printf e -> not_WriteMsg e.
Proof. by destruct e. Qed.

(** A TXT question under the ACME prefix whose store lookup fails
    makes the loop over the questions leave the handler. *)
Lemma serve_questions_aborts h q questions : forall m flag w0,
  q ∈ questions ->
  dns.Qtype q = dns.TypeTXT ->
  is_acme_name (dns.QName q) = true ->
  ACMEStore_GetRecords env (Strings.ToLower (dns.QName q)) = None ->
  match serve_questions env h questions m flag w0 with
  | Done (Some _) _ => False
  | _ => True
  end.
Proof.
  induction questions as [|a qs IH]; intros m flag w0 Hin Ht Ha He.
  - by apply elem_of_nil in Hin.
  - simpl. unfold bind.
    apply elem_of_cons in Hin as [<-|Hin].
    + unfold serve_question. unfold is_acme_name in Ha. rewrite Ha, Ht.
      simpl. unfold handleACMETXTChallenge. rewrite He. done.
    + destruct (serve_question env h a m flag w0) as [[[m' flag']|] w1|];
        [|done|done].
      by apply IH.
Qed.

End AcmeStoreError.

(** ** Strings *)

Section StringFacts.
Import Strings.

Lemma append_cons x (a b : string) : String x a +:+ b = String x (a +:+ b).
Proof. reflexivity. Qed.

Lemma append_nil_l (b : string) : "" +:+ b = b.
Proof. reflexivity. Qed.

Lemma append_assoc (a b c : string) : (a +:+ b) +:+ c = a +:+ (b +:+ c).
Proof.
  induction a as [|x a IH]; [done|]. rewrite !append_cons. by rewrite IH.
Qed.

Lemma append_nil_r (a : string) : a +:+ "" = a.
Proof.
  induction a as [|x a IH]; [done|]. rewrite append_cons. by rewrite IH.
Qed.

Lemma cut_nonempty sep s : cut sep s <> [].
Proof.
  destruct s as [|c s]; simpl; [done|].
  destruct (sep c); [done|]. by destruct (cut sep s).
Qed.

(** A string without separators is one piece. *)
Lemma cut_free sep a :
  all_chars (fun c => negb (sep c)) a = true -> cut sep a = [a].
Proof.
  induction a as [|x a IH]; simpl; [done|].
  intros [Hx Ha]%andb_true_iff. apply negb_true_iff in Hx.
  by rewrite Hx, (IH Ha).
Qed.

Lemma cut_app sep a c s :
  all_chars (fun c => negb (sep c)) a = true -> sep c = true ->
  cut sep (a +:+ String c s) = a :: cut sep s.
Proof.
  intros Ha Hc. induction a as [|x a IH]; rewrite ?append_cons; simpl.
  - by rewrite Hc.
  - simpl in Ha. apply andb_true_iff in Ha as [Hx Ha].
    apply negb_true_iff in Hx. by rewrite Hx, (IH Ha).
Qed.

Lemma cut_Join sep c ts :
  sep c = true ->
  Forall (fun t => all_chars (fun c => negb (sep c)) t = true) ts ->
  ts <> [] ->
  cut sep (Join ts (String c "")) = ts.
Proof.
  intros Hc Hts. induction Hts as [|t ts Ht Hts IH]; [done|]. intros _.
  destruct ts as [|t' ts].
  - by apply cut_free.
  - change (Join (t :: t' :: ts) (String c "")) with
      (t +:+ String c (Join (t' :: ts) (String c ""))).
    rewrite (cut_app sep t c _ Ht Hc). f_equal. by apply IH.
Qed.

(** The loop of the splitter computes the pieces between the
    separators. *)
Lemma splitSubdomainParts_loop_cut s : forall r p,
  splitSubdomainParts_loop s r p
  = r ++ match cut is_label_sep s with
         | h :: t => (p +:+ h) :: t
         | [] => [p]
         end.
Proof.
  induction s as [|c s IH]; intros r p; simpl.
  - by rewrite append_nil_r.
  - destruct (is_label_sep c); rewrite IH.
    + simpl. pose proof (cut_nonempty is_label_sep s).
      destruct (cut is_label_sep s) as [|h t]; [done|].
      rewrite append_nil_r. by rewrite <- app_assoc.
    + pose proof (cut_nonempty is_label_sep s).
      destruct (cut is_label_sep s) as [|h t]; [done|].
      by rewrite append_assoc.
Qed.

Lemma splitSubdomainParts_cut s :
  splitSubdomainParts s = cut is_label_sep s.
Proof.
  unfold splitSubdomainParts. rewrite splitSubdomainParts_loop_cut.
  pose proof (cut_nonempty is_label_sep s).
  by destruct (cut is_label_sep s).
Qed.

Lemma is_token_no_sep t :
  is_token t -> all_chars (fun c => negb (is_label_sep c)) t = true.
Proof.
  unfold is_token. induction t as [|c t IH]; simpl; [done|].
  unfold is_token_char at 1.
  intros [[Hc _]%andb_true_iff Ht]%andb_true_iff. by rewrite Hc, IH.
Qed.

Lemma is_token_no_dot t : is_token t -> ContainsChar t "." = false.
Proof.
  unfold is_token. induction t as [|c t IH]; simpl; [done|].
  unfold is_token_char at 1.
  intros [[_ Hc]%andb_true_iff Ht]%andb_true_iff.
  apply negb_true_iff in Hc. by rewrite Hc, IH.
Qed.

(** The sub-tokens of [t1-t2-...-tn] are [t1], ..., [tn]. *)
Lemma splitSubdomainParts_Join ts :
  Forall is_token ts -> ts <> [] ->
  splitSubdomainParts (Join ts "-") = ts.
Proof.
  intros Hts Hne. rewrite splitSubdomainParts_cut.
  apply (cut_Join is_label_sep "-"); [done| |done].
  eapply Forall_impl; [exact Hts|]. apply is_token_no_sep.
Qed.

Lemma ContainsChar_app a b c :
  ContainsChar (a +:+ b) c = (ContainsChar a c || ContainsChar b c)%bool.
Proof.
  induction a as [|x a IH]; [done|]. rewrite append_cons. simpl.
  by rewrite IH, orb_assoc.
Qed.

Lemma Join_no_dot ts :
  Forall is_token ts -> ContainsChar (Join ts "-") "." = false.
Proof.
  induction 1 as [|t ts Ht Hts IH]; [done|].
  destruct ts as [|t' ts].
  - by apply is_token_no_dot.
  - change (Join (t :: t' :: ts) "-") with
      (t +:+ String "-" (Join (t' :: ts) "-")).
    rewrite ContainsChar_app, (is_token_no_dot _ Ht). simpl. exact IH.
Qed.

Lemma SplitN2_no_sep s c : ContainsChar s c = false -> SplitN2 s c = [s].
Proof.
  induction s as [|x s IH]; simpl; [done|].
  intros [Hx Hs]%orb_false_iff. rewrite Ascii.eqb_sym, Hx.
  by rewrite (IH Hs).
Qed.

Lemma SplitN2_first label rest c :
  ContainsChar label c = false ->
  SplitN2 (label +:+ String c rest) c = [label; rest].
Proof.
  induction label as [|x s IH]; rewrite ?append_cons; simpl.
  - by rewrite Ascii.eqb_refl.
  - intros [Hx Hs]%orb_false_iff. rewrite Ascii.eqb_sym, Hx.
    by rewrite (IH Hs).
Qed.
End StringFacts.

Section CustomRecords.
Context `{NetPkg} (env : Env).
Import Strings.

Lemma fromHexChar_lower_hex c :
  is_lower_hex c = true -> exists v, hex.fromHexChar c = Some v.
Proof.
  destruct c as [[] [] [] [] [] [] [] []]; try discriminate;
    intros _; eexists; reflexivity.
Qed.

(** Eight lower-case hexadecimal digits decode to four bytes. *)
Lemma hex8_decodes t :
  HEX_IP_REGEX_MatchString t = true ->
  exists a b c d, hex.DecodeString t = Some [a; b; c; d].
Proof.
  unfold HEX_IP_REGEX_MatchString.
  intros [Hlen Hall]%andb_true_iff. apply Nat.eqb_eq in Hlen.
  destruct t as [|c1 [|c2 [|c3 [|c4 [|c5 [|c6 [|c7 [|c8 [|c9 t]]]]]]]]];
    try discriminate.
  simpl in Hall.
  repeat match goal with
         | Hx : (_ && _)%bool = true |- _ =>
             apply andb_true_iff in Hx as [?Hc Hx]
         end.
  repeat match goal with
         | Hx : is_lower_hex ?c = true |- _ =>
             apply fromHexChar_lower_hex in Hx as [? Hx]
         end.
  simpl.
  repeat match goal with Hx : hex.fromHexChar _ = Some _ |- _ =>
                           rewrite Hx; clear Hx end.
  by do 4 eexists.
Qed.

Lemma IP_String_v4 a b c d :
  netfmt.IP_String [a; b; c; d] = net.dotted_quad a b c d.
Proof. reflexivity. Qed.

(** The hexadecimal rule of the code yields the dotted quad. *)
Lemma hex8_resolve t :
  HEX_IP_REGEX_MatchString t = true ->
  exists ip, hex.DecodeString t = Some ip
             /\ hex8_dotted t = Some (netfmt.IP_String ip).
Proof.
  intros Hm. destruct (hex8_decodes t Hm) as (a & b & c & d & Hd).
  exists [a; b; c; d]. split; [done|]. unfold hex8_dotted. by rewrite Hd.
Qed.

(** The loop collects what the tokens contribute, in order. *)
Lemma collect_v4_resolve c ts : forall ips,
  collect_v4 c ts ips = ips ++ omap (resolve c) ts.
Proof.
  induction ts as [|t ts IH]; intros ips; simpl.
  - by rewrite app_nil_r.
  - unfold resolve at 1. destruct (String.eqb t "").
    + rewrite IH. by rewrite <- app_assoc.
    + destruct (HEX_IP_REGEX_MatchString t) eqn:Hm.
      * destruct (hex8_resolve t Hm) as [ip [-> ->]].
        rewrite IH. by rewrite <- app_assoc.
      * destruct (subdomainRecords c !! ToLower t);
          rewrite IH; [by rewrite <- app_assoc|done].
Qed.

(** A draw from a non-empty list returns one of its elements. *)
Lemma random_choice_draws ips w0 :
  ips <> [] ->
  exists ip,
    random_choice env ips w0
    = Done ip (mkWorld (Stats_Dns w0) (S (draws w0)) (events w0))
    /\ ips !! Z.to_nat (rand_source env (draws w0)
                          mod Z.of_nat (length ips)) = Some ip.
Proof.
  intros Hne. unfold random_choice, bind, rand_Intn.
  assert (0 < Z.of_nat (length ips)) as Hpos.
  { destruct ips; [done|]. simpl. lia. }
  destruct (Z.leb_spec (Z.of_nat (length ips)) 0); [lia|].
  set (i := rand_source env (draws w0) mod Z.of_nat (length ips)).
  assert (0 <= i < Z.of_nat (length ips)) as Hi
    by (apply Z.mod_pos_bound; lia).
  destruct (ips !! Z.to_nat i) as [ip|] eqn:Hl.
  - exists ip. by split.
  - apply lookup_ge_None in Hl. lia.
Qed.
End CustomRecords.

(** C4.  For a name [label.rest] whose label is [t1-t2-...-tn] with
    [n >= 2] and is no key of the v4 record map, the v4 resolver
    returns an address drawn from what the tokens resolve to, and "no
    override" (the empty string) when they resolve to nothing; it
    returns "no override" as well for a name without a dot and for a
    label, no key of the record map, that is a single sub-token. *)
Theorem v4_resolver_draws_from_resolved_tokens
    `{NetPkg} (env : Env) (c : customDNSRecords) (w0 : World) :
  (forall ts rest,
      (2 <= length ts)%nat ->
      Forall is_token ts ->
      records c !! Strings.ToLower (Strings.Join ts "-") = None ->
      match omap (resolve c) ts with
      | [] =>
          checkCustomResponse env c (Strings.Join ts "-" +:+ "." +:+ rest) w0
          = Done "" w0
      | candidates =>
          exists ip w',
            checkCustomResponse env c (Strings.Join ts "-" +:+ "." +:+ rest) w0
            = Done ip w'
            /\ ip ∈ candidates
      end)
  /\ (forall zone,
        Strings.ContainsChar zone "." = false ->
        checkCustomResponse env c zone w0 = Done "" w0)
  /\ (forall label rest,
        Strings.ContainsChar label "." = false ->
        records c !! Strings.ToLower label = None ->
        length (splitSubdomainParts label) = 1%nat ->
        checkCustomResponse env c (label +:+ "." +:+ rest) w0 = Done "" w0).
Proof.
  split; [|split].
  - intros ts rest Hlen Hts Hrec.
    assert (ts <> []) as Hne by (destruct ts; [simpl in Hlen; lia|done]).
    unfold checkCustomResponse.
    change (Strings.Join ts "-" +:+ "." +:+ rest)
      with (Strings.Join ts "-" +:+ String "." rest).
    rewrite (SplitN2_first _ rest "." (Join_no_dot ts Hts)), Hrec.
    rewrite (splitSubdomainParts_Join ts Hts Hne).
    destruct (Nat.eqb_spec (length ts) 1) as [Heq|_]; [lia|].
    rewrite collect_v4_resolve. simpl.
    destruct (omap (resolve c) ts) as [|x cands] eqn:Hc; [done|].
    simpl.
    destruct (random_choice_draws env (x :: cands) w0) as [ip [Hr Hl]];
      [done|].
    exists ip. eexists. split; [exact Hr|].
    eapply list_elem_of_lookup_2. exact Hl.
  - intros zone Hz. unfold checkCustomResponse.
    by rewrite (SplitN2_no_sep zone "." Hz).
  - intros label rest Hl Hrec Hone. unfold checkCustomResponse.
    change (label +:+ "." +:+ rest) with (label +:+ String "." rest).
    rewrite (SplitN2_first _ rest "." Hl), Hrec, Hone. done.
Qed.

Lemma v4_resolver_draws_from_resolved_tokens_witness :
  exists ip w',
    checkCustomResponse Sample.env (customRecords Sample.server)
      "deadbeef-cafebabe.oob.example." Sample.world0 = Done ip w'
    /\ ip ∈ ["222.173.190.239"; "202.254.186.190"].
Proof.
  destruct (v4_resolver_draws_from_resolved_tokens Sample.env
              (customRecords Sample.server) Sample.world0) as [Hdraw _].
  apply (Hdraw ["deadbeef"; "cafebabe"] "oob.example.").
  - simpl. lia.
  - repeat constructor.
  - vm_compute. reflexivity.
Defined.

Section NSBlock.
Context `{NetPkg} (env : Env).
Import Strings.

Lemma attach_ns_sections h hdr names : forall m,
  dns.Answer (attach_ns h hdr names m) = dns.Answer m
  /\ dns.Ns (attach_ns h hdr names m) = dns.Ns m ++ map (dns.NS hdr) names
  /\ dns.Extra (attach_ns h hdr names m) = dns.Extra m ++ glue_records h names.
Proof.
  unfold attach_ns.
  induction names as [|n names IH]; intros m; simpl.
  - by rewrite !app_nil_r.
  - destruct (IH (dns.append_Extra
                    [dns.A (dns.mkHdr n dns.TypeA dns.ClassINET (timeToLive h))
                           (ipAddress h)]
                    (dns.append_Ns [dns.NS hdr n] m))) as (-> & -> & ->).
    simpl. by rewrite <- !app_assoc.
Qed.

Lemma ns_block_first_hit h hdr candidates m :
  ns_block h hdr candidates m
  = attach_ns h hdr (default [] (first_hit h candidates)) m.
Proof.
  unfold first_hit.
  induction candidates as [|d candidates IH]; simpl; [done|].
  by destruct (nsDomains h !! d).
Qed.

Lemma checkCustomResponse_returns c zone w0 :
  exists v w', checkCustomResponse env c zone w0 = Done v w'.
Proof.
  unfold checkCustomResponse.
  destruct (SplitN2 zone ".") as [|label [|rest [|? ?]]]; try by do 2 eexists.
  destruct (records c !! ToLower label); [by do 2 eexists|].
  destruct (Nat.eqb _ 1); [by do 2 eexists|].
  destruct (collect_v4 c _ []) as [|ip ips] eqn:Hc; [by do 2 eexists|].
  simpl. destruct (random_choice_draws env (ip :: ips) w0) as [v [Hr _]];
    [done|].
  rewrite Hr. by do 2 eexists.
Qed.

Lemma checkCustomAAAAResponse_returns c zone w0 :
  exists v w', checkCustomAAAAResponse env c zone w0 = Done v w'.
Proof.
  unfold checkCustomAAAAResponse.
  destruct (SplitN2 zone ".") as [|label [|rest [|? ?]]]; try by do 2 eexists.
  destruct (v6Records c !! ToLower label); [by do 2 eexists|].
  destruct (Nat.eqb _ 1); [by do 2 eexists|].
  destruct (collect_v6 c _ []) as [|ip ips] eqn:Hc; [by do 2 eexists|].
  simpl. destruct (random_choice_draws env (ip :: ips) w0) as [v [Hr _]];
    [done|].
  rewrite Hr. by do 2 eexists.
Qed.

(** What the two address handlers do to the authority and additional
    sections. *)
Lemma handleACNAMEANY_ns_block h zone m w0 d0 ds :
  Domains (options h) = d0 :: ds ->
  let names := default [] (first_hit h [zone; dnsname.Fqdn d0]) in
  exists m' w',
    handleACNAMEANY env h zone m w0 = Done m' w'
    /\ dns.Ns m' = dns.Ns m ++ ns_records h zone names
    /\ dns.Extra m' = dns.Extra m ++ glue_records h names.
Proof.
  intros Hd names. unfold handleACNAMEANY, bind.
  destruct (checkCustomResponse_returns (customRecords h) zone w0)
    as (v & w' & ->).
  unfold resultFunction, dotDomains_of, bind, ret. rewrite Hd.
  destruct (negb (String.eqb v ""));
    eexists; eexists; (split; [reflexivity|]);
    rewrite ns_block_first_hit; fold names;
    match goal with |- context [attach_ns h ?hdr names ?m0] =>
      destruct (attach_ns_sections h hdr names m0) as (_ & -> & ->) end;
    done.
Qed.

Lemma handleAAAACNAMEANY_ns_block h zone m w0 d0 ds :
  Domains (options h) = d0 :: ds ->
  let names := default [] (first_hit h [zone; dnsname.Fqdn d0]) in
  exists m' w',
    handleAAAACNAMEANY env h zone m w0 = Done m' w'
    /\ dns.Ns m' = dns.Ns m ++ ns_records h zone names
    /\ dns.Extra m' = dns.Extra m ++ glue_records h names.
Proof.
  intros Hd names. unfold handleAAAACNAMEANY, bind.
  destruct (checkCustomAAAAResponse_returns (customRecords h) zone w0)
    as (v & w' & ->).
  unfold resultFunctionAAAA, dotDomains_of, bind, ret. rewrite Hd.
  destruct (negb (String.eqb v ""));
    eexists; eexists; (split; [reflexivity|]);
    rewrite ns_block_first_hit; fold names;
    match goal with |- context [attach_ns h ?hdr names ?m0] =>
      destruct (attach_ns_sections h hdr names m0) as (_ & -> & ->) end;
    done.
Qed.

(** The table [NewDNSServer] derives has the two name servers of
    every configured apex. *)
Lemma derive_names_ns domains d :
  d ∈ domains ->
  snd (derive_names domains) !! dnsname.Fqdn d
  = Some ["ns1." +:+ dnsname.Fqdn d; "ns2." +:+ dnsname.Fqdn d].
Proof.
  unfold derive_names.
  induction domains as [|x domains IH] using rev_ind;
    [by intros ?%elem_of_nil|].
  intros Hin. rewrite foldl_snoc. simpl.
  destruct (decide (dnsname.Fqdn x = dnsname.Fqdn d)) as [Heq|Hne].
  - rewrite Heq. apply lookup_insert_eq.
  - rewrite lookup_insert_ne by done. apply IH.
    apply elem_of_app in Hin as [Hin|Hin]; [done|].
    apply list_elem_of_singleton in Hin. congruence.
Qed.

Lemma NewDNSServer_tables o w1 h w2 :
  NewDNSServer env o w1 = Done h w2 ->
  options h = o /\ nsDomains h = snd (derive_names (Domains o)).
Proof.
  unfold NewDNSServer, bind.
  destruct (newCustomDNSRecordsServer env o w1) as [custom w'|]; [|done].
  unfold ret. intros [= <- _]. done.
Qed.
End NSBlock.

(** C5 (amended).  For every A or AAAA question, and for every CNAME
    or ANY question whose name is not under the [_acme-challenge.]
    prefix, the responder looks up the question name and then the FQDN
    of the primary apex in its NS-domain table, and for the first hit
    appends one NS record per name of that entry to the authority
    section and one glue A record per name, carrying the default v4
    address, to the additional section; so a name that is no apex of a
    server built by [NewDNSServer] gets the NS block of the primary
    apex. *)
Theorem ns_block_of_first_hit
    `{NetPkg} (env : Env) (h : DNSServer) (question : dns.Question)
    (m : dns.Msg) (flag : bool) (w0 : World) (d0 : string) (ds : list string) :
  Domains (options h) = d0 :: ds ->
  dns.Qtype question = dns.TypeA \/ dns.Qtype question = dns.TypeAAAA
  \/ (is_acme_name (dns.QName question) = false
      /\ (dns.Qtype question = dns.TypeCNAME
          \/ dns.Qtype question = dns.TypeANY)) ->
  let zone := dns.QName question in
  let names := default [] (first_hit h [zone; dnsname.Fqdn d0]) in
  (exists m' flag' w',
      serve_question env h question m flag w0 = Done (Some (m', flag')) w'
      /\ dns.Ns m' = dns.Ns m ++ ns_records h zone names
      /\ dns.Extra m' = dns.Extra m ++ glue_records h names)
  /\ (forall o w1 w2,
        NewDNSServer env o w1 = Done h w2 ->
        nsDomains h !! zone = None ->
        names = ["ns1." +:+ dnsname.Fqdn d0; "ns2." +:+ dnsname.Fqdn d0]).
Proof.
  intros Hd Hq zone names. split.
  - destruct (handleACNAMEANY_ns_block env h zone m w0 d0 ds Hd)
      as (ma & wa & Ha & HaN & HaE).
    destruct (handleAAAACNAMEANY_ns_block env h zone m w0 d0 ds Hd)
      as (mb & wb & Hb & HbN & HbE).
    unfold serve_question, bind. fold zone.
    unfold is_acme_name in Hq. fold zone in Hq.
    destruct Hq as [Ht|[Ht|[Hacme [Ht|Ht]]]]; rewrite Ht;
      [destruct (Strings.HasPrefix _ _)
      |destruct (Strings.HasPrefix _ _)
      |rewrite Hacme|rewrite Hacme];
      unfold dns.TypeA, dns.TypeAAAA, dns.TypeCNAME, dns.TypeANY,
        dns.TypeSOA, dns.TypeTXT, dns.TypeNS; simpl;
      rewrite ?Ha, ?Hb; unfold ret; do 3 eexists;
      (split; [reflexivity|]); by split.
  - intros o w1 w2 Hnew Hnone.
    destruct (NewDNSServer_tables env o w1 h w2 Hnew) as [Ho Hns].
    unfold names, first_hit. simpl. rewrite Hnone.
    rewrite Hns, derive_names_ns; [done|].
    rewrite <- Ho, Hd. left.
Qed.

Lemma ns_block_of_first_hit_witness :
  exists m' flag' w',
    serve_question Sample.env Sample.server
      (dns.mkQuestion "alien.example." dns.TypeA dns.ClassINET)
      dns.new_Msg false Sample.world0 = Done (Some (m', flag')) w'
    /\ dns.Ns m'
       = [] ++ ns_records Sample.server "alien.example."
                 ["ns1.oob.example."; "ns2.oob.example."]
    /\ dns.Extra m'
       = [] ++ glue_records Sample.server
                 ["ns1.oob.example."; "ns2.oob.example."].
Proof.
  destruct (ns_block_of_first_hit Sample.env Sample.server
              (dns.mkQuestion "alien.example." dns.TypeA dns.ClassINET)
              dns.new_Msg false Sample.world0 "oob.example" [] eq_refl
              (or_introl eq_refl)) as [Hserve Hnames].
  rewrite (Hnames Sample.opts Sample.world0 Sample.world0 eq_refl eq_refl)
    in Hserve.
  exact Hserve.
Defined.

(** C5, as stated, fails: an ANY question under the ACME prefix gets
    no NS block, although the NS-domain table has the primary apex. *)
Lemma acme_any_question_gets_no_ns_block :
  first_hit Sample.server
    ["_acme-challenge.oob.example."; dnsname.Fqdn "oob.example"]
  = Some ["ns1.oob.example."; "ns2.oob.example."]
  /\ serve_question Sample.env Sample.server
       (dns.mkQuestion "_acme-challenge.oob.example." dns.TypeANY dns.ClassINET)
       dns.new_Msg false Sample.world0
     = Done (Some (dns.new_Msg, true)) Sample.world0
  /\ map (fun reply => (dns.Ns reply, dns.Extra reply))
         (written (Sample.events_of
                     (ServeDNS Sample.env Sample.server Sample.writer
                        (Sample.query "_acme-challenge.oob.example."
                                      dns.TypeANY))))
     = [([], [])].
Proof. repeat split; vm_compute; reflexivity. Qed.

Section OriginIP.
Context `{NetPkg}.
Import Strings.

(** The allowlist loop says yes only for an entry that matches. *)
Lemma trusted_loop_true tests checkIP : forall w0 w',
  trusted_loop tests checkIP w0 = Done true w' ->
  exists test, test ∈ tests /\ entry_matches test checkIP.
Proof.
  induction tests as [|test tests IH]; intros w0 w'; simpl; [done|].
  unfold entry_matches at 1.
  destruct (ContainsChar test "/") eqn:Hc.
  - destruct (ParseCIDR test) as [cidr|] eqn:Hp; [|done].
    destruct (net.Contains cidr checkIP) eqn:Hin.
    + intros _. exists test. split; [left|].
      unfold entry_matches. rewrite Hc. by exists cidr.
    + intros Hl. destruct (IH _ _ Hl) as [t [Ht Hm]].
      exists t. split; [by right|done].
  - unfold bind.
    destruct ((if is_nil (ParseIP test)
               then emit (EvLog Error "Invalid IP address")
               else ret ()) w0) as [[] w1|] eqn:Hlog; [|done].
    destruct (net.Equal (ParseIP test) checkIP) eqn:He.
    + intros _. exists test. split; [left|].
      unfold entry_matches. by rewrite Hc.
    + intros Hl. destruct (IH _ _ Hl) as [t [Ht Hm]].
      exists t. split; [by right|done].
Qed.

(** With well-formed CIDR entries the allowlist loop returns. *)
Lemma trusted_loop_returns tests checkIP :
  cidrs_parse tests ->
  forall w0, exists b w', trusted_loop tests checkIP w0 = Done b w'.
Proof.
  induction 1 as [|test tests Ht _ IH]; intros w0; simpl;
    [by do 2 eexists|].
  destruct (ContainsChar test "/") eqn:Hc.
  - destruct (Ht eq_refl) as [cidr ->].
    destruct (net.Contains cidr checkIP); [by do 2 eexists|apply IH].
  - unfold bind.
    destruct (is_nil (ParseIP test)); simpl;
      (destruct (net.Equal (ParseIP test) checkIP);
       [by do 2 eexists|apply IH]).
Qed.

Lemma scan_options_first h host opts : forall w0,
  exists w',
    scan_options h host opts w0
    = Done (origin_of host <$>
              (snd <$> head (List.filter
                               (fun cd => fst cd
                                          =? uint16 (OriginIPEDNSopt (options h)))
                               (omap local_of opts))))
           w'.
Proof.
  induction opts as [|opt opts IH]; intros w0; simpl; [by eexists|].
  destruct opt as [code data|code]; simpl; [|apply IH].
  destruct (code =? uint16 (OriginIPEDNSopt (options h))); [|apply IH].
  simpl. unfold origin_of.
  destruct (is_nil (ParseIP (netfmt.IP_String data))); by eexists.
Qed.

Lemma head_filter_app {X} (p : X -> bool) (l1 l2 : list X) :
  head (List.filter p (l1 ++ l2))
  = match head (List.filter p l1) with
    | Some x => Some x
    | None => head (List.filter p l2)
    end.
Proof.
  rewrite List.filter_app. by destruct (List.filter p l1).
Qed.

Lemma scan_extra_matched h host extra : forall w0,
  exists w',
    scan_extra h host extra w0
    = Done (origin_of host <$>
              matched_option (uint16 (OriginIPEDNSopt (options h))) extra)
           w'.
Proof.
  unfold matched_option, local_options.
  induction extra as [|rr extra IH]; intros w0; simpl; [by eexists|].
  destruct rr; try apply IH.
  unfold bind. destruct (scan_options_first h host Option w0) as [w1 ->].
  rewrite head_filter_app.
  destruct (head (List.filter _ (omap local_of Option))) as [[c d]|];
    simpl; [by eexists|apply IH].
Qed.

Lemma matched_option_has code extra data :
  matched_option code extra = Some data -> has_local_option code extra.
Proof.
  unfold matched_option, has_local_option.
  destruct (head _) as [[c d]|] eqn:Hh; [|done]. simpl. intros [= ->].
  apply head_Some_elem_of in Hh.
  apply list_elem_of_In, List.filter_In in Hh as [Hin Hc].
  simpl in Hc. apply Z.eqb_eq in Hc as ->.
  exists data. by apply list_elem_of_In.
Qed.

(** The nil address equals no address but itself. *)
Lemma Equal_nil_l (x : net.IP) : x <> [] -> net.Equal [] x = false.
Proof. by destruct x. Qed.

(** For an address that is not nil, an entry the allowlist loop
    matches is an entry that names it. *)
Lemma entry_matches_listed test ip :
  ip <> [] -> entry_matches test ip -> listed_entry test ip.
Proof.
  intros Hip. unfold entry_matches, listed_entry.
  destruct (ContainsChar test "/"); [done|].
  intros He. split; [|done].
  intros Hnil. rewrite Hnil, (Equal_nil_l _ Hip) in He. discriminate He.
Qed.
End OriginIP.

(** C6 (amended).  For a transport peer whose host is an IP address,
    origin IP resolution returns an address different from that host
    only when [OriginIPEDNSopt] is non-negative, the peer is on the
    trusted-source list (an entry is a single IP address equal to the
    peer's, or a CIDR block that contains it), and some EDNS0 LOCAL
    option of an OPT record of the additional section has the code
    [uint16(OriginIPEDNSopt)], which is [OriginIPEDNSopt] itself when
    that is below 65536.  When the data of the matched option does not
    format to a parseable IP, the transport host is what resolution
    returns, and it does return when the CIDR entries of the list
    parse. *)
Theorem origin_ip_rewritten_only_for_trusted_option
    `{NetPkg} (h : DNSServer) (w : ResponseWriter) (r : dns.Msg)
    (w0 : World) :
  let host := SplitHostPort_host (RemoteAddr_String w) in
  let code := uint16 (OriginIPEDNSopt (options h)) in
  (ParseIP host <> [] ->
   forall v w',
     getMsgHost h w r w0 = Done v w' ->
     v <> host ->
     0 <= OriginIPEDNSopt (options h)
     /\ peer_listed (RealIPFrom (options h)) host
     /\ has_local_option code (dns.Extra r))
  /\ (0 <= OriginIPEDNSopt (options h) < 65536 ->
      code = OriginIPEDNSopt (options h))
  /\ (forall data v w',
        matched_option code (dns.Extra r) = Some data ->
        is_nil (ParseIP (netfmt.IP_String data)) = true ->
        getMsgHost h w r w0 = Done v w' ->
        v = host)
  /\ (forall data,
        cidrs_parse (RealIPFrom (options h)) ->
        matched_option code (dns.Extra r) = Some data ->
        is_nil (ParseIP (netfmt.IP_String data)) = true ->
        exists w', getMsgHost h w r w0 = Done host w').
Proof.
  intros host code. split; [|split; [|split]].
  - intros Hhost v w' Hget Hne. unfold getMsgHost in Hget.
    fold host in Hget.
    destruct (Z.ltb_spec (OriginIPEDNSopt (options h)) 0) as [|Hopt];
      [by injection Hget as <- _|].
    unfold bind in Hget.
    destruct (trusted_loop (RealIPFrom (options h)) (ParseIP host) w0)
      as [[|] w1|] eqn:Ht; [| by injection Hget as <- _ | done].
    simpl in Hget.
    destruct (scan_extra_matched h host (dns.Extra r) w1) as [w2 Hs].
    rewrite Hs in Hget. fold code in Hget.
    destruct (matched_option code (dns.Extra r)) as [data|] eqn:Hm;
      [|by injection Hget as <- _].
    split; [done|]. split.
    + destruct (trusted_loop_true _ _ _ _ Ht) as (test & Hin & Hmatch).
      split; [done|]. exists test. split; [done|].
      by apply entry_matches_listed.
    + exact (matched_option_has _ _ _ Hm).
  - intros Hr. unfold code, uint16. apply Z.mod_small. lia.
  - intros data v w' Hm Hnil Hget. unfold getMsgHost in Hget.
    fold host in Hget.
    destruct (OriginIPEDNSopt (options h) <? 0);
      [by injection Hget as <- _|].
    unfold bind in Hget.
    destruct (trusted_loop (RealIPFrom (options h)) (ParseIP host) w0)
      as [[|] w1|] eqn:Ht; [| by injection Hget as <- _ | done].
    simpl in Hget.
    destruct (scan_extra_matched h host (dns.Extra r) w1) as [w2 Hs].
    rewrite Hs in Hget. fold code in Hget. rewrite Hm in Hget.
    simpl in Hget. unfold origin_of in Hget. rewrite Hnil in Hget.
    by injection Hget as <- _.
  - intros data Hcidr Hm Hnil. unfold getMsgHost. fold host.
    destruct (OriginIPEDNSopt (options h) <? 0); [by eexists|].
    unfold bind.
    destruct (trusted_loop_returns _ (ParseIP host) Hcidr w0)
      as (b & w1 & ->).
    destruct b; simpl; [|by eexists].
    destruct (scan_extra_matched h host (dns.Extra r) w1) as [w2 ->].
    fold code. rewrite Hm. simpl. unfold origin_of. rewrite Hnil.
    by eexists.
Qed.

Lemma origin_ip_rewritten_only_for_trusted_option_witness :
  0 <= 5
  /\ peer_listed ["203.0.113.9"; "198.51.100.0/24"] "198.51.100.7"
  /\ has_local_option 5
       (dns.Extra (Sample.query_with_option "x.oob.example." 5 [10; 0; 0; 1])).
Proof.
  destruct (origin_ip_rewritten_only_for_trusted_option
              (Sample.server_of
                 (Sample.opts_origin 5 ["203.0.113.9"; "198.51.100.0/24"]))
              Sample.writer
              (Sample.query_with_option "x.oob.example." 5 [10; 0; 0; 1])
              Sample.world0) as [Honly _].
  apply (fun Hhost => Honly Hhost "10.0.0.1" Sample.world0).
  - vm_compute. discriminate.
  - vm_compute. reflexivity.
  - discriminate.
Defined.

(** C6, as stated, fails: with [OriginIPEDNSopt = 65541] a trusted
    peer's option of code 5 rewrites the address, and no option has
    the code 65541. *)
Lemma origin_ip_rewritten_by_truncated_code :
  let h := Sample.server_of (Sample.opts_origin 65541 ["198.51.100.7"]) in
  let r := Sample.query_with_option "x.oob.example." 5 [10; 0; 0; 1] in
  getMsgHost h Sample.writer r Sample.world0 = Done "10.0.0.1" Sample.world0
  /\ SplitHostPort_host (RemoteAddr_String Sample.writer) = "198.51.100.7"
  /\ ~ has_local_option (OriginIPEDNSopt (options h)) (dns.Extra r).
Proof.
  split; [vm_compute; reflexivity|]. split; [vm_compute; reflexivity|].
  intros [data Hin]. vm_compute in Hin.
  apply list_elem_of_singleton in Hin. discriminate Hin.
Qed.

(** C7 (the code departs from it).  A malformed CIDR entry that the
    allowlist loop reaches is logged and then used: [cidr] is nil and
    [cidr.Contains] panics, so origin IP resolution does not return a
    host.  Here the entry is the first of the list. *)
Theorem malformed_cidr_entry_panics
    `{NetPkg} (h : DNSServer) (w : ResponseWriter) (r : dns.Msg)
    (w0 : World) (test : string) (rest : list string) :
  0 <= OriginIPEDNSopt (options h) ->
  RealIPFrom (options h) = test :: rest ->
  Strings.ContainsChar test "/" = true ->
  ParseCIDR test = None ->
  getMsgHost h w r w0
  = Panicked "invalid memory address or nil pointer dereference"
             (mkWorld (Stats_Dns w0) (draws w0)
                      (events w0 ++ [EvLog Error "Invalid CIDR format"])).
Proof.
  intros Hopt Hl Hc Hp. unfold getMsgHost.
  destruct (Z.ltb_spec (OriginIPEDNSopt (options h)) 0); [lia|].
  rewrite Hl. unfold bind. simpl. by rewrite Hc, Hp.
Qed.

Lemma malformed_cidr_entry_panics_witness :
  getMsgHost (Sample.server_of (Sample.opts_origin 0 ["10.0.0.0/33"]))
             Sample.writer (Sample.query "ab12.oob.example." dns.TypeA)
             Sample.world0
  = Panicked "invalid memory address or nil pointer dereference"
             (mkWorld 0 0 [EvLog Error "Invalid CIDR format"]).
Proof.
  apply (malformed_cidr_entry_panics
           (Sample.server_of (Sample.opts_origin 0 ["10.0.0.0/33"]))
           Sample.writer (Sample.query "ab12.oob.example." dns.TypeA)
           Sample.world0 "10.0.0.0/33" []).
  - vm_compute. discriminate.
  - reflexivity.
  - reflexivity.
  - reflexivity.
Defined.

(** The handler of a query that carries an identifier panics with it:
    no response is written. *)
Example malformed_cidr_entry_aborts_the_handler :
  ServeDNS Sample.env (Sample.server_of (Sample.opts_origin 0 ["10.0.0.0/33"]))
           Sample.writer (Sample.query "ab12.oob.example." dns.TypeA)
           Sample.world0
  = Panicked "invalid memory address or nil pointer dereference"
             (mkWorld 1 0 [EvLog Error "Invalid CIDR format"]).
Proof. vm_compute. reflexivity. Qed.

Lemma at_most_one_interaction_and_last_match_wins_witness :
  exists tr,
    Sample.events_of
      (ServeDNS Sample.env Sample.server Sample.writer
                (Sample.query "aaaa.bbbb.oob.example." dns.TypeA))
    = [] ++ tr
    /\ (length (stored tr) <= 1)%nat
    /\ forall key data,
         (key, data) ∈ stored tr ->
         exists q0 i,
           head (dns.Questions (Sample.query "aaaa.bbbb.oob.example." dns.TypeA))
           = Some q0
           /\ jsonEncode Sample.env i = Some data
           /\ key = getCorrelationID Sample.opts (UniqueID i)
           /\ last_match Sample.env Sample.opts (dns.QName q0)
                (Sample.query "aaaa.bbbb.oob.example." dns.TypeA)
              = Some (UniqueID i).
Proof.
  exact (at_most_one_interaction_and_last_match_wins Sample.env Sample.server
           Sample.writer (Sample.query "aaaa.bbbb.oob.example." dns.TypeA)
           Sample.world0).
Defined.

(** * Further properties of the code *)

(** ** The splitter *)

Section Splitter.
Import Strings.

Lemma cut_length s :
  length (cut is_label_sep s) = S (count_seps s).
Proof.
  induction s as [|c s IH]; simpl; [done|].
  destruct (is_label_sep c); simpl; [by rewrite IH|].
  pose proof (cut_nonempty is_label_sep s).
  destruct (cut is_label_sep s); [done|]. simpl in *. lia.
Qed.

Lemma cut_pieces_free s :
  Forall (fun t => all_chars (fun c => negb (is_label_sep c)) t = true)
         (cut is_label_sep s).
Proof.
  induction s as [|c s IH]; simpl; [by repeat constructor|].
  destruct (is_label_sep c) eqn:Hc; [by constructor|].
  destruct (cut is_label_sep s) as [|h t]; [by repeat constructor; simpl; rewrite Hc|].
  inversion IH as [|? ? Hh Ht]; subst. constructor; [|done].
  simpl. by rewrite Hc, Hh.
Qed.

Lemma Join_cons_char c h t sep :
  Join (String c h :: t) sep = String c (Join (h :: t) sep).
Proof. by destruct t. Qed.

Lemma cut_Join_back s :
  ContainsChar s "_" = false -> Join (cut is_label_sep s) "-" = s.
Proof.
  induction s as [|c s IH]; simpl; [done|].
  intros [Hc Hs]%orb_false_iff. specialize (IH Hs).
  unfold is_label_sep at 1. rewrite Hc, orb_false_r.
  destruct (Ascii.eqb_spec c "-") as [->|Hne].
  - pose proof (cut_nonempty is_label_sep s).
    destruct (cut is_label_sep s) as [|h t] eqn:E; [done|].
    change (Join ("" :: h :: t) "-") with ("" +:+ "-" +:+ Join (h :: t) "-").
    by rewrite IH.
  - pose proof (cut_nonempty is_label_sep s).
    destruct (cut is_label_sep s) as [|h t] eqn:E; [done|].
    by rewrite Join_cons_char, IH.
Qed.

(** X1.  [splitSubdomainParts] cuts at every hyphen and underscore: it
    returns one more piece than the label has separators (so never an
    empty slice), no piece holds a separator, and joining the pieces
    of a label without underscores with hyphens gives the label back. *)
Theorem splitSubdomainParts_pieces (s : string) :
  length (splitSubdomainParts s) = S (count_seps s)
  /\ Forall (fun t => all_chars (fun c => negb (is_label_sep c)) t = true)
            (splitSubdomainParts s)
  /\ (ContainsChar s "_" = false -> Join (splitSubdomainParts s) "-" = s).
Proof.
  rewrite splitSubdomainParts_cut.
  split; [apply cut_length|]. split; [apply cut_pieces_free|].
  apply cut_Join_back.
Qed.
End Splitter.

Lemma splitSubdomainParts_pieces_witness :
  Strings.Join (splitSubdomainParts "ff000001--ff000002") "-"
  = "ff000001--ff000002".
Proof.
  exact (proj2 (proj2 (splitSubdomainParts_pieces "ff000001--ff000002"))
               eq_refl).
Defined.

(** ** The custom records engine *)

Section CustomRecordsMore.
Context `{NetPkg} (env : Env).
Import Strings.

Lemma random_choice_world ips w0 :
  ips <> [] ->
  exists ip,
    random_choice env ips w0
    = Done ip (mkWorld (Stats_Dns w0) (S (draws w0)) (events w0))
    /\ ip ∈ ips.
Proof.
  intros Hne. destruct (random_choice_draws env ips w0 Hne) as [ip [Hr Hl]].
  exists ip. split; [done|]. eapply list_elem_of_lookup_2. exact Hl.
Qed.

(** X2.  Neither resolver panics: [rand.Intn] is reached with a
    positive bound only and its result indexes the list in range.  A
    lookup leaves the counter and the events alone and takes at most
    one random draw. *)
Theorem custom_lookups_return
    (c : customDNSRecords) (zone : string) (w0 : World) :
  (exists v w',
      checkCustomResponse env c zone w0 = Done v w'
      /\ Stats_Dns w' = Stats_Dns w0 /\ events w' = events w0
      /\ (draws w' = draws w0 \/ draws w' = S (draws w0)))
  /\ (exists v w',
        checkCustomAAAAResponse env c zone w0 = Done v w'
        /\ Stats_Dns w' = Stats_Dns w0 /\ events w' = events w0
        /\ (draws w' = draws w0 \/ draws w' = S (draws w0))).
Proof.
  split.
  - unfold checkCustomResponse.
    destruct (SplitN2 zone ".") as [|label [|rest [|? ?]]];
      try (exists "", w0; by auto).
    destruct (records c !! ToLower label) as [v|]; [exists v, w0; by auto|].
    destruct (Nat.eqb _ 1); [exists "", w0; by auto|].
    destruct (collect_v4 c _ []) as [|ip ips] eqn:Hc;
      [exists "", w0; by auto|].
    simpl. destruct (random_choice_world (ip :: ips) w0) as [v [Hr _]];
      [done|].
    rewrite Hr. do 2 eexists. split; [reflexivity|]. simpl. auto.
  - unfold checkCustomAAAAResponse.
    destruct (SplitN2 zone ".") as [|label [|rest [|? ?]]];
      try (exists "", w0; by auto).
    destruct (v6Records c !! ToLower label) as [v|]; [exists v, w0; by auto|].
    destruct (Nat.eqb _ 1); [exists "", w0; by auto|].
    destruct (collect_v6 c _ []) as [|ip ips] eqn:Hc;
      [exists "", w0; by auto|].
    simpl. destruct (random_choice_world (ip :: ips) w0) as [v [Hr _]];
      [done|].
    rewrite Hr. do 2 eexists. split; [reflexivity|]. simpl. auto.
Qed.

(** X3.  A static record wins over everything else: when the
    lower-cased leftmost label is a key of the record map, the mapped
    value is returned, without a random draw, whatever the rest of the
    name, the case of the label and the sub-tokens it splits into. *)
Theorem static_record_is_returned
    (c : customDNSRecords) (label rest v : string) (w0 : World) :
  ContainsChar label "." = false ->
  (records c !! ToLower label = Some v ->
   checkCustomResponse env c (label +:+ "." +:+ rest) w0 = Done v w0)
  /\ (v6Records c !! ToLower label = Some v ->
      checkCustomAAAAResponse env c (label +:+ "." +:+ rest) w0 = Done v w0).
Proof.
  intros Hl.
  change (label +:+ "." +:+ rest) with (label +:+ String "." rest).
  split; intros Hv.
  - unfold checkCustomResponse. by rewrite (SplitN2_first _ rest "." Hl), Hv.
  - unfold checkCustomAAAAResponse.
    by rewrite (SplitN2_first _ rest "." Hl), Hv.
Qed.

Lemma collect_v6_resolve c ts : forall ips,
  collect_v6 c ts ips = ips ++ omap (resolve6 c) ts.
Proof.
  induction ts as [|t ts IH]; intros ips; simpl.
  - by rewrite app_nil_r.
  - unfold resolve6 at 1. destruct (String.eqb t "").
    + rewrite IH. by rewrite <- app_assoc.
    + destruct (subdomainV6Records c !! ToLower t);
        rewrite IH; [by rewrite <- app_assoc|done].
Qed.

(** X4.  The v6 resolver, for a label [t1-...-tn] with [n >= 2] that
    is no key of the v6 record map: it returns an element of what the
    tokens contribute (the sentinel for an empty token, the v6 overlay
    value for a key; a hexadecimal token is no special case), and the
    empty string when they contribute nothing. *)
Theorem v6_resolver_draws_from_resolved_tokens
    (c : customDNSRecords) (ts : list string) (rest : string) (w0 : World) :
  (2 <= length ts)%nat ->
  Forall is_token ts ->
  v6Records c !! ToLower (Join ts "-") = None ->
  match omap (resolve6 c) ts with
  | [] =>
      checkCustomAAAAResponse env c (Join ts "-" +:+ "." +:+ rest) w0
      = Done "" w0
  | candidates =>
      exists ip w',
        checkCustomAAAAResponse env c (Join ts "-" +:+ "." +:+ rest) w0
        = Done ip w'
        /\ ip ∈ candidates
  end.
Proof.
  intros Hlen Hts Hrec.
  assert (ts <> []) as Hne by (destruct ts; [simpl in Hlen; lia|done]).
  unfold checkCustomAAAAResponse.
  change (Join ts "-" +:+ "." +:+ rest)
    with (Join ts "-" +:+ String "." rest).
  rewrite (SplitN2_first _ rest "." (Join_no_dot ts Hts)), Hrec.
  rewrite (splitSubdomainParts_Join ts Hts Hne).
  destruct (Nat.eqb_spec (length ts) 1) as [Heq|_]; [lia|].
  rewrite collect_v6_resolve. simpl.
  destruct (omap (resolve6 c) ts) as [|x cands] eqn:Hc; [done|].
  simpl.
  destruct (random_choice_world (x :: cands) w0) as [ip [Hr Hin]]; [done|].
  exists ip. eexists. by split.
Qed.
End CustomRecordsMore.

Lemma static_record_is_returned_witness :
  checkCustomResponse Sample.env (customRecords Sample.server)
    "AWS.oob.example." Sample.world0
  = Done "169.254.169.254" Sample.world0.
Proof.
  apply (proj1 (static_record_is_returned Sample.env
                  (customRecords Sample.server) "AWS" "oob.example."
                  "169.254.169.254" Sample.world0 eq_refl)).
  vm_compute. reflexivity.
Defined.

Lemma v6_resolver_draws_from_resolved_tokens_witness :
  exists ip w',
    checkCustomAAAAResponse Sample.env Sample.custom_v6
      "deadbeef-six.oob.example." Sample.world0 = Done ip w'
    /\ ip ∈ ["2001:db8::6"].
Proof.
  apply (v6_resolver_draws_from_resolved_tokens Sample.env Sample.custom_v6
           ["deadbeef"; "six"] "oob.example." Sample.world0).
  - simpl. lia.
  - repeat constructor.
  - vm_compute. reflexivity.
Defined.

(** ** Construction *)

Section Construction.
Context `{NetPkg} (env : Env).
Import Strings.

Lemma copy_into_lookup f src : forall dst k,
  copy_into f src dst !! k
  = match assoc_last f src k with
    | Some v => Some v
    | None => dst !! k
    end.
Proof.
  unfold copy_into, assoc_last.
  induction src as [|[k0 v0] src IH] using rev_ind; intros dst k; [done|].
  rewrite foldl_snoc, List.filter_app. simpl.
  destruct (String.eqb_spec (f k0) k) as [->|Hne].
  - rewrite last_snoc. simpl. apply lookup_insert_eq.
  - rewrite app_nil_r, lookup_insert_ne by done. apply IH.
Qed.

Lemma derive_names_lookup domains k :
  fst (derive_names domains) !! k
  = (if bool_decide (k ∈ map dnsname.Fqdn domains)
     then Some ("mail." +:+ k) else None)
  /\ snd (derive_names domains) !! k
     = (if bool_decide (k ∈ map dnsname.Fqdn domains)
        then Some ["ns1." +:+ k; "ns2." +:+ k] else None).
Proof.
  unfold derive_names.
  induction domains as [|x domains [IH1 IH2]] using rev_ind; [done|].
  rewrite foldl_snoc, map_app. simpl.
  destruct (decide (dnsname.Fqdn x = k)) as [<-|Hne].
  - rewrite !lookup_insert_eq.
    rewrite bool_decide_eq_true_2; [done|].
    apply elem_of_app. right. left.
  - rewrite !lookup_insert_ne by done. rewrite IH1, IH2.
    assert (k ∈ map dnsname.Fqdn domains ++ [dnsname.Fqdn x]
            <-> k ∈ map dnsname.Fqdn domains) as Hiff.
    { rewrite elem_of_app, list_elem_of_singleton.
      split; [intros [?|?]; [done|congruence]|by left]. }
    by rewrite (bool_decide_ext _ _ Hiff).
Qed.

Lemma last_maybe_cons (o : option string) (rest : list string)
    (d : option string) :
  match last (match o with
              | Some a => a :: rest
              | None => rest
              end) with
  | Some a => Some a
  | None => d
  end
  = match last rest with
    | Some a => Some a
    | None => match o with Some a => Some a | None => d end
    end.
Proof.
  destruct o as [a|]; [|reflexivity].
  destruct rest as [|b rest]; [reflexivity|]. rewrite last_cons_cons.
  destruct (last (b :: rest)) eqn:E; [done|]. by apply last_None in E.
Qed.

(** One step of the proof below: the map after the whole list at the
    key [k], from the map after the first string. *)
Ltac overlay_step IHk Hm :=
  cbn [omap list_omap]; rewrite last_maybe_cons, IHk;
  destruct (last _); [done|];
  unfold overlay_entry; rewrite Hm;
  repeat match goal with
         | Hx : is_nil _ = _ |- _ => rewrite Hx
         end;
  simpl; try done;
  match goal with
  | |- context [String.eqb ?a ?b] =>
      destruct (String.eqb_spec a b) as [->|?];
      [by rewrite lookup_insert_eq|by rewrite lookup_insert_ne]
  end.

Lemma subdomain_overlays_lookup l : forall v4 v6 w0,
  exists v4' v6' w',
    subdomain_overlays l v4 v6 w0 = Done (v4', v6') w'
    /\ (forall k, v4' !! k = match overlay_lookup true l k with
                            | Some a => Some a
                            | None => v4 !! k
                            end)
    /\ (forall k, v6' !! k = match overlay_lookup false l k with
                            | Some a => Some a
                            | None => v6 !! k
                            end)
    /\ Stats_Dns w' = Stats_Dns w0 /\ draws w' = draws w0.
Proof.
  unfold overlay_lookup.
  induction l as [|m l IH]; intros v4 v6 w0; [by exists v4, v6, w0|].
  cbn [subdomain_overlays].
  destruct (SplitN2 m "=") as [|name [|addr [|? ?]]] eqn:Hm;
    try (destruct (IH v4 v6 w0) as (a & b & w' & -> & H4 & H6 & Hs);
         exists a, b, w'; split; [done|]; split; [|split]; [| |done];
         intros k; [overlay_step (H4 k) Hm|overlay_step (H6 k) Hm]).
  destruct (is_nil (ParseIP addr)) eqn:Hnil.
  - unfold bind, emit.
    destruct (IH v4 v6 (mkWorld (Stats_Dns w0) (draws w0)
                (events w0 ++ [EvLog Warning "Invalid DnsSubdomainRecord"])))
      as (a & b & w' & -> & H4 & H6 & Hs).
    exists a, b, w'. split; [done|]. split; [|split]; [| |done];
      intros k; [overlay_step (H4 k) Hm|overlay_step (H6 k) Hm].
  - destruct (is_nil (net.To4 (ParseIP addr))) eqn:H4nil; simpl.
    + destruct (IH v4 (<[ToLower name:=addr]> v6) w0)
        as (a & b & w' & -> & H4 & H6 & Hs).
      exists a, b, w'. split; [done|]. split; [|split]; [| |done];
        intros k; [overlay_step (H4 k) Hm|overlay_step (H6 k) Hm].
    + destruct (IH (<[ToLower name:=addr]> v4) v6 w0)
        as (a & b & w' & -> & H4 & H6 & Hs).
      exists a, b, w'. split; [done|]. split; [|split]; [| |done];
        intros k; [overlay_step (H4 k) Hm|overlay_step (H6 k) Hm].
Qed.
Lemma newCustomDNSRecordsServer_maps o w1 :
  let file := if negb (String.eqb (CustomRecords o) "")
              then decodeRecordsFile env (CustomRecords o) else None in
  exists c w2,
    newCustomDNSRecordsServer env o w1 = Done c w2
    /\ (forall k, records c !! k = static_v4 file k)
    /\ (forall k, v6Records c !! k = static_v6 file k)
    /\ (forall k, subdomainRecords c !! k
                  = overlay_lookup true (DnsSubdomainRecords o) k)
    /\ (forall k, subdomainV6Records c !! k
                  = overlay_lookup false (DnsSubdomainRecords o) k)
    /\ Stats_Dns w2 = Stats_Dns w1 /\ draws w2 = draws w1.
Proof.
  intros file. unfold newCustomDNSRecordsServer, bind.
  destruct (subdomain_overlays_lookup (DnsSubdomainRecords o) empty empty w1)
    as (v4 & v6 & w' & -> & H4 & H6 & Hs & Hd).
  assert (forall k, v4 !! k = overlay_lookup true (DnsSubdomainRecords o) k)
    as H4'.
  { intros k. rewrite H4. destruct (overlay_lookup _ _ _); [done|].
    apply lookup_empty. }
  assert (forall k, v6 !! k = overlay_lookup false (DnsSubdomainRecords o) k)
    as H6'.
  { intros k. rewrite H6. destruct (overlay_lookup _ _ _); [done|].
    apply lookup_empty. }
  assert (forall k, copy_into id defaultCustomRecords empty !! k
                    = assoc_last id defaultCustomRecords k) as Hd4.
  { intros k. rewrite copy_into_lookup. destruct (assoc_last _ _ _); [done|].
    apply lookup_empty. }
  assert (forall k, copy_into id defaultCustomV6Records empty !! k
                    = assoc_last id defaultCustomV6Records k) as Hd6.
  { intros k. rewrite copy_into_lookup. destruct (assoc_last _ _ _); [done|].
    apply lookup_empty. }
  cbn [fst snd]. unfold file, static_v4, static_v6.
  destruct (negb (String.eqb (CustomRecords o) "")).
  - unfold readRecordsFromFile.
    destruct (decodeRecordsFile env (CustomRecords o)) as [data|]; simpl.
    + do 2 eexists. split; [reflexivity|]. simpl.
      repeat split; try done; intros k; rewrite copy_into_lookup;
        destruct (assoc_last ToLower _ k); done.
    + do 2 eexists. split; [reflexivity|]. simpl. by repeat split.
  - do 2 eexists. split; [reflexivity|]. simpl. by repeat split.
Qed.

Lemma NewDNSServer_returns (o : Options) (w1 : World) :
  exists h w2,
    NewDNSServer env o w1 = Done h w2
    /\ options h = o
    /\ timeToLive h = uint32 (DnsTTL o)
    /\ forall k,
         mxDomains h !! k
         = (if bool_decide (k ∈ map dnsname.Fqdn (Domains o))
            then Some ("mail." +:+ k) else None)
         /\ nsDomains h !! k
            = (if bool_decide (k ∈ map dnsname.Fqdn (Domains o))
               then Some ["ns1." +:+ k; "ns2." +:+ k] else None).
Proof.
  unfold NewDNSServer, bind.
  destruct (newCustomDNSRecordsServer_maps o w1) as (c & w2 & -> & _).
  do 2 eexists. split; [reflexivity|]. simpl. repeat split;
    apply derive_names_lookup.
Qed.

(** X5.  [NewDNSServer] always returns a server, for the options it
    was given and with the TTL reduced to 32 bits.  Its MX and NS
    tables have exactly the FQDNs of the configured apexes as keys,
    each with [mail.<apex>] and with [ns1.<apex>], [ns2.<apex>]. *)
Theorem NewDNSServer_derives_the_names (o : Options) (w1 : World) :
  exists h w2,
    NewDNSServer env o w1 = Done h w2
    /\ options h = o
    /\ timeToLive h = uint32 (DnsTTL o)
    /\ forall k,
         mxDomains h !! k
         = (if bool_decide (k ∈ map dnsname.Fqdn (Domains o))
            then Some ("mail." +:+ k) else None)
         /\ nsDomains h !! k
            = (if bool_decide (k ∈ map dnsname.Fqdn (Domains o))
               then Some ["ns1." +:+ k; "ns2." +:+ k] else None).
Proof. exact (NewDNSServer_returns o w1). Qed.

(** X6.  The per-sub-token overlays of a new server: under a key, the
    v4 overlay holds the address of the last [name=ip] string whose
    lower-cased name is the key and whose address parses as IPv4, the
    v6 overlay that of the last one whose address parses and is not
    IPv4; strings of another form or with an address that does not
    parse leave no entry. *)
Theorem overlays_hold_the_last_valid_entry (o : Options) (w1 : World) :
  exists c w2,
    newCustomDNSRecordsServer env o w1 = Done c w2
    /\ forall k,
         subdomainRecords c !! k
         = overlay_lookup true (DnsSubdomainRecords o) k
         /\ subdomainV6Records c !! k
            = overlay_lookup false (DnsSubdomainRecords o) k.
Proof.
  destruct (newCustomDNSRecordsServer_maps o w1)
    as (c & w2 & Hn & _ & _ & H4 & H6 & _).
  exists c, w2. split; [done|]. intros k. by split.
Qed.

(** X7.  The static records of a new server: under a key, the value
    of the last pair of the custom-records file whose lower-cased name
    is the key, taken as it is written, and otherwise the default
    record; without a file, or when it cannot be read, the defaults
    alone. *)
Theorem static_records_are_the_file_over_the_defaults
    (o : Options) (w1 : World) :
  let file := if negb (String.eqb (CustomRecords o) "")
              then decodeRecordsFile env (CustomRecords o) else None in
  exists c w2,
    newCustomDNSRecordsServer env o w1 = Done c w2
    /\ forall k,
         records c !! k = static_v4 file k
         /\ v6Records c !! k = static_v6 file k.
Proof.
  intros file.
  destruct (newCustomDNSRecordsServer_maps o w1)
    as (c & w2 & Hn & H4 & H6 & _).
  exists c, w2. split; [done|]. intros k. by split.
Qed.
End Construction.

(** ** The synthetic records *)

Section SyntheticRecords.
Context `{NetPkg} (env : Env).
Import Strings.

Lemma built_server_tables o w1 h w2 :
  NewDNSServer env o w1 = Done h w2 ->
  options h = o
  /\ forall k,
       mxDomains h !! k
       = (if bool_decide (k ∈ map dnsname.Fqdn (Domains o))
          then Some ("mail." +:+ k) else None)
       /\ nsDomains h !! k
          = (if bool_decide (k ∈ map dnsname.Fqdn (Domains o))
             then Some ["ns1." +:+ k; "ns2." +:+ k] else None).
Proof.
  intros Hn.
  destruct (NewDNSServer_returns env o w1) as (h' & w' & Hn' & Ho & _ & Hl).
  rewrite Hn in Hn'. injection Hn' as <- <-. by split.
Qed.

Lemma primary_is_configured d0 (ds : list string) :
  bool_decide (dnsname.Fqdn d0 ∈ map dnsname.Fqdn (d0 :: ds)) = true.
Proof. apply bool_decide_eq_true_2. left. Qed.

(** X8.  [handleMX] on a server built by [NewDNSServer] with a
    non-empty apex list: it adds exactly one MX record to the answer,
    with preference 1 and the target [mail.<apex>], where the apex is
    the zone itself when that is the FQDN of a configured apex (an
    exact, case-sensitive match) and the primary apex otherwise; the
    other sections stay as they are. *)
Theorem handleMX_answers_with_the_mail_name
    (o : Options) (w1 w2 : World) (h : DNSServer) (d0 : string)
    (ds : list string) (zone : string) (m : dns.Msg) (w : World) :
  NewDNSServer env o w1 = Done h w2 ->
  Domains o = d0 :: ds ->
  exists m',
    handleMX h zone m w = Done m' w
    /\ dns.Answer m'
       = dns.Answer m
         ++ [dns.MX (dns.mkHdr zone dns.TypeMX dns.ClassINET (timeToLive h)) 1
                    ("mail." +:+ answering_apex (Domains o) zone d0)]
    /\ dns.Ns m' = dns.Ns m /\ dns.Extra m' = dns.Extra m.
Proof.
  intros Hn Hd. destruct (built_server_tables o w1 h w2 Hn) as [Ho Hl].
  unfold handleMX, dotDomains_of, bind, ret. rewrite Ho, Hd.
  cbn [mx_block]. unfold answering_apex.
  rewrite (proj1 (Hl zone)), (proj1 (Hl (dnsname.Fqdn d0))), Hd.
  rewrite primary_is_configured.
  destruct (bool_decide (zone ∈ _)); eexists; (split; [reflexivity|]);
    by simpl.
Qed.

(** X9.  [handleNS] on such a server adds exactly the two NS records
    [ns1.<apex>] and [ns2.<apex>] to the answer, in this order, for
    the same choice of apex. *)
Theorem handleNS_answers_with_both_name_servers
    (o : Options) (w1 w2 : World) (h : DNSServer) (d0 : string)
    (ds : list string) (zone : string) (m : dns.Msg) (w : World) :
  NewDNSServer env o w1 = Done h w2 ->
  Domains o = d0 :: ds ->
  exists m',
    handleNS h zone m w = Done m' w
    /\ dns.Answer m'
       = dns.Answer m
         ++ ns_records h zone
              ["ns1." +:+ answering_apex (Domains o) zone d0;
               "ns2." +:+ answering_apex (Domains o) zone d0]
    /\ dns.Ns m' = dns.Ns m /\ dns.Extra m' = dns.Extra m.
Proof.
  intros Hn Hd. destruct (built_server_tables o w1 h w2 Hn) as [Ho Hl].
  unfold handleNS, dotDomains_of, bind, ret. rewrite Ho, Hd.
  cbn [ns_answer]. unfold answering_apex.
  rewrite (proj2 (Hl zone)), (proj2 (Hl (dnsname.Fqdn d0))), Hd.
  rewrite primary_is_configured.
  destruct (bool_decide (zone ∈ _)); eexists; (split; [reflexivity|]);
    simpl; by rewrite <- app_assoc.
Qed.

(** X10.  [handleSOA] on such a server adds exactly one SOA record,
    with TTL 0, the name server [ns1.<apex>], the mailbox of the
    certificate authority, serial 1, refresh and retry 0, expire and
    minimum TTL 60. *)
Theorem handleSOA_answers_with_one_record
    (o : Options) (w1 w2 : World) (h : DNSServer) (d0 : string)
    (ds : list string) (zone : string) (m : dns.Msg) (w : World) :
  NewDNSServer env o w1 = Done h w2 ->
  Domains o = d0 :: ds ->
  exists m',
    handleSOA env h zone m w = Done m' w
    /\ dns.Answer m'
       = dns.Answer m
         ++ [dns.SOA (dns.mkHdr zone dns.TypeSOA dns.ClassINET 0)
                     ("ns1." +:+ answering_apex (Domains o) zone d0)
                     (CertificateAuthority env) 1 0 0 60 60]
    /\ dns.Ns m' = dns.Ns m /\ dns.Extra m' = dns.Extra m.
Proof.
  intros Hn Hd. destruct (built_server_tables o w1 h w2 Hn) as [Ho Hl].
  unfold handleSOA, dotDomains_of, bind, ret. rewrite Ho, Hd.
  cbn [soa_answer]. unfold answering_apex.
  rewrite (proj2 (Hl zone)), (proj2 (Hl (dnsname.Fqdn d0))), Hd.
  rewrite primary_is_configured.
  destruct (bool_decide (zone ∈ _)); eexists; (split; [reflexivity|]);
    by simpl.
Qed.

(** X11.  With an empty apex list every handler that builds
    [dotDomains] panics on [Domains[0]]: the A, AAAA, MX, NS and SOA
    handlers never return, whatever the zone. *)
Theorem handlers_panic_without_an_apex
    (h : DNSServer) (zone : string) (m : dns.Msg) (w : World) :
  Domains (options h) = [] ->
  (exists w', handleACNAMEANY env h zone m w
              = Panicked "index out of range" w')
  /\ (exists w', handleAAAACNAMEANY env h zone m w
                 = Panicked "index out of range" w')
  /\ handleMX h zone m w = Panicked "index out of range" w
  /\ handleNS h zone m w = Panicked "index out of range" w
  /\ handleSOA env h zone m w = Panicked "index out of range" w.
Proof.
  intros Hd. repeat split.
  - unfold handleACNAMEANY, bind.
    destruct (checkCustomResponse_returns env (customRecords h) zone w)
      as (v & w' & ->).
    exists w'. unfold resultFunction, dotDomains_of, bind. rewrite Hd.
    by destruct (negb _).
  - unfold handleAAAACNAMEANY, bind.
    destruct (checkCustomAAAAResponse_returns env (customRecords h) zone w)
      as (v & w' & ->).
    exists w'. unfold resultFunctionAAAA, dotDomains_of, bind. rewrite Hd.
    by destruct (negb _).
  - unfold handleMX, dotDomains_of, bind. by rewrite Hd.
  - unfold handleNS, dotDomains_of, bind. by rewrite Hd.
  - unfold handleSOA, dotDomains_of, bind. by rewrite Hd.
Qed.
End SyntheticRecords.

Lemma handleMX_answers_with_the_mail_name_witness :
  exists m',
    handleMX Sample.server "alien.example." dns.new_Msg Sample.world0
    = Done m' Sample.world0
    /\ dns.Answer m'
       = [] ++ [dns.MX (dns.mkHdr "alien.example." dns.TypeMX dns.ClassINET 60)
                       1 "mail.oob.example."]
    /\ dns.Ns m' = [] /\ dns.Extra m' = [].
Proof.
  exact (handleMX_answers_with_the_mail_name Sample.env Sample.opts
           Sample.world0 Sample.world0 Sample.server "oob.example" []
           "alien.example." dns.new_Msg Sample.world0 eq_refl eq_refl).
Defined.

Lemma handleNS_answers_with_both_name_servers_witness :
  exists m',
    handleNS Sample.server "oob.example." dns.new_Msg Sample.world0
    = Done m' Sample.world0
    /\ dns.Answer m'
       = [] ++ ns_records Sample.server "oob.example."
                 ["ns1.oob.example."; "ns2.oob.example."]
    /\ dns.Ns m' = [] /\ dns.Extra m' = [].
Proof.
  exact (handleNS_answers_with_both_name_servers Sample.env Sample.opts
           Sample.world0 Sample.world0 Sample.server "oob.example" []
           "oob.example." dns.new_Msg Sample.world0 eq_refl eq_refl).
Defined.

Lemma handleSOA_answers_with_one_record_witness :
  exists m',
    handleSOA Sample.env Sample.server "x.oob.example." dns.new_Msg
              Sample.world0
    = Done m' Sample.world0
    /\ dns.Answer m'
       = [] ++ [dns.SOA (dns.mkHdr "x.oob.example." dns.TypeSOA dns.ClassINET 0)
                        "ns1.oob.example." "hostmaster.oob.example."
                        1 0 0 60 60]
    /\ dns.Ns m' = [] /\ dns.Extra m' = [].
Proof.
  exact (handleSOA_answers_with_one_record Sample.env Sample.opts
           Sample.world0 Sample.world0 Sample.server "oob.example" []
           "x.oob.example." dns.new_Msg Sample.world0 eq_refl eq_refl).
Defined.

Lemma handlers_panic_without_an_apex_witness :
  handleMX (Sample.server_of Sample.opts_no_apex) "x.oob.example."
           dns.new_Msg Sample.world0
  = Panicked "index out of range" Sample.world0.
Proof.
  exact (proj1 (proj2 (proj2 (handlers_panic_without_an_apex Sample.env
           (Sample.server_of Sample.opts_no_apex) "x.oob.example."
           dns.new_Msg Sample.world0 eq_refl)))).
Defined.

(** ** The handler, as a whole *)

Section HandlerShape.
Context `{NetPkg} (env : Env).

(** [ServeDNS] after the counter: nothing for an empty question
    section; otherwise the loop over the questions and, when it runs
    to its end, the dispatch, the write and its log. *)
Lemma ServeDNS_shape h w r w0 :
  let w1 := mkWorld (uint64 (Stats_Dns w0 + 1)) (draws w0) (events w0) in
  ServeDNS env h w r w0
  = match dns.Questions r with
    | [] => Done tt w1
    | q0 :: _ =>
        match serve_questions env h (dns.Questions r) (reply0 r) false w1 with
        | Done (Some (m, flag)) w2 =>
            ((if negb flag
              then handleInteraction env h (dns.QName q0) w r m
              else ret tt) ;;;
             emit (EvWriteMsg m) ;;;
             if WriteMsg_fails env m
             then emit (EvLog Warning "Could not write DNS response")
             else ret tt) w2
        | Done None w2 => Done tt w2
        | Panicked why w2 => Panicked why w2
        end
    end.
Proof.
  intros w1. unfold ServeDNS, bind at 1. simpl. fold w1. fold (reply0 r).
  destruct (dns.Questions r) as [|q0 qs]; [done|].
  unfold bind at 1.
  by destruct (serve_questions env h (q0 :: qs) (reply0 r) false w1)
    as [[[m flag]|] w2|].
Qed.

Lemma written_app t1 t2 : written (t1 ++ t2) = written t1 ++ written t2.
Proof. apply omap_app. Qed.

Lemma handleInteraction_not_WriteMsg h domain w r m :
  appends not_WriteMsg (handleInteraction env h domain w r m).
Proof.
  eapply appends_weaken; [|apply appends_handleInteraction].
  intros e [He|He]; by destruct e.
Qed.

(** The responses a message leaves: none, or the reply the loop over
    the questions ended with. *)
Lemma ServeDNS_written h w r w0 :
  let w1 := mkWorld (uint64 (Stats_Dns w0 + 1)) (draws w0) (events w0) in
  exists tr,
    events (final (ServeDNS env h w r w0)) = events w0 ++ tr
    /\ (written tr = []
        \/ exists m flag w2,
            serve_questions env h (dns.Questions r) (reply0 r) false w1
            = Done (Some (m, flag)) w2
            /\ written tr = [m]).
Proof.
  intros w1. rewrite ServeDNS_shape. fold w1.
  destruct (dns.Questions r) as [|q0 qs] eqn:Hq.
  { exists []. simpl. rewrite app_nil_r. by split; [|left]. }
  destruct (appends_serve_questions env h (q0 :: qs) (reply0 r) false w1)
    as [tr1 [E1 F1]].
  assert (written tr1 = []) as Hw1.
  { apply written_quiet. eapply Forall_impl; [exact F1|].
    apply Printf_not_WriteMsg. }
  destruct (serve_questions env h (q0 :: qs) (reply0 r) false w1)
    as [[[m flag]|] w2|] eqn:Hs; simpl in E1;
    [|exists tr1; split; [done|by left]..].
  assert (appends not_WriteMsg
            (if negb flag
             then handleInteraction env h (dns.QName q0) w r m
             else ret tt)) as Hi.
  { destruct (negb flag); [apply handleInteraction_not_WriteMsg|].
    apply appends_ret. }
  destruct (Hi w2) as [tr2 [E2 F2]]. unfold bind at 1.
  destruct ((if negb flag
             then handleInteraction env h (dns.QName q0) w r m
             else ret tt) w2) as [[] w3|why w3]; simpl in E2.
  - assert (exists logs,
               events (final ((emit (EvWriteMsg m) ;;;
                               if WriteMsg_fails env m
                               then emit (EvLog Warning
                                            "Could not write DNS response")
                               else ret tt) w3))
               = events w3 ++ EvWriteMsg m :: logs
               /\ written logs = []) as (logs & E3 & Hl).
    { unfold bind, emit. destruct (WriteMsg_fails env m); simpl.
      - exists [EvLog Warning "Could not write DNS response"].
        by rewrite <- app_assoc.
      - by exists []. }
    exists (tr1 ++ tr2 ++ EvWriteMsg m :: logs). split.
    + rewrite E3, E2, E1. by rewrite <- !app_assoc.
    + right. exists m, flag, w2. split; [done|].
      rewrite !written_app, Hw1, (written_quiet _ F2). simpl.
      by rewrite Hl.
  - exists (tr1 ++ tr2). split.
    + simpl. rewrite E2, E1. by rewrite <- app_assoc.
    + left. by rewrite written_app, Hw1, (written_quiet _ F2).
Qed.
End HandlerShape.

Section Headers.
Context `{NetPkg} (env : Env).

Lemma same_header_refl m : same_header m m.
Proof. by repeat split. Qed.

Lemma same_header_trans m1 m2 m3 :
  same_header m1 m2 -> same_header m2 m3 -> same_header m1 m3.
Proof.
  unfold same_header. intros (?&?&?&?&?&?&?&?) (?&?&?&?&?&?&?&?).
  repeat split; congruence.
Qed.

Lemma same_header_append_Answer rrs m : same_header m (dns.append_Answer rrs m).
Proof. by repeat split. Qed.

Lemma same_header_append_Ns rrs m : same_header m (dns.append_Ns rrs m).
Proof. by repeat split. Qed.

Lemma same_header_append_Extra rrs m : same_header m (dns.append_Extra rrs m).
Proof. by repeat split. Qed.

Lemma same_header_foldl {X} (f : dns.Msg -> X -> dns.Msg) (l : list X) :
  (forall m x, same_header m (f m x)) ->
  forall m, same_header m (foldl f m l).
Proof.
  intros Hf. induction l as [|x l IH]; intros m; simpl.
  - apply same_header_refl.
  - eapply same_header_trans; [apply Hf|apply IH].
Qed.

Lemma attach_ns_header h hdr names m : same_header m (attach_ns h hdr names m).
Proof.
  unfold attach_ns. apply same_header_foldl. intros m0 x.
  eapply same_header_trans;
    [apply same_header_append_Ns|apply same_header_append_Extra].
Qed.

Lemma ns_block_header h hdr cands m : same_header m (ns_block h hdr cands m).
Proof.
  induction cands as [|d cands IH]; simpl; [apply same_header_refl|].
  destruct (nsDomains h !! d); [apply attach_ns_header|done].
Qed.

Lemma mx_block_header h hdr cands m : same_header m (mx_block h hdr cands m).
Proof.
  induction cands as [|d cands IH]; simpl; [apply same_header_refl|].
  destruct (mxDomains h !! d); [apply same_header_append_Answer|done].
Qed.

Lemma ns_answer_header h hdr cands m : same_header m (ns_answer h hdr cands m).
Proof.
  induction cands as [|d cands IH]; simpl; [apply same_header_refl|].
  destruct (nsDomains h !! d); [|done].
  apply same_header_foldl. intros. apply same_header_append_Answer.
Qed.

Lemma soa_answer_header h hdr cands m :
  same_header m (soa_answer env h hdr cands m).
Proof.
  induction cands as [|d cands IH]; simpl; [apply same_header_refl|].
  by destruct (nsDomains h !! d) as [[|n ns]|].
Qed.

Lemma dotDomains_of_world h zone w l w' :
  dotDomains_of h zone w = Done l w' -> w' = w.
Proof.
  unfold dotDomains_of. destruct (Domains (options h)); [done|].
  by intros [= _ <-].
Qed.

Lemma handleACNAMEANY_header h zone m :
  returns_with (handleACNAMEANY env h zone m) (same_header m).
Proof.
  intros w x w'. unfold handleACNAMEANY, resultFunction, bind, ret.
  destruct (checkCustomResponse env (customRecords h) zone w) as [v w1|];
    [|done].
  destruct (negb (String.eqb v ""));
    (destruct (dotDomains_of h zone w1) as [l w2|]; [|done]);
    intros [= <- _];
    (eapply same_header_trans;
     [apply same_header_append_Answer|apply ns_block_header]).
Qed.

Lemma handleAAAACNAMEANY_header h zone m :
  returns_with (handleAAAACNAMEANY env h zone m) (same_header m).
Proof.
  intros w x w'. unfold handleAAAACNAMEANY, resultFunctionAAAA, bind, ret.
  destruct (checkCustomAAAAResponse env (customRecords h) zone w) as [v w1|];
    [|done].
  destruct (negb (String.eqb v ""));
    (destruct (dotDomains_of h zone w1) as [l w2|]; [|done]);
    intros [= <- _];
    (eapply same_header_trans;
     [apply same_header_append_Answer|apply ns_block_header]).
Qed.

Lemma handleMX_header h zone m :
  returns_with (handleMX h zone m) (same_header m).
Proof.
  intros w x w'. unfold handleMX, bind, ret.
  destruct (dotDomains_of h zone w) as [l w2|]; [|done].
  intros [= <- _]. apply mx_block_header.
Qed.

Lemma handleNS_header h zone m :
  returns_with (handleNS h zone m) (same_header m).
Proof.
  intros w x w'. unfold handleNS, bind, ret.
  destruct (dotDomains_of h zone w) as [l w2|]; [|done].
  intros [= <- _]. apply ns_answer_header.
Qed.

Lemma handleSOA_header h zone m :
  returns_with (handleSOA env h zone m) (same_header m).
Proof.
  intros w x w'. unfold handleSOA, bind, ret.
  destruct (dotDomains_of h zone w) as [l w2|]; [|done].
  intros [= <- _]. apply soa_answer_header.
Qed.

Lemma handleACMETXTChallenge_header h zone m m' :
  handleACMETXTChallenge env h zone m = Some m' -> same_header m m'.
Proof.
  unfold handleACMETXTChallenge.
  destruct (ACMEStore_GetRecords env _); [|done].
  intros [= <-]. apply same_header_append_Answer.
Qed.

(** One question: the header stays, and the flag is raised for a name
    under the ACME prefix and otherwise kept. *)
Lemma serve_question_keeps h question m flag :
  returns_with (serve_question env h question m flag)
    (fun step => match step with
                 | Some (m', flag') =>
                     same_header m m'
                     /\ flag' = (flag || is_acme_name (dns.QName question))%bool
                 | None => True
                 end).
Proof.
  pose proof (handleACNAMEANY_header h (dns.QName question) m) as HA.
  pose proof (handleAAAACNAMEANY_header h (dns.QName question) m) as H6.
  pose proof (handleMX_header h (dns.QName question) m) as HM.
  pose proof (handleNS_header h (dns.QName question) m) as HN.
  pose proof (handleSOA_header h (dns.QName question) m) as HS.
  pose proof (handleACMETXTChallenge_header h (dns.QName question) m) as HT.
  intros w x w'. unfold serve_question, is_acme_name, bind, ret.
  destruct (Strings.HasPrefix _ _);
    rewrite ?orb_true_r, ?orb_false_r;
    repeat match goal with
           | |- context [if ?b then _ else _] => destruct b
           end;
    repeat match goal with
           | |- context [match ?c w with _ => _ end] =>
               let E := fresh "E" in destruct (c w) eqn:E
           | |- context [match handleACMETXTChallenge ?a ?b ?c ?d with _ => _ end] =>
               let E := fresh "E" in
               destruct (handleACMETXTChallenge a b c d) eqn:E
           end;
    try done; intros [= <- _]; try done;
    (split; [|done]); eauto using same_header_refl.
Qed.

Lemma serve_questions_keeps h questions : forall m flag,
  returns_with (serve_questions env h questions m flag)
    (fun res => match res with
                | Some (m', flag') =>
                    same_header m m'
                    /\ flag' = (flag
                                || existsb (fun q => is_acme_name (dns.QName q))
                                           questions)%bool
                | None => True
                end).
Proof.
  induction questions as [|q qs IH]; intros m flag w x w'; simpl.
  - intros [= <- _]. split; [apply same_header_refl|by rewrite orb_false_r].
  - unfold bind.
    destruct (serve_question env h q m flag w) as [[[m1 f1]|] w1|] eqn:E;
      [| by intros [= <- _] | done].
    destruct (serve_question_keeps h q m flag w _ _ E) as [Hh ->].
    intros Hrest. specialize (IH m1 _ w1 x w' Hrest).
    destruct x as [[m' flag']|]; [|done].
    destruct IH as [Hh' ->]. split; [by eapply same_header_trans|].
    by rewrite orb_assoc.
Qed.
End Headers.

Section Counter.
Context `{NetPkg} (env : Env).

Lemma keeps_ret {T} (x : T) : keeps_stats (ret x).
Proof. by intros w. Qed.

Lemma keeps_panic {T} why : keeps_stats (@panic T why).
Proof. by intros w. Qed.

Lemma keeps_emit e : keeps_stats (emit e).
Proof. by intros w. Qed.

Lemma keeps_bind {T U} (c : M T) (k : T -> M U) :
  keeps_stats c -> (forall x, keeps_stats (k x)) -> keeps_stats (bind c k).
Proof.
  intros Hc Hk w. unfold bind. specialize (Hc w).
  destruct (c w) as [x w1|why w1]; simpl in *; [|done].
  by rewrite Hk.
Qed.

Lemma keeps_rand_Intn n : keeps_stats (rand_Intn env n).
Proof. intros w. unfold rand_Intn. by destruct (n <=? 0). Qed.

Lemma keeps_time_Now : keeps_stats (time_Now_ env).
Proof. by intros w. Qed.
End Counter.

Create HintDb keeps.

#[local] Hint Resolve keeps_ret keeps_panic keeps_emit keeps_rand_Intn
  keeps_time_Now : keeps.

(** One step of a proof of [keeps_stats]. *)
Ltac keeps_step :=
  match goal with
  | |- keeps_stats (bind _ _) => apply keeps_bind; [|intros ?]
  | |- keeps_stats (if ?b then _ else _) => destruct b eqn:?
  | |- keeps_stats (match ?x with _ => _ end) => destruct x eqn:?
  | |- keeps_stats (let _ := _ in _) => cbv zeta
  | |- keeps_stats _ => solve [eauto with keeps]
  end.

Ltac keeps_auto := repeat keeps_step.

Section CounterOfServer.
Context `{NetPkg} (env : Env).

Lemma keeps_checkCustomResponse c zone :
  keeps_stats (checkCustomResponse env c zone).
Proof. unfold checkCustomResponse, random_choice. keeps_auto. Qed.

Lemma keeps_checkCustomAAAAResponse c zone :
  keeps_stats (checkCustomAAAAResponse env c zone).
Proof. unfold checkCustomAAAAResponse, random_choice. keeps_auto. Qed.

Lemma keeps_dotDomains_of h zone : keeps_stats (dotDomains_of h zone).
Proof. unfold dotDomains_of. keeps_auto. Qed.

Lemma keeps_serve_question h question m flag :
  keeps_stats (serve_question env h question m flag).
Proof.
  pose proof (keeps_checkCustomResponse).
  pose proof (keeps_checkCustomAAAAResponse).
  pose proof (keeps_dotDomains_of).
  unfold serve_question, handleACNAMEANY, handleAAAACNAMEANY, handleMX,
    handleNS, handleSOA, resultFunction, resultFunctionAAAA.
  keeps_auto.
Qed.

Lemma keeps_serve_questions h questions : forall m flag,
  keeps_stats (serve_questions env h questions m flag).
Proof.
  induction questions as [|q qs IH]; intros m flag; simpl.
  - apply keeps_ret.
  - apply keeps_bind; [apply keeps_serve_question|].
    intros [[m' flag']|]; [apply IH|apply keeps_ret].
Qed.

Lemma keeps_trusted_loop tests checkIP :
  keeps_stats (trusted_loop tests checkIP).
Proof. induction tests as [|test tests IH]; simpl; keeps_auto. Qed.

Lemma keeps_scan_options h host opts :
  keeps_stats (scan_options h host opts).
Proof. induction opts as [|opt opts IH]; simpl; keeps_auto. Qed.

Lemma keeps_scan_extra h host extra :
  keeps_stats (scan_extra h host extra).
Proof.
  pose proof (keeps_scan_options h host).
  induction extra as [|rr extra IH]; simpl; keeps_auto.
Qed.

Lemma keeps_getMsgHost h w r : keeps_stats (getMsgHost h w r).
Proof.
  unfold getMsgHost.
  pose proof keeps_trusted_loop. pose proof keeps_scan_extra.
  keeps_auto.
Qed.

Lemma keeps_handleInteraction h domain w r m :
  keeps_stats (handleInteraction env h domain w r m).
Proof.
  pose proof keeps_getMsgHost.
  unfold handleInteraction, first_Qtype. keeps_auto.
Qed.

(** X13.  Every message counts once and is answered at most once:
    whether [ServeDNS] returns or panics, the DNS counter ends one
    higher (modulo 2^64) and at most one response has been written. *)
Theorem ServeDNS_counts_once_and_writes_at_most_once
    (h : DNSServer) (w : ResponseWriter) (r : dns.Msg) (w0 : World) :
  Stats_Dns (final (ServeDNS env h w r w0)) = uint64 (Stats_Dns w0 + 1)
  /\ exists tr,
       events (final (ServeDNS env h w r w0)) = events w0 ++ tr
       /\ (length (written tr) <= 1)%nat.
Proof.
  split.
  - rewrite ServeDNS_shape.
    destruct (dns.Questions r) as [|q0 qs]; [done|].
    set (w1 := mkWorld _ _ _).
    pose proof (keeps_serve_questions h (q0 :: qs) (reply0 r) false w1) as Hk.
    destruct (serve_questions env h (q0 :: qs) (reply0 r) false w1)
      as [[[m flag]|] w2|]; simpl in Hk; try done.
    assert (keeps_stats
              ((if negb flag
                then handleInteraction env h (dns.QName q0) w r m
                else ret tt) ;;;
               emit (EvWriteMsg m) ;;;
               if WriteMsg_fails env m
               then emit (EvLog Warning "Could not write DNS response")
               else ret tt)) as Hrest.
    { pose proof keeps_handleInteraction. keeps_auto. }
    by rewrite Hrest.
  - destruct (ServeDNS_written env h w r w0) as [tr [E Hw]].
    exists tr. split; [done|].
    destruct Hw as [->|(m & flag & w2 & _ & ->)]; simpl; lia.
Qed.

(** X12.  Every response written carries the header of the request:
    its transaction ID and opcode, the response and authoritative
    bits set, the return code 0, and the first question alone in the
    question section. *)
Theorem responses_carry_the_request_header
    (h : DNSServer) (w : ResponseWriter) (r : dns.Msg) (w0 : World) :
  exists tr,
    events (final (ServeDNS env h w r w0)) = events w0 ++ tr
    /\ forall reply,
         reply ∈ written tr ->
         dns.Id reply = dns.Id r
         /\ dns.Opcode reply = dns.Opcode r
         /\ dns.Response reply = true
         /\ dns.Authoritative reply = true
         /\ dns.Rcode reply = 0
         /\ dns.Questions reply = take 1 (dns.Questions r).
Proof.
  destruct (ServeDNS_written env h w r w0) as [tr [E Hw]].
  exists tr. split; [done|]. intros reply Hin.
  destruct Hw as [Hw|(m & flag & w2 & Hs & Hw)]; rewrite Hw in Hin;
    [by apply elem_of_nil in Hin|].
  apply list_elem_of_singleton in Hin as ->.
  destruct (serve_questions_keeps env h _ _ _ _ _ _ Hs)
    as [(HId & HR & HO & HA & _ & _ & HRc & HQ) _].
  rewrite HId, HR, HO, HA, HRc, HQ. simpl.
  by repeat split.
Qed.

(** X14.  A message with a question under the ACME prefix records no
    interaction, whatever its other questions are: it leaves no
    storage event of either kind and no call of the result callback. *)
Theorem acme_message_records_no_interaction
    (h : DNSServer) (w : ResponseWriter) (r : dns.Msg) (w0 : World) :
  existsb (fun q => is_acme_name (dns.QName q)) (dns.Questions r) = true ->
  exists tr,
    events (final (ServeDNS env h w r w0)) = events w0 ++ tr
    /\ Forall no_interaction tr.
Proof.
  intros Hacme. rewrite ServeDNS_shape.
  destruct (dns.Questions r) as [|q0 qs] eqn:Hq; [done|].
  set (w1 := mkWorld _ _ _).
  destruct (appends_serve_questions env h (q0 :: qs) (reply0 r) false w1)
    as [tr1 [E1 F1]].
  assert (Forall no_interaction tr1) as F1'.
  { eapply Forall_impl; [exact F1|]. by intros []. }
  destruct (serve_questions env h (q0 :: qs) (reply0 r) false w1)
    as [[[m flag]|] w2|] eqn:Hs; simpl in E1;
    [|by exists tr1..].
  destruct (serve_questions_keeps env h _ _ _ _ _ _ Hs) as [_ ->].
  rewrite Hacme. simpl.
  unfold bind, ret, emit. simpl.
  destruct (WriteMsg_fails env m); simpl.
  - exists (tr1 ++ [EvWriteMsg m; EvLog Warning "Could not write DNS response"]).
    rewrite E1, <- !app_assoc. split; [done|].
    apply Forall_app. split; [done|]. by repeat constructor.
  - exists (tr1 ++ [EvWriteMsg m]).
    rewrite E1, <- !app_assoc. split; [done|].
    apply Forall_app. split; [done|]. by repeat constructor.
Qed.
End CounterOfServer.

Lemma acme_message_records_no_interaction_witness :
  exists tr,
    Sample.events_of
      (ServeDNS Sample.env Sample.server Sample.writer
         (Sample.query2 "ab12.oob.example." dns.TypeA
                        "_acme-challenge.oob.example." dns.TypeA))
    = [] ++ tr
    /\ Forall no_interaction tr.
Proof.
  exact (acme_message_records_no_interaction Sample.env Sample.server
           Sample.writer
           (Sample.query2 "ab12.oob.example." dns.TypeA
                          "_acme-challenge.oob.example." dns.TypeA)
           Sample.world0 eq_refl).
Defined.

(** ** The dispatcher *)

Section DispatcherMore.
Context `{NetPkg} (env : Env).
Import Strings.

Lemma find_domain_none domains domain :
  Forall (fun d => stringsutil.HasSuffixI domain (dnsname.Fqdn d) = false)
         domains ->
  find_domain domains domain = "".
Proof.
  induction 1 as [|d domains Hd _ IH]; simpl; [done|]. by rewrite Hd.
Qed.

(** X15.  A query name that ends with the FQDN of no configured apex
    is not dispatched at all: [handleInteraction] returns at once and
    changes nothing, in either mode and whatever the name holds. *)
Theorem name_outside_every_apex_is_ignored
    (h : DNSServer) (domain : string) (w : ResponseWriter) (r m : dns.Msg)
    (w0 : World) :
  Forall (fun d => stringsutil.HasSuffixI domain (dnsname.Fqdn d) = false)
         (Domains (options h)) ->
  handleInteraction env h domain w r m w0 = Done tt w0.
Proof.
  intros Hno. unfold handleInteraction.
  rewrite (find_domain_none _ _ Hno). unfold extract_correlation.
  simpl. rewrite andb_false_r. reflexivity.
Qed.

(** X19.  The apex found for a name, when it is not the empty string,
    is the first configured apex whose FQDN ends the name, compared
    without regard to case. *)
Theorem find_domain_is_the_first_match (domains : list string)
    (domain : string) :
  find_domain domains domain <> "" ->
  exists before after,
    domains = before ++ find_domain domains domain :: after
    /\ stringsutil.HasSuffixI domain
         (dnsname.Fqdn (find_domain domains domain)) = true
    /\ Forall (fun d => stringsutil.HasSuffixI domain (dnsname.Fqdn d) = false)
              before.
Proof.
  induction domains as [|d domains IH]; simpl; [done|].
  destruct (stringsutil.HasSuffixI domain (dnsname.Fqdn d)) eqn:Hd.
  - intros _. by exists [], domains.
  - intros Hne. destruct (IH Hne) as (before & after & Hl & Hs & Hb).
    exists (d :: before), after. split; [by rewrite Hl at 1|].
    split; [done|]. by constructor.
Qed.

(** The correlation branch alone, when RootTLD mode is off. *)
Lemma appends_handleInteraction_plain h domain w r m :
  RootTLD (options h) = false ->
  appends log_or_AddInteraction (handleInteraction env h domain w r m).
Proof.
  intros Hr. unfold handleInteraction. rewrite Hr.
  pose proof (fun h w r =>
    appends_weaken (T:=string) is_log log_or_AddInteraction
      (getMsgHost h w r) (fun e => match e with
                                   | EvLog _ _ => fun _ => I
                                   | _ => fun F => match F with end
                                   end)
      (appends_getMsgHost h w r)) as Hhost.
  pose proof (appends_first_Qtype log_or_AddInteraction).
  simpl. appends_auto; exact I.
Qed.

Lemma appends_handleInteraction_no_callback h domain w r m :
  OnResult (options h) = false ->
  appends not_OnResult (handleInteraction env h domain w r m).
Proof.
  intros Hr. unfold handleInteraction. rewrite Hr.
  pose proof (fun h w r =>
    appends_weaken (T:=string) is_log not_OnResult
      (getMsgHost h w r) (fun e => match e with
                                   | EvLog _ _ => fun _ => I
                                   | _ => fun F => match F with end
                                   end)
      (appends_getMsgHost h w r)) as Hhost.
  pose proof (appends_first_Qtype not_OnResult).
  appends_auto; exact I.
Qed.

Lemma appends_ServeDNS_of P h w r :
  (forall e, is_Printf e -> P e) ->
  (forall m, P (EvWriteMsg m)) ->
  (forall s, P (EvLog Warning s)) ->
  (forall domain m, appends P (handleInteraction env h domain w r m)) ->
  appends P (ServeDNS env h w r).
Proof.
  intros HP HW HL HI. unfold ServeDNS.
  apply appends_bind; [appends_auto|]. intros _. cbv zeta.
  destruct (dns.Questions r) as [|q0 qs]; [apply appends_ret|].
  apply appends_bind.
  { eapply appends_weaken; [exact HP|]. apply appends_serve_questions. }
  intros [[m flag]|]; [|apply appends_ret].
  apply appends_bind.
  - destruct (negb flag); [apply HI|apply appends_ret].
  - intros _. appends_auto; [apply HW|apply HL].
Qed.

(** X16.  The result callback and the storage under the apex key
    belong to RootTLD mode alone: with [RootTLD] off a message leaves
    neither a call of [OnResult] nor a call of
    [Storage.AddInteractionWithId], and without a callback installed
    it leaves no call of [OnResult]. *)
Theorem callback_and_apex_storage_only_in_RootTLD_mode
    (h : DNSServer) (w : ResponseWriter) (r : dns.Msg) (w0 : World) :
  exists tr,
    events (final (ServeDNS env h w r w0)) = events w0 ++ tr
    /\ (RootTLD (options h) = false ->
        Forall not_OnResult tr /\ Forall not_AddInteractionWithId tr)
    /\ (OnResult (options h) = false -> Forall not_OnResult tr).
Proof.
  assert (RootTLD (options h) = false ->
          appends (fun e => not_OnResult e /\ not_AddInteractionWithId e)
                  (ServeDNS env h w r)) as Hroot.
  { intros Hr. apply appends_ServeDNS_of; try done.
    - by intros [].
    - intros domain m. eapply appends_weaken;
        [|by apply appends_handleInteraction_plain].
      by intros []. }
  assert (OnResult (options h) = false ->
          appends not_OnResult (ServeDNS env h w r)) as Hcb.
  { intros Hr. apply appends_ServeDNS_of; try done.
    - by intros [].
    - intros domain m. by apply appends_handleInteraction_no_callback. }
  destruct (appends_ServeDNS env h w r w0) as [tr [E _]].
  exists tr. split; [done|]. split.
  - intros Hr. destruct (Hroot Hr w0) as [tr' [E' F]].
    assert (tr' = tr) as ->.
    { apply (app_inv_head (events w0)). by rewrite <- E, <- E'. }
    split; (eapply Forall_impl; [exact F|]); by intros ? [? ?].
  - intros Hr. destruct (Hcb Hr w0) as [tr' [E' F]].
    assert (tr' = tr) as ->.
    { apply (app_inv_head (events w0)). by rewrite <- E, <- E'. }
    done.
Qed.

(** X21.  In strict label mode a query name without a matching
    sub-token stores nothing under a correlation key. *)
Theorem no_match_stores_nothing
    (h : DNSServer) (w : ResponseWriter) (r : dns.Msg) (w0 : World) :
  ScanEverywhere (options h) = false ->
  (forall q0, head (dns.Questions r) = Some q0 ->
              strict_matches (options h) (dns.QName q0) = []) ->
  exists tr,
    events (final (ServeDNS env h w r w0)) = events w0 ++ tr
    /\ stored tr = [].
Proof.
  intros Hmode Hno.
  destruct (appends_ServeDNS env h w r w0) as [tr [E F]].
  exists tr. split; [done|]. apply stored_quiet.
  eapply Forall_impl; [exact F|]. intros [] He; try exact I.
  destruct He as (q0 & Hq & i & _ & _ & _ & Hne).
  exfalso. apply Hne.
  destruct (String.eqb_spec
              (fst (extract_correlation (options h)
                      (find_domain (Domains (options h)) (dns.QName q0))
                      (dns.QName q0) (Msg_String env r))) "")
    as [Heq|Hne']; [done|].
  pose proof (extract_is_last_match env (options h) _ (dns.QName q0) r Hne')
    as Hl.
  unfold last_match in Hl. rewrite Hmode, (Hno q0 Hq) in Hl. done.
Qed.
End DispatcherMore.

Lemma name_outside_every_apex_is_ignored_witness :
  handleInteraction Sample.env (Sample.server_of Sample.opts_root)
    "ab12.alien.example." Sample.writer
    (Sample.query "ab12.alien.example." dns.TypeA) dns.new_Msg Sample.world0
  = Done tt Sample.world0.
Proof.
  apply (name_outside_every_apex_is_ignored Sample.env
           (Sample.server_of Sample.opts_root)).
  repeat constructor.
Defined.

Lemma find_domain_is_the_first_match_witness :
  exists before after,
    ["alien.test"; "EXAMPLE"; "oob.example"]
    = before ++ "EXAMPLE" :: after
    /\ stringsutil.HasSuffixI "ab12.oob.example." (dnsname.Fqdn "EXAMPLE")
       = true
    /\ Forall (fun d => stringsutil.HasSuffixI "ab12.oob.example."
                          (dnsname.Fqdn d) = false) before.
Proof.
  apply (find_domain_is_the_first_match
           ["alien.test"; "EXAMPLE"; "oob.example"] "ab12.oob.example.").
  discriminate.
Defined.

Lemma no_match_stores_nothing_witness :
  exists tr,
    Sample.events_of
      (ServeDNS Sample.env Sample.server Sample.writer
                (Sample.query "www.oob.example." dns.TypeA))
    = [] ++ tr
    /\ stored tr = [].
Proof.
  apply (no_match_stores_nothing Sample.env Sample.server Sample.writer
           (Sample.query "www.oob.example." dns.TypeA) Sample.world0 eq_refl).
  intros q0 [= <-]. reflexivity.
Defined.

Section Emission.
Context `{NetPkg} (env : Env).
Import Strings.

Lemma getMsgHost_disabled h w r w0 :
  OriginIPEDNSopt (options h) < 0 ->
  getMsgHost h w r w0 = Done (SplitHostPort_host (RemoteAddr_String w)) w0.
Proof.
  intros Hopt. unfold getMsgHost.
  by destruct (Z.ltb_spec (OriginIPEDNSopt (options h)) 0); [|lia].
Qed.

(** X22.  The correlation branch, with RootTLD mode off and origin IP
    rewriting disabled: for a non-empty extracted identifier the
    interaction (protocol [dns], the identifier and full identifier
    of the scan, the type of the first question, the request and
    response dumps, the peer host) is encoded and handed once to
    [Storage.AddInteraction] under [getCorrelationID] of the
    identifier, a storage error only adding a warning; when the
    encoder fails, nothing is stored and a warning is logged. *)
Theorem correlation_interaction_is_stored
    (h : DNSServer) (domain : string) (w : ResponseWriter) (r m : dns.Msg)
    (w0 : World) (q : dns.Question) (qs : list dns.Question) :
  RootTLD (options h) = false ->
  OriginIPEDNSopt (options h) < 0 ->
  dns.Questions r = q :: qs ->
  let o := options h in
  let ids := extract_correlation o (find_domain (Domains o) domain) domain
                                 (Msg_String env r) in
  let i := mkInteraction "dns" (fst ids) (snd ids) (toQType (dns.Qtype q))
             (Msg_String env r) (Msg_String env m)
             (SplitHostPort_host (RemoteAddr_String w))
             (time_Now env (length (events w0))) in
  fst ids <> "" ->
  handleInteraction env h domain w r m w0
  = Done tt
      (mkWorld (Stats_Dns w0) (draws w0)
         (events w0
          ++ match jsonEncode env i with
             | Some buffer =>
                 EvAddInteraction (getCorrelationID o (fst ids)) buffer
                 :: (if Storage_AddInteraction_fails env
                          (getCorrelationID o (fst ids)) buffer
                     then [EvLog Warning "Could not store dns interaction"]
                     else [])
             | None => [EvLog Warning "Could not encode dns interaction"]
             end)).
Proof.
  intros Hroot Hopt Hq o ids i Hne. subst o.
  unfold handleInteraction. rewrite Hroot. simpl.
  unfold bind at 1. unfold ret at 1. fold ids.
  apply String.eqb_neq in Hne. rewrite Hne. simpl.
  unfold bind at 1. rewrite (getMsgHost_disabled h w r w0 Hopt).
  unfold bind at 1. unfold first_Qtype. rewrite Hq. unfold ret at 1.
  unfold bind at 1. unfold time_Now_. fold i.
  destruct (jsonEncode env i) as [buffer|]; [|done].
  unfold bind, emit. simpl.
  destruct (Storage_AddInteraction_fails env _ buffer); simpl;
    by rewrite <- ?app_assoc.
Qed.

End Emission.

Lemma correlation_interaction_is_stored_witness :
  handleInteraction Sample.env Sample.server "ab12.oob.example."
    Sample.writer (Sample.query "ab12.oob.example." dns.TypeA) dns.new_Msg
    Sample.world0
  = Done tt (mkWorld 0 0 [EvAddInteraction "ab12" "ab12|ab12"]).
Proof.
  etransitivity.
  - apply (correlation_interaction_is_stored Sample.env Sample.server
             "ab12.oob.example." Sample.writer
             (Sample.query "ab12.oob.example." dns.TypeA) dns.new_Msg
             Sample.world0
             (dns.mkQuestion "ab12.oob.example." dns.TypeA dns.ClassINET) []).
    + reflexivity.
    + vm_compute. reflexivity.
    + reflexivity.
    + vm_compute. discriminate.
  - vm_compute. reflexivity.
Defined.


(** ** The origin IP resolver, decided *)

Section OriginDecided.
Context `{NetPkg}.
Import Strings.

Lemma trusted_loop_complete tests checkIP :
  cidrs_parse tests ->
  (exists test, test ∈ tests /\ entry_matches test checkIP) ->
  forall w0, exists w', trusted_loop tests checkIP w0 = Done true w'.
Proof.
  induction 1 as [|test tests Ht Hts IH]; intros (t & Hin & Hm) w0.
  - by apply elem_of_nil in Hin.
  - simpl.
    assert (t = test \/ t ∈ tests) as Hcase by by apply elem_of_cons.
    destruct (ContainsChar test "/") eqn:Hc.
    + destruct (Ht eq_refl) as [cidr Hp]. rewrite Hp.
      destruct (net.Contains cidr checkIP) eqn:Hcon; [by eexists|].
      destruct Hcase as [->|Hin'].
      * unfold entry_matches in Hm. rewrite Hc in Hm.
        destruct Hm as (cidr' & Hp' & Hcon'). congruence.
      * apply IH. by exists t.
    + unfold bind.
      destruct (net.Equal (ParseIP test) checkIP) eqn:Heq.
      * destruct (is_nil (ParseIP test)); by eexists.
      * destruct Hcase as [->|Hin'].
        { unfold entry_matches in Hm. rewrite Hc in Hm. congruence. }
        destruct (is_nil (ParseIP test)); simpl; apply IH; by exists t.
Qed.

(** X17.  With the feature enabled and a trusted-source list whose
    CIDR entries parse, origin IP resolution is decided by the list
    and the first matching option: for a trusted peer it returns the
    text of that option's data, or the transport host when the text
    is no address or no option has the code; for any other peer it
    returns the transport host. *)
Theorem origin_ip_is_decided
    (h : DNSServer) (w : ResponseWriter) (r : dns.Msg) (w0 : World) :
  0 <= OriginIPEDNSopt (options h) ->
  cidrs_parse (RealIPFrom (options h)) ->
  let host := SplitHostPort_host (RemoteAddr_String w) in
  let code := uint16 (OriginIPEDNSopt (options h)) in
  (trusted_source (RealIPFrom (options h)) host ->
   exists w',
     getMsgHost h w r w0
     = Done (default host (origin_of host <$> matched_option code (dns.Extra r)))
            w')
  /\ (~ trusted_source (RealIPFrom (options h)) host ->
      exists w', getMsgHost h w r w0 = Done host w').
Proof.
  intros Hopt Hcidr host code. unfold getMsgHost. fold host.
  destruct (Z.ltb_spec (OriginIPEDNSopt (options h)) 0); [lia|].
  unfold bind. split.
  - intros Ht.
    destruct (trusted_loop_complete _ (ParseIP host) Hcidr Ht w0) as [w1 ->].
    simpl.
    destruct (scan_extra_matched h host (dns.Extra r) w1) as [w2 ->].
    fold code. destruct (matched_option code (dns.Extra r)); by eexists.
  - intros Hnt.
    destruct (trusted_loop_returns _ (ParseIP host) Hcidr w0)
      as (b & w1 & Hl).
    rewrite Hl. destruct b; [|by eexists].
    exfalso. apply Hnt. exact (trusted_loop_true _ _ _ _ Hl).
Qed.
End OriginDecided.

Lemma origin_ip_is_decided_witness :
  exists w',
    getMsgHost (Sample.server_of (Sample.opts_origin 5 ["198.51.100.0/24"]))
      Sample.writer
      (Sample.query_with_option "x.oob.example." 5 [10; 0; 0; 1])
      Sample.world0
    = Done "10.0.0.1" w'.
Proof.
  destruct (origin_ip_is_decided
              (Sample.server_of (Sample.opts_origin 5 ["198.51.100.0/24"]))
              Sample.writer
              (Sample.query_with_option "x.oob.example." 5 [10; 0; 0; 1])
              Sample.world0) as [Htrusted _].
  - vm_compute. discriminate.
  - repeat constructor. intros _. by eexists.
  - apply Htrusted. exists "198.51.100.0/24". split; [left|].
    unfold entry_matches. simpl. eexists. split; reflexivity.
Defined.

(** ** Answers *)

Section Answers.
Context `{NetPkg} (env : Env).
Import Strings.

(** X18.  A message made of one TXT question under the ACME prefix,
    when the store (asked for the lower-cased name) returns records:
    the response is written once and answers with one TXT record per
    store record, in order, under the name as asked and with the
    store's TTL reduced to 32 bits; nothing is dispatched. *)
Theorem acme_txt_challenge_is_answered_from_the_store
    (h : DNSServer) (w : ResponseWriter) (r : dns.Msg) (w0 : World)
    (q : dns.Question) (recs : list acme.Record_) :
  dns.Questions r = [q] ->
  dns.Qtype q = dns.TypeTXT ->
  is_acme_name (dns.QName q) = true ->
  ACMEStore_GetRecords env (ToLower (dns.QName q)) = Some recs ->
  let reply :=
    dns.append_Answer
      (map (fun record =>
              dns.TXT (dns.mkHdr (dns.QName q) dns.TypeTXT dns.ClassINET
                                 (uint32 (acme.TTL record)))
                      [acme.Value record]) recs)
      (reply0 r) in
  ServeDNS env h w r w0
  = Done tt
      (mkWorld (uint64 (Stats_Dns w0 + 1)) (draws w0)
         (events w0
          ++ EvWriteMsg reply
          :: (if WriteMsg_fails env reply
              then [EvLog Warning "Could not write DNS response"]
              else []))).
Proof.
  intros Hq Ht Ha Hs reply. rewrite ServeDNS_shape, Hq.
  cbn [serve_questions]. unfold bind at 1.
  unfold serve_question. unfold is_acme_name in Ha. rewrite Ha, Ht.
  simpl. unfold handleACMETXTChallenge. rewrite Hs. fold reply.
  unfold bind, ret, emit. simpl.
  destruct (WriteMsg_fails env reply); simpl; by rewrite <- ?app_assoc.
Qed.

(** X20.  The A and AAAA handlers on a server with an apex add exactly
    one address record to the answer, under the zone and with the TTL
    of the server: the default address when the resolver returns no
    override, and otherwise whatever [net.ParseIP] makes of the
    override (the nil address when it does not parse). *)
Theorem address_answer_is_the_override_or_the_default
    (h : DNSServer) (zone : string) (m : dns.Msg) (w0 : World)
    (d0 : string) (ds : list string) :
  Domains (options h) = d0 :: ds ->
  (exists v m' w',
      checkCustomResponse env (customRecords h) zone w0 = Done v w'
      /\ handleACNAMEANY env h zone m w0 = Done m' w'
      /\ dns.Answer m'
         = dns.Answer m
           ++ [dns.A (dns.mkHdr zone dns.TypeA dns.ClassINET (timeToLive h))
                     (if String.eqb v "" then ipAddress h else ParseIP v)])
  /\ (exists v m' w',
        checkCustomAAAAResponse env (customRecords h) zone w0 = Done v w'
        /\ handleAAAACNAMEANY env h zone m w0 = Done m' w'
        /\ dns.Answer m'
           = dns.Answer m
             ++ [dns.AAAA (dns.mkHdr zone dns.TypeAAAA dns.ClassINET
                                     (timeToLive h))
                          (if String.eqb v "" then ipv6Address h
                           else ParseIP v)]).
Proof.
  intros Hd. split.
  - destruct (checkCustomResponse_returns env (customRecords h) zone w0)
      as (v & w' & Hv).
    unfold handleACNAMEANY, resultFunction, dotDomains_of, bind, ret.
    rewrite Hv, Hd. exists v.
    destruct (String.eqb v ""); cbn [negb]; do 2 eexists;
      (split; [reflexivity|]); (split; [reflexivity|]);
      rewrite ns_block_first_hit;
      match goal with |- context [attach_ns h ?hdr ?names ?m0] =>
        destruct (attach_ns_sections h hdr names m0) as (-> & _ & _) end;
      done.
  - destruct (checkCustomAAAAResponse_returns env (customRecords h) zone w0)
      as (v & w' & Hv).
    unfold handleAAAACNAMEANY, resultFunctionAAAA, dotDomains_of, bind, ret.
    rewrite Hv, Hd. exists v.
    destruct (String.eqb v ""); cbn [negb]; do 2 eexists;
      (split; [reflexivity|]); (split; [reflexivity|]);
      rewrite ns_block_first_hit;
      match goal with |- context [attach_ns h ?hdr ?names ?m0] =>
        destruct (attach_ns_sections h hdr names m0) as (-> & _ & _) end;
      done.
Qed.
End Answers.

Lemma acme_txt_challenge_is_answered_from_the_store_witness :
  written (Sample.events_of
             (ServeDNS Sample.env_acme Sample.server Sample.writer
                (Sample.query "_ACME-challenge.oob.example." dns.TypeTXT)))
  = [dns.append_Answer
       [dns.TXT (dns.mkHdr "_ACME-challenge.oob.example." dns.TypeTXT
                           dns.ClassINET 30) ["token123"]]
       (reply0 (Sample.query "_ACME-challenge.oob.example." dns.TypeTXT))].
Proof.
  unfold Sample.events_of.
  rewrite (acme_txt_challenge_is_answered_from_the_store Sample.env_acme
             Sample.server Sample.writer
             (Sample.query "_ACME-challenge.oob.example." dns.TypeTXT)
             Sample.world0
             (dns.mkQuestion "_ACME-challenge.oob.example." dns.TypeTXT
                             dns.ClassINET)
             [acme.mkRecord "token123" 30] eq_refl eq_refl eq_refl eq_refl).
  reflexivity.
Defined.

Lemma address_answer_is_the_override_or_the_default_witness :
  exists v m' w',
    checkCustomResponse Sample.env (customRecords Sample.server)
      "aws.oob.example." Sample.world0 = Done v w'
    /\ handleACNAMEANY Sample.env Sample.server "aws.oob.example."
         dns.new_Msg Sample.world0 = Done m' w'
    /\ dns.Answer m'
       = [] ++ [dns.A (dns.mkHdr "aws.oob.example." dns.TypeA dns.ClassINET 60)
                      (if String.eqb v "" then ipAddress Sample.server
                       else ParseIP v)].
Proof.
  exact (proj1 (address_answer_is_the_override_or_the_default Sample.env
           Sample.server "aws.oob.example." dns.new_Msg Sample.world0
           "oob.example" [] eq_refl)).
Defined.

(** The overlay strings and the file of a sample configuration. *)
Example overlays_of_a_configuration :
  let c := customRecords (Sample.server_of (Sample.opts_custom "")) in
  subdomainRecords c !! "foo" = Some "10.1.2.3"
  /\ subdomainRecords c !! "Foo" = None
  /\ subdomainRecords c !! "bad" = None
  /\ subdomainRecords c !! "plain" = None.
Proof. repeat split; vm_compute; reflexivity. Qed.

Example file_overrides_a_default :
  match NewDNSServer Sample.env_acme (Sample.opts_custom "records.yaml")
                     Sample.world0 with
  | Done h w' =>
      records (customRecords h) !! "aws" = Some "10.9.9.9"
      /\ records (customRecords h) !! "oracle" = Some "192.0.0.192"
      /\ events w' = [EvLog Warning "Invalid DnsSubdomainRecord"]
  | Panicked _ _ => False
  end.
Proof. vm_compute. repeat split; reflexivity. Qed.

Example unreadable_file_keeps_the_defaults :
  match NewDNSServer Sample.env_acme (Sample.opts_custom "missing.yaml")
                     Sample.world0 with
  | Done h w' =>
      records (customRecords h) !! "aws" = Some "169.254.169.254"
      /\ events w' = [EvLog Warning "Invalid DnsSubdomainRecord";
                      EvLog Error "Could not read custom DNS records"]
  | Panicked _ _ => False
  end.
Proof. vm_compute. repeat split; reflexivity. Qed.

(** ** Questions that get no record, and the order of the allowlist *)

Section Remaining.
Context `{NetPkg} (env : Env).
Import Strings.

(** X24.  A question of a type its branch has no case for is passed
    over: the reply stays as it is and nothing happens, outside the
    ACME subtree for every type but A, CNAME, ANY, AAAA, MX, NS, SOA
    and TXT, and under the ACME prefix for every type but SOA, TXT,
    NS, A and AAAA (so also for MX, CNAME and ANY); the ACME flag is
    raised all the same. *)
Theorem unanswered_types_leave_the_reply
    (h : DNSServer) (question : dns.Question) (m : dns.Msg) (flag : bool)
    (w0 : World) :
  (is_acme_name (dns.QName question) = false ->
   answered_type (dns.Qtype question) = false ->
   serve_question env h question m flag w0 = Done (Some (m, flag)) w0)
  /\ (is_acme_name (dns.QName question) = true ->
      acme_answered_type (dns.Qtype question) = false ->
      serve_question env h question m flag w0 = Done (Some (m, true)) w0).
Proof.
  unfold is_acme_name, answered_type, acme_answered_type, serve_question.
  split; intros -> Ht;
    repeat match goal with
           | Hx : (_ || _)%bool = false |- _ =>
               apply orb_false_iff in Hx as [? ?]
           end;
    repeat match goal with
           | Hx : (_ =? _) = false |- _ => rewrite Hx; clear Hx
           end;
    reflexivity.
Qed.

Lemma trusted_loop_prefix_true pre checkIP :
  cidrs_parse pre ->
  (exists test, test ∈ pre /\ entry_matches test checkIP) ->
  forall rest w0,
    exists w', trusted_loop (pre ++ rest) checkIP w0 = Done true w'.
Proof.
  induction 1 as [|test tests Ht Hts IH]; intros (t & Hin & Hm) rest w0.
  - by apply elem_of_nil in Hin.
  - simpl.
    assert (t = test \/ t ∈ tests) as Hcase by by apply elem_of_cons.
    destruct (ContainsChar test "/") eqn:Hc.
    + destruct (Ht eq_refl) as [cidr Hp]. rewrite Hp.
      destruct (net.Contains cidr checkIP) eqn:Hcon; [by eexists|].
      destruct Hcase as [->|Hin'].
      * unfold entry_matches in Hm. rewrite Hc in Hm.
        destruct Hm as (cidr' & Hp' & Hcon'). congruence.
      * apply IH. by exists t.
    + unfold bind.
      destruct (net.Equal (ParseIP test) checkIP) eqn:Heq.
      * destruct (is_nil (ParseIP test)); by eexists.
      * destruct Hcase as [->|Hin'].
        { unfold entry_matches in Hm. rewrite Hc in Hm. congruence. }
        destruct (is_nil (ParseIP test)); simpl; apply IH; by exists t.
Qed.

Lemma trusted_loop_prefix_panics pre checkIP test rest :
  cidrs_parse pre ->
  ~ (exists t, t ∈ pre /\ entry_matches t checkIP) ->
  ContainsChar test "/" = true ->
  ParseCIDR test = None ->
  forall w0,
    exists w',
      trusted_loop (pre ++ test :: rest) checkIP w0
      = Panicked "invalid memory address or nil pointer dereference" w'.
Proof.
  intros Hpre. induction Hpre as [|p pre Hp Hpre IH];
    intros Hno Hc Hbad w0; simpl.
  - rewrite Hc, Hbad. by eexists.
  - assert (~ entry_matches p checkIP) as Hp'.
    { intros Hm. apply Hno. exists p. split; [left|done]. }
    assert (~ (exists t, t ∈ pre /\ entry_matches t checkIP)) as Hno'.
    { intros (t & Hin & Hm). apply Hno. exists t. split; [by right|done]. }
    unfold entry_matches in Hp'.
    destruct (ContainsChar p "/") eqn:Hpc.
    + destruct (Hp eq_refl) as [cidr Hcidr]. rewrite Hcidr.
      destruct (net.Contains cidr checkIP) eqn:Hcon.
      * exfalso. apply Hp'. by exists cidr.
      * by apply IH.
    + unfold bind.
      destruct (net.Equal (ParseIP p) checkIP) eqn:Heq; [done|].
      destruct (is_nil (ParseIP p)); simpl; by apply IH.
Qed.

(** X25.  The allowlist is walked in order and left at the first
    match.  A malformed CIDR entry behind well-formed ones panics
    only when it is reached: when an entry before it matches the
    peer, resolution goes on to the options and returns; when none
    does, it panics. *)
Theorem malformed_cidr_matters_only_when_reached
    (h : DNSServer) (w : ResponseWriter) (r : dns.Msg) (w0 : World)
    (pre : list string) (test : string) (rest : list string) :
  0 <= OriginIPEDNSopt (options h) ->
  RealIPFrom (options h) = pre ++ test :: rest ->
  cidrs_parse pre ->
  ContainsChar test "/" = true ->
  ParseCIDR test = None ->
  let host := SplitHostPort_host (RemoteAddr_String w) in
  let code := uint16 (OriginIPEDNSopt (options h)) in
  (trusted_source pre host ->
   exists w',
     getMsgHost h w r w0
     = Done (default host (origin_of host <$> matched_option code (dns.Extra r)))
            w')
  /\ (~ trusted_source pre host ->
      exists w',
        getMsgHost h w r w0
        = Panicked "invalid memory address or nil pointer dereference" w').
Proof.
  intros Hopt Hl Hpre Hc Hbad host code. unfold getMsgHost. fold host.
  destruct (Z.ltb_spec (OriginIPEDNSopt (options h)) 0); [lia|].
  rewrite Hl. unfold bind. split.
  - intros Ht.
    destruct (trusted_loop_prefix_true pre (ParseIP host) Hpre Ht
                (test :: rest) w0) as [w1 ->].
    simpl.
    destruct (scan_extra_matched h host (dns.Extra r) w1) as [w2 ->].
    fold code. destruct (matched_option code (dns.Extra r)); by eexists.
  - intros Hnt.
    destruct (trusted_loop_prefix_panics pre (ParseIP host) test rest
                Hpre Hnt Hc Hbad w0) as [w1 ->].
    by eexists.
Qed.

Lemma Equal_nil_nil : net.Equal [] [] = true.
Proof. reflexivity. Qed.

(** X26.  An allowlist entry that is no IP address is logged and then
    compared as the nil address, and the nil address equals the
    address of a peer whose host does not parse: such a peer is
    trusted by the invalid entry, and an option with the code rewrites
    its address. *)
Theorem invalid_ip_entry_trusts_a_peer_without_address
    (h : DNSServer) (w : ResponseWriter) (r : dns.Msg) (w0 : World)
    (test : string) (rest : list string) :
  0 <= OriginIPEDNSopt (options h) ->
  RealIPFrom (options h) = test :: rest ->
  ContainsChar test "/" = false ->
  ParseIP test = [] ->
  let host := SplitHostPort_host (RemoteAddr_String w) in
  let code := uint16 (OriginIPEDNSopt (options h)) in
  ParseIP host = [] ->
  exists w',
    getMsgHost h w r w0
    = Done (default host (origin_of host <$> matched_option code (dns.Extra r)))
           w'
    /\ exists tr, events w' = events w0 ++ EvLog Error "Invalid IP address" :: tr.
Proof.
  intros Hopt Hl Hc Hnil host code Hhost. unfold getMsgHost. fold host.
  destruct (Z.ltb_spec (OriginIPEDNSopt (options h)) 0); [lia|].
  rewrite Hl, Hhost. unfold bind at 1. simpl. rewrite Hc, Hnil.
  unfold bind at 1. simpl.
  set (w1 := mkWorld _ _ _).
  destruct (scan_extra_matched h host (dns.Extra r) w1) as [w2 Hs].
  destruct (appends_scan_extra h host (dns.Extra r) w1) as [tr [E _]].
  unfold bind. rewrite Hs in *. simpl in E. fold code.
  exists w2. split; [by destruct (matched_option code (dns.Extra r))|].
  exists tr. rewrite E. unfold w1. simpl. by rewrite <- app_assoc.
Qed.
End Remaining.

Lemma unanswered_types_leave_the_reply_witness :
  serve_question Sample.env Sample.server
    (dns.mkQuestion "_acme-challenge.oob.example." dns.TypeMX dns.ClassINET)
    dns.new_Msg false Sample.world0
  = Done (Some (dns.new_Msg, true)) Sample.world0.
Proof.
  exact (proj2 (unanswered_types_leave_the_reply Sample.env Sample.server
                  (dns.mkQuestion "_acme-challenge.oob.example." dns.TypeMX
                                  dns.ClassINET)
                  dns.new_Msg false Sample.world0) eq_refl eq_refl).
Defined.

Lemma malformed_cidr_matters_only_when_reached_witness :
  exists w',
    getMsgHost
      (Sample.server_of
         (Sample.opts_origin 5 ["198.51.100.7"; "10.0.0.0/33"]))
      Sample.writer
      (Sample.query_with_option "x.oob.example." 5 [10; 0; 0; 1])
      Sample.world0
    = Done "10.0.0.1" w'.
Proof.
  destruct (malformed_cidr_matters_only_when_reached
              (Sample.server_of
                 (Sample.opts_origin 5 ["198.51.100.7"; "10.0.0.0/33"]))
              Sample.writer
              (Sample.query_with_option "x.oob.example." 5 [10; 0; 0; 1])
              Sample.world0 ["198.51.100.7"] "10.0.0.0/33" [])
    as [Htrusted _].
  - vm_compute. discriminate.
  - reflexivity.
  - repeat constructor. intros Hc. discriminate Hc.
  - reflexivity.
  - reflexivity.
  - apply Htrusted. exists "198.51.100.7". split; [left|]. reflexivity.
Defined.

Lemma invalid_ip_entry_trusts_a_peer_without_address_witness :
  exists w',
    getMsgHost (Sample.server_of (Sample.opts_origin 5 ["localhost"]))
      Sample.writer_no_port
      (Sample.query_with_option "x.oob.example." 5 [10; 0; 0; 1])
      Sample.world0
    = Done "10.0.0.1" w'
    /\ exists tr, events w' = [] ++ EvLog Error "Invalid IP address" :: tr.
Proof.
  destruct (invalid_ip_entry_trusts_a_peer_without_address
              (Sample.server_of (Sample.opts_origin 5 ["localhost"]))
              Sample.writer_no_port
              (Sample.query_with_option "x.oob.example." 5 [10; 0; 0; 1])
              Sample.world0 "localhost" [])
    as (w' & Hg & tr & Ht).
  - vm_compute. discriminate.
  - reflexivity.
  - reflexivity.
  - reflexivity.
  - reflexivity.
  - exists w'. split.
    + etransitivity; [exact Hg|]. vm_compute. reflexivity.
    + exists tr. exact Ht.
Defined.

(** * The claims that rest on the properties above *)

(** ** The correlation extractor *)

Section ScanEverywhere.
Import Strings.

Lemma find_domain_first domains domain d :
  first_apex domains domain d -> find_domain domains domain = d.
Proof.
  intros (pre & post & -> & Hpre & Hd).
  induction Hpre as [|c pre Hc _ IH]; simpl.
  - by rewrite Hd.
  - by rewrite Hc.
Qed.

(** The delimiter string of the code holds the characters of the
    delimiter set, and no other. *)
Lemma scan_delimiters_set c :
  ContainsChar scan_delimiters c = is_scan_delimiter c.
Proof. destruct c as [[] [] [] [] [] [] [] []]; reflexivity. Qed.

Lemma cut_ext (f g : ascii -> bool) s :
  (forall c, f c = g c) -> cut f s = cut g s.
Proof.
  intros Hfg. induction s as [|c s IH]; simpl; [done|].
  by rewrite Hfg, IH.
Qed.

(** The fields of a text are the pieces of its cut that are not
    empty; [cur] is put before the first piece. *)
Lemma FieldsFunc_from_cut sep s : forall cur,
  FieldsFunc_from sep s cur
  = List.filter (fun chunk => negb (String.eqb chunk ""))
      (match cut sep s with
       | h :: t => (cur +:+ h) :: t
       | [] => [cur]
       end).
Proof.
  induction s as [|c s IH]; intros cur; simpl.
  - rewrite append_nil_r. by destruct (String.eqb cur "").
  - destruct (sep c).
    + rewrite append_nil_r, IH. simpl.
      destruct (cut sep s) as [|h t] eqn:Hcut;
        [by apply cut_nonempty in Hcut|].
      rewrite append_nil_l. by destruct (String.eqb cur "").
    + rewrite IH.
      destruct (cut sep s) as [|h t] eqn:Hcut;
        [by apply cut_nonempty in Hcut|].
      by rewrite append_assoc, append_cons, append_nil_l.
Qed.

Lemma SplitAny_chunks requestMsg :
  stringsutil.SplitAny requestMsg scan_delimiters = dump_chunks requestMsg.
Proof.
  unfold stringsutil.SplitAny, FieldsFunc, dump_chunks.
  rewrite FieldsFunc_from_cut.
  rewrite (cut_ext _ is_scan_delimiter _ scan_delimiters_set).
  destruct (cut is_scan_delimiter requestMsg) as [|h t] eqn:Hcut;
    [by apply cut_nonempty in Hcut|].
  by rewrite append_nil_l.
Qed.

(** The loop of [SlideWithLength], by offsets. *)
Lemma windows_seq s l : forall n i,
  stringsutil.windows s l i n
  = map (fun j => String.substring j l s)
        (seq i (Nat.min n (String.length s + 1 - l - i))).
Proof.
  induction n as [|n IH]; intros i; [done|].
  cbn [stringsutil.windows].
  destruct (Nat.leb_spec (i + l) (String.length s)) as [Hle|Hgt].
  - rewrite IH.
    replace (Nat.min (S n) (String.length s + 1 - l - i))
      with (S (Nat.min n (String.length s + 1 - l - S i))) by lia.
    reflexivity.
  - replace (Nat.min (S n) (String.length s + 1 - l - i)) with 0%nat by lia.
    reflexivity.
Qed.

Lemma SlideWithLength_candidates chunk L :
  0 < L -> stringsutil.SlideWithLength chunk L = chunk_candidates L chunk.
Proof.
  intros HL. unfold stringsutil.SlideWithLength, chunk_candidates.
  destruct (Z.ltb_spec (Z.of_nat (String.length chunk)) L); [done|].
  rewrite windows_seq. unfold sliding_windows. do 2 f_equal. lia.
Qed.

Lemma substring_none i s : String.substring i 0 s = "".
Proof.
  revert i. induction s as [|c s IH]; intros [|i]; simpl; done.
Qed.

(** Windows of no character are empty strings. *)
Lemma sliding_windows_none chunk :
  Forall (fun part => part = "") (sliding_windows 0 chunk).
Proof.
  unfold sliding_windows. apply Forall_forall. intros part Hin.
  apply list_elem_of_fmap in Hin as (i & -> & _). apply substring_none.
Qed.

Lemma SlideWithLength_none chunk L :
  L <= 0 ->
  Forall (fun part => part = "") (stringsutil.SlideWithLength chunk L).
Proof.
  intros HL. unfold stringsutil.SlideWithLength.
  destruct (Z.ltb_spec (Z.of_nat (String.length chunk)) L); [lia|].
  rewrite windows_seq. replace (Z.to_nat L) with 0%nat by lia.
  apply Forall_forall. intros part Hin.
  apply list_elem_of_fmap in Hin as (i & -> & _). apply substring_none.
Qed.

Lemma chunk_candidates_none chunk L :
  L <= 0 -> Forall (fun part => part = "") (chunk_candidates L chunk).
Proof.
  intros HL. unfold chunk_candidates.
  destruct (Z.ltb_spec (Z.of_nat (String.length chunk)) L); [lia|].
  replace (Z.to_nat L) with 0%nat by lia. apply sliding_windows_none.
Qed.

Lemma Forall_concat_map {X Y} (P : Y -> Prop) (f : X -> list Y) (l : list X) :
  (forall x, Forall P (f x)) -> Forall P (concat (map f l)).
Proof.
  intros Hf. induction l as [|x l IH]; simpl; [done|].
  apply Forall_app. by split.
Qed.

(** Among empty strings the last match is the empty string, which is
    no identifier. *)
Lemma last_window_none o candidates :
  Forall (fun part => part = "") candidates ->
  last_window o candidates = ("", "").
Proof.
  intros Hall. unfold last_window.
  destruct (last _) as [part|] eqn:Hl; [|done].
  apply last_Some_elem_of, list_elem_of_In, List.filter_In in Hl as [Hin _].
  apply list_elem_of_In in Hin.
  rewrite Forall_forall in Hall. by rewrite (Hall _ Hin).
Qed.

Lemma ToLower_length s : String.length (ToLower s) = String.length s.
Proof. induction s as [|c s IH]; simpl; [done|]. by rewrite IH. Qed.

(** A recognizer for strings of [L_id] characters finds in a chunk
    what it finds in the windows of that length. *)
Lemma filter_chunk_candidates o chunk :
  accepts_only_L_id o ->
  List.filter (window_matches o) (chunk_candidates (GetIdLength o) chunk)
  = List.filter (window_matches o)
      (sliding_windows (Z.to_nat (GetIdLength o)) chunk).
Proof.
  intros Hacc. unfold chunk_candidates.
  destruct (Z.ltb_spec (Z.of_nat (String.length chunk)) (GetIdLength o))
    as [Hlt|]; [|done].
  unfold sliding_windows.
  replace (String.length chunk + 1 - Z.to_nat (GetIdLength o))%nat
    with 0%nat by lia.
  simpl. unfold window_matches at 1.
  destruct (isCorrelationID o (ToLower chunk)) eqn:Hm; [|done].
  apply Hacc in Hm. rewrite ToLower_length in Hm. lia.
Qed.

Lemma filter_concat_map {X Y} (p : Y -> bool) (f g : X -> list Y)
    (l : list X) :
  (forall x, List.filter p (f x) = List.filter p (g x)) ->
  List.filter p (concat (map f l)) = List.filter p (concat (map g l)).
Proof.
  intros Hfg. induction l as [|x l IH]; simpl; [done|].
  by rewrite !List.filter_app, Hfg, IH.
Qed.

(** The two loops of scan-everywhere mode keep the last match among
    the candidates. *)
Lemma scan_chunks_candidates o requestMsg :
  scan_chunks o (stringsutil.SplitAny requestMsg scan_delimiters) ("", "")
  = last_window o (scan_candidates (GetIdLength o) requestMsg).
Proof.
  rewrite scan_chunks_last, SplitAny_chunks.
  fold (last_window o
          (concat (map (fun chunk =>
                          stringsutil.SlideWithLength chunk (GetIdLength o))
                       (dump_chunks requestMsg)))).
  destruct (Z.lt_ge_cases 0 (GetIdLength o)) as [HL|HL].
  - unfold scan_candidates. do 2 f_equal.
    apply map_ext. intros chunk. by apply SlideWithLength_candidates.
  - rewrite !last_window_none; [done| |].
    + apply Forall_concat_map. intros chunk.
      by apply chunk_candidates_none.
    + apply Forall_concat_map. intros chunk.
      by apply SlideWithLength_none.
Qed.

Lemma scan_candidates_of_length o requestMsg :
  accepts_only_L_id o ->
  last_window o (scan_candidates (GetIdLength o) requestMsg)
  = last_window o (scan_windows_of_length (GetIdLength o) requestMsg).
Proof.
  intros Hacc. unfold last_window, scan_candidates, scan_windows_of_length.
  rewrite (filter_concat_map _ _
             (sliding_windows (Z.to_nat (GetIdLength o)))); [done|].
  intros chunk. by apply filter_chunk_candidates.
Qed.
End ScanEverywhere.

(** C1 (amended).  When the query name ends with a configured apex,
    and the first such apex in the order of configuration is not the
    empty string, the correlation extractor returns, in strict label
    mode, the match of the deepest label that holds a correlation
    identifier (the last matching sub-token of the label of highest
    index), with the full identifier equal to the dot-join of the
    labels 0 to that index; in scan-everywhere mode it returns the
    last match in the order of iteration over the chunks of the
    request dump, split on the delimiter set, and their windows of
    [L_id] characters: a chunk shorter than [L_id] is tried whole, so
    that for a recognizer of strings of [L_id] characters the
    candidates are the windows of exactly that length. *)
Theorem extractor_deepest_label_or_last_window
    (o : Options) (domain requestMsg d : string) :
  first_apex (Domains o) domain d ->
  d <> "" ->
  let found := find_domain (Domains o) domain in
  let parts := Strings.Split domain "." in
  (ScanEverywhere o = false ->
   forall i part,
     parts !! i = Some part ->
     label_matches o part = true ->
     (forall j part', (i < j)%nat -> parts !! j = Some part' ->
                      label_matches o part' = false) ->
     exists sub,
       last (List.filter (isCorrelationID o) (splitSubdomainParts part))
       = Some sub
       /\ extract_correlation o found domain requestMsg
          = (sub, Strings.Join (take (i + 1) parts) "."))
  /\ (ScanEverywhere o = true ->
      extract_correlation o found domain requestMsg
      = last_window o (scan_candidates (GetIdLength o) requestMsg))
  /\ (ScanEverywhere o = true ->
      accepts_only_L_id o ->
      extract_correlation o found domain requestMsg
      = last_window o (scan_windows_of_length (GetIdLength o) requestMsg)).
Proof.
  intros Hfirst Hne found parts.
  assert (String.eqb found "" = false) as Hf.
  { apply String.eqb_neq. unfold found.
    by rewrite (find_domain_first _ _ _ Hfirst). }
  unfold extract_correlation. rewrite Hf. simpl. split; [|split].
  - intros -> i part Hi Hm Hdeep.
    apply (scan_labels_deepest o parts parts 0 ("", "") i part Hi Hm);
      [|exact Hdeep].
    apply lookup_lt_Some in Hi. fold parts. lia.
  - intros ->. apply scan_chunks_candidates.
  - intros -> Hacc. rewrite scan_chunks_candidates.
    by apply scan_candidates_of_length.
Qed.

Lemma extractor_deepest_label_or_last_window_witness :
  extract_correlation Sample.opts
    (find_domain (Domains Sample.opts) "ab12.x.cd34.oob.example.")
    "ab12.x.cd34.oob.example." ";ab12.x.cd34.oob.example."
  = ("cd34", "ab12.x.cd34")
  /\ extract_correlation Sample.opts_scan
       (find_domain (Domains Sample.opts_scan) "ab12.x.CD34.oob.example.")
       "ab12.x.CD34.oob.example." ";ab12.x.CD34.oob.example."
     = ("cd34", "CD34").
Proof.
  split.
  - destruct (extractor_deepest_label_or_last_window Sample.opts
                "ab12.x.cd34.oob.example." ";ab12.x.cd34.oob.example."
                "oob.example")
      as [Hstrict _].
    + exists [], []. split; [reflexivity|]. split; [constructor|reflexivity].
    + discriminate.
    + destruct (Hstrict eq_refl 2%nat "cd34" eq_refl eq_refl)
        as [sub [Hl He]].
      * intros j part' Hj Hlook.
        destruct j as [|[|[|[|[|[|j]]]]]]; try lia; simpl in Hlook;
          try discriminate Hlook; injection Hlook as <-; reflexivity.
      * vm_compute in Hl. injection Hl as <-. exact He.
  - destruct (extractor_deepest_label_or_last_window Sample.opts_scan
                "ab12.x.CD34.oob.example." ";ab12.x.CD34.oob.example."
                "oob.example")
      as (_ & _ & Hscan).
    + exists [], []. split; [reflexivity|]. split; [constructor|reflexivity].
    + discriminate.
    + etransitivity.
      * apply Hscan; [reflexivity|].
        intros s Hs. apply andb_prop in Hs as [Hlen _].
        apply Nat.eqb_eq in Hlen. simpl. lia.
      * vm_compute. reflexivity.
Defined.

(** C1, as stated, fails: an empty string that comes first in the
    apex list is found for every name that ends in a dot, and the code
    reads the empty string as no apex found.  The name
    [ab12.oob.example.] ends with the configured apex [oob.example] and
    its label 0 holds the identifier [ab12], yet nothing is extracted
    and nothing is stored. *)
Lemma empty_apex_hides_the_identifier :
  let o := Sample.opts_empty_apex in
  let domain := "ab12.oob.example." in
  "oob.example" ∈ Domains o
  /\ stringsutil.HasSuffixI domain (dnsname.Fqdn "oob.example") = true
  /\ ScanEverywhere o = false
  /\ Strings.Split domain "." !! 0%nat = Some "ab12"
  /\ label_matches o "ab12" = true
  /\ find_domain (Domains o) domain = ""
  /\ extract_correlation o (find_domain (Domains o) domain) domain
       (Msg_String Sample.env (Sample.query domain dns.TypeA))
     = ("", "")
  /\ stored (Sample.events_of
               (ServeDNS Sample.env (Sample.server_of o) Sample.writer
                         (Sample.query domain dns.TypeA)))
     = [].
Proof.
  split; [right; left|]. repeat split; vm_compute; reflexivity.
Qed.

(** ** An error of the ACME record store *)

Section AcmeStoreErrorReturns.
Context `{NetPkg} (env : Env).

(** A computation that adds no event leaves the events as they were. *)
Lemma silent_events {T} (c : M T) w0 :
  appends (fun _ => False) c -> events (final (c w0)) = events w0.
Proof.
  intros Ha. destruct (Ha w0) as [tr [E F]].
  destruct tr as [|e tr]; [by rewrite app_nil_r in E|].
  by apply Forall_cons in F as [[] _].
Qed.

(** On a server with an apex the five record handlers return, and
    leave the events as they were. *)
Lemma handlers_return_silently h zone m w0 d0 ds :
  Domains (options h) = d0 :: ds ->
  (exists m' w', handleACNAMEANY env h zone m w0 = Done m' w'
                 /\ events w' = events w0)
  /\ (exists m' w', handleAAAACNAMEANY env h zone m w0 = Done m' w'
                    /\ events w' = events w0)
  /\ (exists m', handleMX h zone m w0 = Done m' w0)
  /\ (exists m', handleNS h zone m w0 = Done m' w0)
  /\ (exists m', handleSOA env h zone m w0 = Done m' w0).
Proof.
  intros Hd. repeat split.
  - destruct (handleACNAMEANY_ns_block env h zone m w0 d0 ds Hd)
      as (m' & w' & E & _).
    exists m', w'. split; [done|].
    pose proof (silent_events (handleACNAMEANY env h zone m) w0
                  (appends_handleACNAMEANY env _ h zone m)) as Hs.
    by rewrite E in Hs.
  - destruct (handleAAAACNAMEANY_ns_block env h zone m w0 d0 ds Hd)
      as (m' & w' & E & _).
    exists m', w'. split; [done|].
    pose proof (silent_events (handleAAAACNAMEANY env h zone m) w0
                  (appends_handleAAAACNAMEANY env _ h zone m)) as Hs.
    by rewrite E in Hs.
  - unfold handleMX, dotDomains_of, bind, ret. rewrite Hd. by eexists.
  - unfold handleNS, dotDomains_of, bind, ret. rewrite Hd. by eexists.
  - unfold handleSOA, dotDomains_of, bind, ret. rewrite Hd. by eexists.
Qed.

Ltac turn_goes_on E :=
  unfold bind; rewrite E; do 2 eexists; (split; [reflexivity|]);
  (split; [done|]).

(** One turn of the loop of [ServeDNS] on a server with an apex: it
    goes on without an event, or it is the turn of a question the
    store fails for, which prints the error and leaves the handler. *)
Lemma serve_question_outcome h question m flag w0 d0 ds :
  Domains (options h) = d0 :: ds ->
  exists res w1,
    serve_question env h question m flag w0 = Done res w1
    /\ match res with
       | Some _ => events w1 = events w0 /\ ~ store_fails_for env question
       | None =>
           events w1 = events w0 ++ [EvPrintf "handleACMETXTChallenge err"]
       end.
Proof.
  intros Hd.
  destruct (handlers_return_silently h (dns.QName question) m w0 d0 ds Hd)
    as ((mA & wA & EA & HA) & (mB & wB & EB & HB) & (mM & EM) & (mN & EN)
        & (mS & ES)).
  unfold serve_question, store_fails_for, is_acme_name.
  destruct (Strings.HasPrefix _ _) eqn:Ha.
  - destruct (Z.eqb_spec (dns.Qtype question) dns.TypeSOA) as [Ht|Ht].
    { turn_goes_on ES. intros (Ht' & _). by rewrite Ht' in Ht. }
    destruct (Z.eqb_spec (dns.Qtype question) dns.TypeTXT) as [Ht1|Ht1].
    { unfold handleACMETXTChallenge.
      destruct (ACMEStore_GetRecords env _) eqn:Hs.
      - do 2 eexists. split; [reflexivity|]. split; [done|].
        intros (_ & _ & Hn). congruence.
      - do 2 eexists. split; [reflexivity|]. done. }
    destruct (dns.Qtype question =? dns.TypeNS).
    { turn_goes_on EN. by intros (Ht' & _). }
    destruct (dns.Qtype question =? dns.TypeA).
    { turn_goes_on EA. by intros (Ht' & _). }
    destruct (dns.Qtype question =? dns.TypeAAAA).
    { turn_goes_on EB. by intros (Ht' & _). }
    do 2 eexists. split; [reflexivity|]. split; [done|].
    by intros (Ht' & _).
  - destruct (_ || _ || _).
    { turn_goes_on EA. by intros (_ & Ha' & _). }
    destruct (dns.Qtype question =? dns.TypeAAAA).
    { turn_goes_on EB. by intros (_ & Ha' & _). }
    destruct (dns.Qtype question =? dns.TypeMX).
    { turn_goes_on EM. by intros (_ & Ha' & _). }
    destruct (dns.Qtype question =? dns.TypeNS).
    { turn_goes_on EN. by intros (_ & Ha' & _). }
    destruct (dns.Qtype question =? dns.TypeSOA).
    { turn_goes_on ES. by intros (_ & Ha' & _). }
    destruct (dns.Qtype question =? dns.TypeTXT);
      (do 2 eexists; split; [reflexivity|]; split; [done|];
       by intros (_ & Ha' & _)).
Qed.

(** The loop over the questions, when the store fails for one of
    them: it leaves the handler, and the printed error is its only
    event. *)
Lemma serve_questions_printed h q questions d0 ds : forall m flag w0,
  Domains (options h) = d0 :: ds ->
  q ∈ questions ->
  store_fails_for env q ->
  exists w1,
    serve_questions env h questions m flag w0 = Done None w1
    /\ events w1 = events w0 ++ [EvPrintf "handleACMETXTChallenge err"].
Proof.
  induction questions as [|a qs IH]; intros m flag w0 Hd Hin Hf.
  - by apply elem_of_nil in Hin.
  - simpl. unfold bind.
    destruct (serve_question_outcome h a m flag w0 d0 ds Hd)
      as (res & w1 & -> & Hres).
    destruct res as [[m' flag']|].
    + destruct Hres as [Hev Hnf].
      apply elem_of_cons in Hin as [->|Hin]; [done|].
      destruct (IH m' flag' w1 Hd Hin Hf) as (w2 & -> & E).
      exists w2. split; [done|]. by rewrite E, Hev.
    + exists w1. by split.
Qed.

(** C8 (amended).  When the ACME record store returns an error for a
    TXT question under the [_acme-challenge.] prefix, the handler
    gives the message up: no DNS response is written and no
    interaction is stored, whatever the other questions of the
    message produced, and nothing but a printed error is left.  On a
    server with a configured apex, where the handlers of the other
    questions cannot panic, the handler returns, and the error
    printed once is its only event. *)
Theorem acme_store_error_gives_up_the_response
    (h : DNSServer) (w : ResponseWriter) (r : dns.Msg) (w0 : World)
    (q : dns.Question) :
  q ∈ dns.Questions r ->
  dns.Qtype q = dns.TypeTXT ->
  is_acme_name (dns.QName q) = true ->
  ACMEStore_GetRecords env (Strings.ToLower (dns.QName q)) = None ->
  (exists tr,
      events (final (ServeDNS env h w r w0)) = events w0 ++ tr
      /\ written tr = [] /\ stored tr = [] /\ Forall is_Printf tr)
  /\ (Domains (options h) <> [] ->
      exists w',
        ServeDNS env h w r w0 = Done tt w'
        /\ Stats_Dns w' = uint64 (Stats_Dns w0 + 1)
        /\ events w'
           = events w0 ++ [EvPrintf "handleACMETXTChallenge err"]).
Proof.
  intros Hin Ht Ha He. split.
  - assert (exists tr,
               events (final (ServeDNS env h w r w0)) = events w0 ++ tr
               /\ Forall is_Printf tr) as [tr [E F]].
    { unfold ServeDNS, bind at 1. simpl.
      destruct (dns.Questions r) as [|q0 qs] eqn:Hq;
        [by apply elem_of_nil in Hin|].
      set (m := dns.set_Authoritative true (dns.SetReply dns.new_Msg r)).
      set (w1 := mkWorld _ _ _).
      pose proof (serve_questions_aborts env h q (q0 :: qs) m false w1
                    Hin Ht Ha He) as Hab.
      destruct (appends_serve_questions env h (q0 :: qs) m false w1)
        as [tr [E F]].
      exists tr. split; [|done]. unfold bind.
      destruct (serve_questions env h (q0 :: qs) m false w1)
        as [[[m' flag']|] w2|]; [done| |]; exact E. }
    exists tr. split; [done|]. split; [|split; [|done]].
    + apply written_quiet. eapply Forall_impl; [exact F|].
      apply Printf_not_WriteMsg.
    + apply stored_quiet. eapply Forall_impl; [exact F|].
      apply Printf_not_AddInteraction.
  - intros Hd.
    destruct (Domains (options h)) as [|d0 ds] eqn:Hdom; [done|].
    unfold ServeDNS, bind at 1. simpl.
    destruct (dns.Questions r) as [|q0 qs] eqn:Hq;
      [by apply elem_of_nil in Hin|].
    set (m := dns.set_Authoritative true (dns.SetReply dns.new_Msg r)).
    set (w1 := mkWorld _ _ _).
    destruct (serve_questions_printed h q (q0 :: qs) d0 ds m false w1
                Hdom Hin (conj Ht (conj Ha He))) as (w2 & Hs & E).
    pose proof (keeps_serve_questions env h (q0 :: qs) m false w1) as Hk.
    rewrite Hs in Hk. simpl in Hk.
    exists w2. unfold bind. rewrite Hs. by repeat split.
Qed.
End AcmeStoreErrorReturns.

Lemma acme_store_error_gives_up_the_response_witness :
  exists w',
    ServeDNS Sample.env Sample.server Sample.writer
             (Sample.query2 "x.oob.example." dns.TypeA
                            "_acme-challenge.oob.example." dns.TypeTXT)
             Sample.world0
    = Done tt w'
    /\ Stats_Dns w' = 1
    /\ events w' = [EvPrintf "handleACMETXTChallenge err"].
Proof.
  destruct (acme_store_error_gives_up_the_response Sample.env Sample.server
              Sample.writer
              (Sample.query2 "x.oob.example." dns.TypeA
                             "_acme-challenge.oob.example." dns.TypeTXT)
              Sample.world0
              (dns.mkQuestion "_acme-challenge.oob.example." dns.TypeTXT
                              dns.ClassINET)) as [_ Hret].
  - right. left.
  - reflexivity.
  - reflexivity.
  - reflexivity.
  - apply Hret. discriminate.
Defined.

(** C8, as stated, fails: the store fails for the second question, the
    first question had produced an answer, and no response is written. *)
Lemma acme_store_error_response_is_not_written :
  (exists m w',
      serve_question Sample.env Sample.server
        (dns.mkQuestion "x.oob.example." dns.TypeA dns.ClassINET)
        dns.new_Msg false Sample.world0 = Done (Some (m, false)) w'
      /\ length (dns.Answer m) = 1%nat)
  /\ ACMEStore_GetRecords Sample.env "_acme-challenge.oob.example." = None
  /\ written (Sample.events_of
                (ServeDNS Sample.env Sample.server Sample.writer
                          (Sample.query2 "x.oob.example." dns.TypeA
                             "_acme-challenge.oob.example." dns.TypeTXT)))
     = [].
Proof.
  split; [|split; vm_compute; reflexivity].
  eexists. eexists. split; vm_compute; reflexivity.
Qed.
